(** * ActivitySim: command-line runner, trip tables, composite logs, tracing

    A shallow embedding of
      - [activitysim/cli/run.py]                      (module [Run]),
      - [activitysim/abm/tables/trips.py]             (module [Trips]),
      - [activitysim/workflows/steps/composite_log.py] (module [CompositeLog]),
    together with the parts of the tracing registry and of the chunk
    planner that the tests and the specification describe (modules
    [Tracing] and [Chunk]).

    Python exceptions are an explicit [outcome]; calls into collaborators
    whose effect is observable (logging, file deletion, the simulation
    itself) are recorded as a list of [event]s in program order. *)

From stdpp Require Import base strings list gmap pretty.
From Stdlib Require Import ZArith Lia.

Open Scope Z_scope.

(** ** Python values, exceptions and outcomes *)

Module Py.

(** The exception classes that the embedded code raises or catches.
    [KeyboardInterrupt] and [SystemExit] derive from [BaseException]
    only, so [except Exception] does not catch them. *)
Inductive exn_class :=
| KeyError | ValueError | RuntimeError | ImportError | AssertionError
| KeyNotInContextError | KeyInContextHasNoValueError
| ConfigurationError
| OtherException (name : string)
| KeyboardInterrupt | SystemExit.

Record exn := Raise { exn_cls : exn_class; exn_msg : string }.

Definition is_Exception (e : exn) : bool :=
  match exn_cls e with
  | KeyboardInterrupt | SystemExit => false
  | _ => true
  end.

Inductive outcome (A : Type) :=
| Ok (a : A)
| Raised (e : exn).
Arguments Ok {A} a.
Arguments Raised {A} e.

Definition obind {A B} (m : outcome A) (f : A -> outcome B) : outcome B :=
  match m with
  | Ok a => f a
  | Raised e => Raised e
  end.

(** Cells of a table, values of a settings file, values of a context. *)
Inductive value :=
| VNone
| VBool (b : bool)
| VInt (z : Z)
| VStr (s : string)
| VNaN.

#[global] Instance value_eq_dec : EqDecision value.
Proof. solve_decision. Defined.

(** [bool(v)] *)
Definition truthy (v : value) : bool :=
  match v with
  | VNone => false
  | VBool b => b
  | VInt z => negb (z =? 0)
  | VStr s => negb (String.eqb s "")
  | VNaN => true
  end.

(** [str(v)], as an f-string interpolates it. *)
Definition str (v : value) : string :=
  match v with
  | VNone => "None"
  | VBool true => "True"
  | VBool false => "False"
  | VInt z => pretty z
  | VStr s => s
  | VNaN => "nan"
  end.

(** Truthiness of an optional string ([None] and [''] are falsy), of an
    optional integer ([None] and [0] are falsy; [False] is modelled as
    [None]) and of an optional list. *)
Definition truthy_str (o : option string) : bool :=
  match o with
  | Some s => negb (String.eqb s "")
  | None => false
  end.

Definition truthy_int (o : option Z) : bool :=
  match o with
  | Some z => negb (z =? 0)
  | None => false
  end.

Definition truthy_list {A} (o : option (list A)) : bool :=
  match o with
  | Some (_ :: _) => true
  | _ => false
  end.

(** [d[k] = v] on a dict kept in insertion order. *)
Fixpoint dict_set {A} (d : list (string * A)) (k : string) (v : A)
  : list (string * A) :=
  match d with
  | [] => [(k, v)]
  | (k', v') :: d' =>
      if String.eqb k' k then (k, v) :: d' else (k', v') :: dict_set d' k v
  end.

(** Effectful code: the events emitted so far, in program order, and
    how the computation ended. An exception keeps the events emitted
    before it. *)
Definition M (E A : Type) : Type := list E * outcome A.

Definition ret {E A} (a : A) : M E A := ([], Ok a).
Definition emit {E} (e : E) : M E unit := ([e], Ok tt).
Definition raise {E A} (e : exn) : M E A := ([], Raised e).
Definition lift {E A} (o : outcome A) : M E A := ([], o).

Definition bind {E A B} (m : M E A) (f : A -> M E B) : M E B :=
  match m with
  | (es, Ok a) => let (es', r) := f a in (es ++ es', r)
  | (es, Raised e) => (es, Raised e)
  end.

(** [try: body  except Exception: handler; raise] *)
Definition try_except_reraise {E A} (body : M E A) (handler : M E unit)
  : M E A :=
  match body with
  | (es, Raised e) =>
      if is_Exception e then
        match handler with
        | (es', Ok _) => (es ++ es', Raised e)
        | (es', Raised e') => (es ++ es', Raised e')
        end
      else (es, Raised e)
  | ok => ok
  end.

End Py.
Import Py.

Notation "x ←? m ; k" := (obind m (fun x => k))
  (at level 100, m at next level, right associativity, only parsing).
Notation "x ←! m ; k" := (bind m (fun x => k))
  (at level 100, m at next level, right associativity, only parsing).
Notation "m ;;! k" := (bind m (fun _ => k))
  (at level 100, right associativity, only parsing).

(** ** The fragment of pandas the code uses *)

Module Pandas.

Inductive dtype := DBool | DInt | DFloat | DObject.

#[global] Instance dtype_eq_dec : EqDecision dtype.
Proof. solve_decision. Defined.

(** A frame is kept row by row: every row carries its index label and one
    cell per column, in column order. *)
Record DataFrame := mkDF {
  df_index_name : option string;
  df_columns : list (string * dtype);
  df_rows : list (value * list value)
}.

Record Series := mkSeries {
  s_dtype : dtype;
  s_items : list (value * value)   (* index label, value *)
}.

(** [pd.DataFrame()] *)
Definition empty_frame : DataFrame :=
  {| df_index_name := None; df_columns := []; df_rows := [] |}.

Definition column_names (df : DataFrame) : list string :=
  (df_columns df).*1.

(** ['name' in df] looks the name up among the columns. *)
Definition has_column (df : DataFrame) (name : string) : bool :=
  bool_decide (name ∈ column_names df).

Fixpoint col_pos (name : string) (cols : list (string * dtype))
  : option (nat * dtype) :=
  match cols with
  | [] => None
  | (c, t) :: cols' =>
      if String.eqb c name then Some (O, t)
      else match col_pos name cols' with
           | Some (i, t') => Some (S i, t')
           | None => None
           end
  end.

Definition cell_at (i : nat) (row : value * list value) : value :=
  default VNaN (row.2 !! i).

(** [df[name]] on a frame that [pd.read_csv] returned, where no label is
    repeated: the column as a series, [KeyError] when the frame has no such
    column. *)
Definition getitem_col (df : DataFrame) (name : string) : outcome Series :=
  match col_pos name (df_columns df) with
  | Some (i, t) =>
      Ok {| s_dtype := t;
            s_items := map (fun r => (r.1, cell_at i r)) (df_rows df) |}
  | None => Raised (Raise KeyError name)
  end.

(** The positions and dtypes of all columns labelled [name], counted from
    [i]: a frame may carry a label more than once. *)
Fixpoint col_positions_from (i : nat) (name : string)
    (cols : list (string * dtype)) : list (nat * dtype) :=
  match cols with
  | [] => []
  | (c, t) :: cols' =>
      if String.eqb c name then (i, t) :: col_positions_from (S i) name cols'
      else col_positions_from (S i) name cols'
  end.

Definition col_positions (name : string) (cols : list (string * dtype))
  : list (nat * dtype) :=
  col_positions_from 0 name cols.

(** What a label selects: a series when one column carries it, the frame of
    the columns that carry it when several do. *)
Inductive selection :=
| OneColumn (s : Series)
| SeveralColumns (df : DataFrame).

(** [df.name] for a frame of any origin; [AttributeError] when no column
    carries the label. *)
Definition getattr_col (df : DataFrame) (name : string) : outcome selection :=
  match col_positions name (df_columns df) with
  | [] => Raised (Raise (OtherException "AttributeError") name)
  | [(i, t)] =>
      Ok (OneColumn
            {| s_dtype := t;
               s_items := map (fun r => (r.1, cell_at i r)) (df_rows df) |})
  | ps =>
      Ok (SeveralColumns
            {| df_index_name := df_index_name df;
               df_columns := map (fun p => (name, p.2)) ps;
               df_rows := map (fun r => (r.1, map (fun p => cell_at p.1 r) ps))
                              (df_rows df) |})
  end.

Definition is_bool_value (v : value) : bool :=
  match v with VBool _ => true | _ => false end.

Definition is_na (v : value) : bool :=
  match v with VNaN | VNone => true | _ => false end.

Inductive indexer_kind := Mask | Labels | MaskWithNA.

(** pandas' [is_bool_indexer]: a series of dtype bool is a mask; a series
    of dtype object is a mask when it is not empty and holds only
    booleans, an error when it holds booleans and missing values, and a
    list of column labels otherwise. *)
Definition classify_indexer (s : Series) : indexer_kind :=
  match s_dtype s with
  | DBool => Mask
  | DObject =>
      let vs := (s_items s).*2 in
      match vs with
      | [] => Labels
      | _ =>
          if forallb is_bool_value vs then Mask
          else if forallb (fun v => is_bool_value v || is_na v) vs
               then MaskWithNA
               else Labels
      end
  | _ => Labels
  end.

(** Rows kept by a mask taken from the same frame: position by position. *)
Fixpoint mask_rows {A} (rows : list A) (mask : list value) : list A :=
  match rows, mask with
  | r :: rows', m :: mask' =>
      if truthy m then r :: mask_rows rows' mask' else mask_rows rows' mask'
  | _, _ => []
  end.

Fixpoint select_columns (labels : list value) (cols : list (string * dtype))
  : outcome (list (nat * (string * dtype))) :=
  match labels with
  | [] => Ok []
  | VStr c :: labels' =>
      match col_pos c cols with
      | Some (i, t) =>
          rest ←? select_columns labels' cols; Ok ((i, (c, t)) :: rest)
      | None => Raised (Raise KeyError c)
      end
  | v :: _ => Raised (Raise KeyError (str v))
  end.

(** [df[s]] for a series [s]. *)
Definition getitem_series (df : DataFrame) (s : Series) : outcome DataFrame :=
  match classify_indexer s with
  | Mask =>
      Ok {| df_index_name := df_index_name df;
            df_columns := df_columns df;
            df_rows := mask_rows (df_rows df) (s_items s).*2 |}
  | MaskWithNA =>
      Raised (Raise ValueError
                "Cannot mask with non-boolean array containing NA / NaN values")
  | Labels =>
      sel ←? select_columns (s_items s).*2 (df_columns df);
      Ok {| df_index_name := df_index_name df;
            df_columns := sel.*2;
            df_rows := map (fun r => (r.1, map (fun p => cell_at p.1 r) sel))
                           (df_rows df) |}
  end.

(** [df[key]] for what a label of [df] itself selected. A series goes
    through [getitem_series]. A frame is a condition for [df.where], which
    aligns it with [df] first; the frame comes from a repeated label, and
    aligning on repeated labels fails. *)
Definition getitem_selection (df : DataFrame) (key : selection)
  : outcome DataFrame :=
  match key with
  | OneColumn s => getitem_series df s
  | SeveralColumns _ =>
      Raised (Raise ValueError
                "cannot reindex on an axis with duplicate labels")
  end.

(** [index.duplicated()] with the default [keep='first'], and
    [x.loc[~x.index.duplicated()]]: an entry is kept when its label did
    not occur earlier. *)
Fixpoint drop_duplicated_from {A} (seen : list value)
    (items : list (value * A)) : list (value * A) :=
  match items with
  | [] => []
  | (k, v) :: items' =>
      if bool_decide (k ∈ seen) then drop_duplicated_from seen items'
      else (k, v) :: drop_duplicated_from (k :: seen) items'
  end.

Definition drop_duplicated {A} (items : list (value * A)) : list (value * A) :=
  drop_duplicated_from [] items.

(** First entry with the given label. *)
Fixpoint assoc {A} (k : value) (items : list (value * A)) : option A :=
  match items with
  | [] => None
  | (k', v) :: items' => if decide (k' = k) then Some v else assoc k items'
  end.

End Pandas.
Import Pandas.

(** ** activitysim/abm/tables/trips.py *)

Module Trips.

(** [trips.to_frame()]: the wrapped frame, read from the registry. *)
Definition to_frame (trips : DataFrame) : DataFrame := trips.

(** [bad_trips(trips)] *)
Definition bad_trips (trips : DataFrame) : outcome DataFrame :=
  let trips := to_frame trips in
  if has_column trips "bad" then
    bad ←? getattr_col trips "bad";
    getitem_selection trips bad
  else
    Ok empty_frame.


End Trips.

(** ** activitysim/workflows/steps/composite_log.py *)

Module CompositeLog.

(** What one compare mode contributes to [pd.concat(..., axis=1)]: a
    series (no sub-columns) or a frame (named sub-columns), row by row. *)
Record Block := mkBlock {
  b_subcols : option (list string);
  b_rows : list (value * list value)
}.

Definition block_width (b : Block) : nat :=
  match b_subcols b with
  | None => 1%nat
  | Some cs => length cs
  end.

Definition block_labels (b : Block) : list value := (b_rows b).*1.

(** The combined table: columns are keyed by mode (and sub-column). *)
Record Composite := mkComposite {
  comp_columns : list (string * option string);
  comp_rows : list (value * list value)
}.

Definition comp_index (c : Composite) : list value := (comp_rows c).*1.

Inductive event :=
| ResetProgress (description : string)
| ToCsv (path : string) (content : Composite).

(** [context.assert_key_has_value(key=..., caller=...)] *)
Definition assert_key_has_value (context : gmap string value) (key : string)
  : outcome unit :=
  match context !! key with
  | None => Raised (Raise KeyNotInContextError key)
  | Some VNone => Raised (Raise KeyInContextHasNoValueError key)
  | Some _ => Ok tt
  end.

(** [context.get_formatted(key)]; the context holds values in which
    format expressions are already substituted. *)
Definition get_formatted (context : gmap string value) (key : string)
  : outcome value :=
  match context !! key with
  | Some v => Ok v
  | None => Raised (Raise KeyNotInContextError key)
  end.

(** [df.set_index(name)] *)
Definition set_index (df : DataFrame) (name : string) : outcome DataFrame :=
  match col_pos name (df_columns df) with
  | Some (i, _) =>
      Ok {| df_index_name := Some name;
            df_columns := delete i (df_columns df);
            df_rows := map (fun r => (cell_at i r, delete i r.2)) (df_rows df) |}
  | None => Raised (Raise KeyError name)
  end.

(** [df[[c1, ..., cn]]] *)
Fixpoint positions (names : list string) (cols : list (string * dtype))
  : outcome (list nat) :=
  match names with
  | [] => Ok []
  | c :: names' =>
      match col_pos c cols with
      | Some (i, _) => rest ←? positions names' cols; Ok (i :: rest)
      | None => Raised (Raise KeyError c)
      end
  end.

Definition getitem_cols (df : DataFrame) (names : list string)
  : outcome (list (value * list value)) :=
  ps ←? positions names (df_columns df);
  Ok (map (fun r => (r.1, map (fun i => cell_at i r) ps)) (df_rows df)).

(** Labels in order of first appearance. *)
Definition unique_labels (ls : list value) : list value :=
  (drop_duplicated (map (fun k => (k, tt)) ls)).*1.

Definition nodupb (ls : list value) : bool :=
  bool_decide (unique_labels ls = ls).

Definition block_row (b : Block) (k : value) : list value :=
  default (replicate (block_width b) VNaN) (assoc k (b_rows b)).

Definition composite_columns (blocks : list (string * Block))
  : list (string * option string) :=
  flat_map (fun tb =>
              match b_subcols tb.2 with
              | None => [(tb.1, None)]
              | Some cs => map (fun c => (tb.1, Some c)) cs
              end) blocks.

(** Rows of all blocks side by side, position by position. *)
Fixpoint zip_rows (idx : list value) (blocks : list (list (list value)))
  : list (value * list value) :=
  match idx with
  | [] => []
  | k :: idx' =>
      (k, flat_map (fun rows => default [] (head rows)) blocks)
        :: zip_rows idx' (map (fun rows => tail rows) blocks)
  end.

(** [pd.concat(blocks, axis=1)]: an outer join on the index labels. When
    some index has a repeated label, pandas can only align identical
    indexes and raises [InvalidIndexError] otherwise. *)
Definition concat (blocks : list (string * Block)) : outcome Composite :=
  let idxs := map (fun tb => block_labels tb.2) blocks in
  if forallb nodupb idxs then
    let index := unique_labels (mjoin idxs) in
    Ok {| comp_columns := composite_columns blocks;
          comp_rows :=
            map (fun k => (k, flat_map (fun tb => block_row tb.2 k) blocks))
                index |}
  else
    match idxs with
    | i0 :: rest =>
        if forallb (fun i => bool_decide (i = i0)) rest then
          Ok {| comp_columns := composite_columns blocks;
                comp_rows :=
                  zip_rows i0 (map (fun tb => (b_rows tb.2).*2) blocks) |}
        else
          Raised (Raise (OtherException "InvalidIndexError")
                    "Reindexing only valid with uniquely valued Index objects")
    | [] => Raised (Raise ValueError "No objects to concatenate")
    end.

Definition timing_log (archive_dir t : string) : string :=
  archive_dir +:+ "/output-" +:+ t +:+ "/log/timing_log.csv".

Definition mem_log (archive_dir t : string) : string :=
  archive_dir +:+ "/output-" +:+ t +:+ "/log/mem.csv".

Definition combined_timing_log (archive_dir tag : string) : string :=
  archive_dir +:+ "/combined_timing_log-" +:+ tag +:+ ".csv".

Definition combined_mem_log (archive_dir tag : string) : string :=
  archive_dir +:+ "/combined_mem_log-" +:+ tag +:+ ".csv".

(** The compare modes selected by the two switches. *)
Definition selected_compares (sharrow legacy : value) : list string :=
  (if truthy sharrow then ["compile"; "sharrow"] else [])
    ++ (if truthy legacy then ["legacy"] else []).

(** The disk: for every path that exists, what [pd.read_csv] makes of it. *)
Section Loops.
Variable files : gmap string (outcome DataFrame).

(** [df.set_index("model_name")['seconds']], row by row. *)
Definition timing_rows (df : DataFrame) : outcome (list (value * list value)) :=
  df ←? set_index df "model_name";
  s ←? getitem_col df "seconds";
  Ok (map (fun kv => (kv.1, [kv.2])) (s_items s)).

(** [df.set_index('event')[['rss', 'full_rss', 'uss']]] *)
Definition mem_rows (df : DataFrame) : outcome (list (value * list value)) :=
  df ←? set_index df "event";
  getitem_cols df ["rss"; "full_rss"; "uss"].

(** [df.loc[~df.index.duplicated()]] of either. *)
Definition timing_block (df : DataFrame) : outcome Block :=
  rows ←? timing_rows df;
  Ok {| b_subcols := None; b_rows := drop_duplicated rows |}.

Definition mem_block (df : DataFrame) : outcome Block :=
  rows ←? mem_rows df;
  Ok {| b_subcols := Some ["rss"; "full_rss"; "uss"];
        b_rows := drop_duplicated rows |}.

(** The two [for t in compares] loops. *)
Fixpoint load (path : string -> string) (block : DataFrame -> outcome Block)
    (compares : list string) (acc : list (string * Block))
  : outcome (list (string * Block)) :=
  match compares with
  | [] => Ok acc
  | t :: compares' =>
      match files !! path t with
      | Some content =>
          df ←? content;
          b ←? block df;
          load path block compares' (dict_set acc t b)
      | None => load path block compares' acc
      end
  end.

Definition write_combined (loaded : list (string * Block)) (path : string)
  : M event unit :=
  match loaded with
  | [] => ret tt
  | _ => c ←! lift (concat loaded); emit (ToCsv path c)
  end.

End Loops.

(** [run_step(context)] *)
Definition run_step (context : gmap string value)
    (files : gmap string (outcome DataFrame)) : M event unit :=
  emit (ResetProgress "composite timing and memory logs") ;;!
  lift (assert_key_has_value context "sharrow") ;;!
  lift (assert_key_has_value context "legacy") ;;!
  lift (assert_key_has_value context "tag") ;;!
  lift (assert_key_has_value context "archive_dir") ;;!
  sharrow ←! lift (get_formatted context "sharrow");
  legacy ←! lift (get_formatted context "legacy");
  tag ←! lift (get_formatted context "tag");
  archive_dir ←! lift (get_formatted context "archive_dir");
  let compares := selected_compares sharrow legacy in
  timings ←! lift (load files (timing_log (str archive_dir)) timing_block
                        compares []);
  write_combined timings (combined_timing_log (str archive_dir) (str tag)) ;;!
  mems ←! lift (load files (mem_log (str archive_dir)) mem_block compares []);
  write_combined mems (combined_mem_log (str archive_dir) (str tag)).

End CompositeLog.

(** ** activitysim/cli/run.py *)

Module Run.

Definition INJECTABLES : list string :=
  ["data_dir"; "configs_dir"; "output_dir"; "settings_file_name";
   "imported_extensions"].

(** The namespace that [add_run_args] makes [argparse] produce. An option
    that was not given is [None]; [--multiprocess] has default [False]
    (here [None]), is [-1] when given bare, and the integer given
    otherwise. *)
Record Args := mkArgs {
  working_dir : option string;
  config : option (list string);
  output : option string;
  data : option (list string);
  resume : option string;
  pipeline : option string;
  settings_file : option string;
  chunk_size : option Z;
  chunk_training_mode : option string;
  households_sample_size : option Z;
  fast : bool;
  ext : option (list string);
  multiprocess : option Z
}.

(** The fields of [Settings] that [run.py] reads or writes; [s_extra] are
    the keys of the settings file that are no field of [Settings]. *)
Record Settings := mkSettings {
  s_multiprocess : bool;
  s_num_processes : option Z;
  s_chunk_size : Z;
  s_chunk_training_mode : string;
  s_households_sample_size : Z;
  s_resume_after : option string;
  s_models : list string;
  s_memory_profile : bool;
  s_rotate_logs : bool;
  s_cleanup_trace_files_on_resume : bool;
  s_cleanup_pipeline_after_run : bool;
  s_log_settings : list string;
  s_other_settings : option (list (string * value));
  s_extra : list (string * value)
}.

Record FileSystem := mkFileSystem {
  fs_configs_dir : list string;
  fs_cache_dir : option string;
  fs_pipeline_file_name : string;
  fs_settings_file_name : string
}.

Record Whale := mkWhale {
  context : list (string * list string);
  filesystem : FileSystem;
  settings : Settings
}.

Inductive event :=
| Chdir (path : string)
| ImportModule (name : string)
| ImportAbm
| LogException (msg : string)
| LogWarning (msg : string)
| LogInfo (msg : string)
| WarnDeprecated (msg : string)
| ConfigLogger (basic : bool)
| RotateLogDirectory
| StartMemorySidecar (log : string)
| DeleteTraceFiles
| DeleteOutputFiles (file_type : string) (ignore : list string)
| FilterWarnings
| CaptureWarnings
| PrintElapsedTime (msg : option string) (elapsed : Z)
| StepDone (name : string)
| CleanupPipeline
| ClosePipeline
| LogGlobalHwm
| ChunkConsolidateLogs
| MemConsolidateLogs
| TimeLoggerAggregateSummary
| StopMemorySidecar.

#[global] Instance event_eq_dec : EqDecision event.
Proof. solve_decision. Defined.

(** How the simulation itself went: the steps that finished, in order,
    and the exception that ended it, if any. *)
Record Simulation := mkSimulation {
  sim_steps : list string;
  sim_error : option exn
}.

(** The collaborators of [run.py] that live in other modules, as far as
    [run.py] observes them. *)
Record World := mkWorld {
  (* inject.is_injectable("preload_injectables") *)
  w_preload_injectables : bool;
  (* importlib.import_module(extpath) *)
  w_import_module : string -> outcome unit;
  (* FileSystem.parse_args(args) *)
  w_parse_args : Args -> FileSystem;
  (* read_settings_file(...), then pop("cache_dir") and Settings.parse_obj *)
  w_read_settings : FileSystem -> outcome (option string * Settings);
  (* whale.filesystem.get_working_subdir("configs_mp").exists() *)
  w_configs_mp_exists : bool;
  (* whale.get_log_file_path(name) *)
  w_log_file_path : string -> string;
  (* np.__config__.get_info(key), its "libraries" entry *)
  w_np_libraries : string -> option string;
  (* the wall clock, at its n-th reading *)
  w_now : nat -> Z;
  (* whale.run(models, resume_after, ...) *)
  w_whale_run : list string -> option string -> Simulation;
  (* mp_tasks.run_multiprocess(whale, injectables) *)
  w_run_multiprocess : Settings -> Simulation;
  (* whale.is_open after run_multiprocess *)
  w_is_open : bool
}.

Definition with_filesystem (f : FileSystem) (whale : Whale) : Whale :=
  {| context := context whale; filesystem := f; settings := settings whale |}.

Definition with_settings (s : Settings) (whale : Whale) : Whale :=
  {| context := context whale; filesystem := filesystem whale; settings := s |}.

Definition set_cache_dir (d : option string) (f : FileSystem) : FileSystem :=
  {| fs_configs_dir := fs_configs_dir f;
     fs_cache_dir := d;
     fs_pipeline_file_name := fs_pipeline_file_name f;
     fs_settings_file_name := fs_settings_file_name f |}.

Definition set_configs_dir (d : list string) (f : FileSystem) : FileSystem :=
  {| fs_configs_dir := d;
     fs_cache_dir := fs_cache_dir f;
     fs_pipeline_file_name := fs_pipeline_file_name f;
     fs_settings_file_name := fs_settings_file_name f |}.

Definition set_pipeline_file_name (n : string) (f : FileSystem) : FileSystem :=
  {| fs_configs_dir := fs_configs_dir f;
     fs_cache_dir := fs_cache_dir f;
     fs_pipeline_file_name := n;
     fs_settings_file_name := fs_settings_file_name f |}.

Definition set_multiprocess (b : bool) (s : Settings) : Settings :=
  mkSettings b (s_num_processes s) (s_chunk_size s) (s_chunk_training_mode s)
    (s_households_sample_size s) (s_resume_after s) (s_models s)
    (s_memory_profile s) (s_rotate_logs s) (s_cleanup_trace_files_on_resume s)
    (s_cleanup_pipeline_after_run s) (s_log_settings s) (s_other_settings s)
    (s_extra s).

Definition set_num_processes (n : option Z) (s : Settings) : Settings :=
  mkSettings (s_multiprocess s) n (s_chunk_size s) (s_chunk_training_mode s)
    (s_households_sample_size s) (s_resume_after s) (s_models s)
    (s_memory_profile s) (s_rotate_logs s) (s_cleanup_trace_files_on_resume s)
    (s_cleanup_pipeline_after_run s) (s_log_settings s) (s_other_settings s)
    (s_extra s).

Definition set_chunk_size (n : Z) (s : Settings) : Settings :=
  mkSettings (s_multiprocess s) (s_num_processes s) n (s_chunk_training_mode s)
    (s_households_sample_size s) (s_resume_after s) (s_models s)
    (s_memory_profile s) (s_rotate_logs s) (s_cleanup_trace_files_on_resume s)
    (s_cleanup_pipeline_after_run s) (s_log_settings s) (s_other_settings s)
    (s_extra s).

Definition set_chunk_training_mode (m : string) (s : Settings) : Settings :=
  mkSettings (s_multiprocess s) (s_num_processes s) (s_chunk_size s) m
    (s_households_sample_size s) (s_resume_after s) (s_models s)
    (s_memory_profile s) (s_rotate_logs s) (s_cleanup_trace_files_on_resume s)
    (s_cleanup_pipeline_after_run s) (s_log_settings s) (s_other_settings s)
    (s_extra s).

Definition set_households_sample_size (n : Z) (s : Settings) : Settings :=
  mkSettings (s_multiprocess s) (s_num_processes s) (s_chunk_size s)
    (s_chunk_training_mode s) n (s_resume_after s) (s_models s)
    (s_memory_profile s) (s_rotate_logs s) (s_cleanup_trace_files_on_resume s)
    (s_cleanup_pipeline_after_run s) (s_log_settings s) (s_other_settings s)
    (s_extra s).

Definition set_resume_after (r : option string) (s : Settings) : Settings :=
  mkSettings (s_multiprocess s) (s_num_processes s) (s_chunk_size s)
    (s_chunk_training_mode s) (s_households_sample_size s) r (s_models s)
    (s_memory_profile s) (s_rotate_logs s) (s_cleanup_trace_files_on_resume s)
    (s_cleanup_pipeline_after_run s) (s_log_settings s) (s_other_settings s)
    (s_extra s).

Definition set_other_settings (o : option (list (string * value)))
    (extra : list (string * value)) (s : Settings) : Settings :=
  mkSettings (s_multiprocess s) (s_num_processes s) (s_chunk_size s)
    (s_chunk_training_mode s) (s_households_sample_size s) (s_resume_after s)
    (s_models s) (s_memory_profile s) (s_rotate_logs s)
    (s_cleanup_trace_files_on_resume s) (s_cleanup_pipeline_after_run s)
    (s_log_settings s) o extra.

(** [inject_arg], local to [handle_standard_args]. *)
Definition inject_arg (name : string) (v : list string) (whale : Whale)
  : M event Whale :=
  if bool_decide (name ∈ INJECTABLES) then
    ret {| context := dict_set (context whale) name v;
           filesystem := filesystem whale;
           settings := settings whale |}
  else raise (Raise AssertionError name).

(** The loop over [args.ext]: an import that fails is logged and the
    exception is raised again. *)
Fixpoint import_extensions (w : World) (exts : list string) : M event unit :=
  match exts with
  | [] => ret tt
  | e :: exts' =>
      emit (ImportModule e) ;;!
      match w_import_module w e with
      | Ok _ => import_extensions w exts'
      | Raised err =>
          match exn_cls err with
          | ImportError => emit (LogException "ImportError") ;;! raise err
          | _ =>
              if is_Exception err then
                emit (LogException ("Error " +:+ exn_msg err)) ;;! raise err
              else raise err
          end
      end
  end.

(** Keys of the settings file that are no field of [Settings] move below
    [other_settings]. *)
Fixpoint move_extra (extra : list (string * value))
    (other : list (string * value)) : M event (list (string * value)) :=
  match extra with
  | [] => ret other
  | (k, v) :: extra' =>
      emit (LogWarning (" - " +:+ k)) ;;!
      move_extra extra' (dict_set other k v)
  end.

Definition move_extra_settings (s : Settings) : M event Settings :=
  match s_extra s with
  | [] => ret s
  | extra =>
      emit (WarnDeprecated
              "Writing arbitrary model values as top-level key in settings.yaml is deprecated, make them sub-keys of `other_settings` instead.") ;;!
      emit (LogWarning "Found the following unexpected settings:") ;;!
      other ←! move_extra extra (default [] (s_other_settings s));
      ret (set_other_settings (Some other) [] s)
  end.

(** The block under [if args.multiprocess:]. *)
Definition apply_multiprocess (w : World) (n : Z) (whale : Whale)
  : M event Whale :=
  whale ←!
    (if bool_decide ("configs_mp" ∈ fs_configs_dir (filesystem whale)) then
       ret whale
     else if negb (w_configs_mp_exists w) then
       emit (LogWarning "could not find 'configs_mp'. skipping...") ;;!
       ret whale
     else
       emit (LogInfo "adding 'configs_mp' to config_dir list...") ;;!
       ret (with_filesystem
              (set_configs_dir ("configs_mp" :: fs_configs_dir (filesystem whale))
                 (filesystem whale)) whale));
  let s := set_multiprocess true (settings whale) in
  let s := if 1 <? n then set_num_processes (Some n) s else s in
  ret (with_settings s whale).

(** The overrides of single settings by command-line arguments. *)
Definition apply_chunk_size (args : Args) (s : Settings) : Settings :=
  if truthy_int (chunk_size args)
  then set_chunk_size (default 0 (chunk_size args)) s
  else s.

Definition apply_chunk_training_mode (args : Args) (s : Settings) : Settings :=
  match chunk_training_mode args with
  | Some m => set_chunk_training_mode m s
  | None => s
  end.

Definition apply_households_sample_size (args : Args) (s : Settings)
  : Settings :=
  match households_sample_size args with
  | Some n => set_households_sample_size n s
  | None => s
  end.

(** [handle_standard_args(whale, args)] *)
Definition handle_standard_args (w : World) (whale : Whale) (args : Args)
  : M event Whale :=
  (if truthy_str (working_dir args)
   then emit (Chdir (default "" (working_dir args)))
   else ret tt) ;;!
  whale ←!
    (if truthy_list (ext args) then
       import_extensions w (default [] (ext args)) ;;!
       inject_arg "imported_extensions" (default [] (ext args)) whale
     else inject_arg "imported_extensions" [] whale);
  let whale := with_filesystem (w_parse_args w args) whale in
  raw ←! lift (w_read_settings w (filesystem whale));
  let whale :=
    if truthy_str raw.1
    then with_filesystem (set_cache_dir raw.1 (filesystem whale)) whale
    else whale in
  let whale := with_settings raw.2 whale in
  s ←! move_extra_settings (settings whale);
  let whale := with_settings s whale in
  whale ←!
    (if truthy_int (multiprocess args)
     then apply_multiprocess w (default 0 (multiprocess args)) whale
     else ret whale);
  let s := apply_chunk_size args (settings whale) in
  let s := apply_chunk_training_mode args s in
  let s := apply_households_sample_size args s in
  let whale := with_settings s whale in
  let whale :=
    if truthy_str (pipeline args)
    then with_filesystem
           (set_pipeline_file_name (default "" (pipeline args))
              (filesystem whale)) whale
    else whale in
  let whale :=
    if truthy_str (resume args)
    then with_settings (set_resume_after (resume args) (settings whale)) whale
    else whale in
  ret whale.

(** [cleanup_output_files(whale)] *)
Definition cleanup_output_files (w : World) (whale : Whale) : M event unit :=
  emit DeleteTraceFiles ;;!
  let csv_ignore :=
    if s_memory_profile (settings whale)
    then [w_log_file_path w "memory_profile.csv"]
    else [] in
  emit (DeleteOutputFiles "h5" []) ;;!
  emit (DeleteOutputFiles "csv" csv_ignore) ;;!
  emit (DeleteOutputFiles "txt" []) ;;!
  emit (DeleteOutputFiles "yaml" []) ;;!
  emit (DeleteOutputFiles "prof" []) ;;!
  emit (DeleteOutputFiles "omx" []).

(** [Whale()]: its file system and settings are assigned by
    [handle_standard_args] before anything reads them. *)
Definition new_whale : Whale :=
  {| context := [];
     filesystem := mkFileSystem [] None "" "";
     settings := mkSettings false None 0 "" 0 None [] false false false false
                   [] None [] |}.

(** Modelled from the spec: [tracing.print_elapsed_time(msg, t0)] is
    missing. It reads the clock, reports the time elapsed since [t0] and
    returns the reading. *)
Definition print_elapsed_time (w : World) (reading : nat)
    (msg : option string) (t0 : option Z) : M event Z :=
  let t1 := w_now w reading in
  emit (PrintElapsedTime msg (t1 - default t1 t0)) ;;!
  ret t1.

(** The steps that finished, then the exception that ended the
    simulation, if there was one. *)
Definition simulate (sim : Simulation) : M event unit :=
  (map StepDone (sim_steps sim),
   match sim_error sim with
   | Some e => Raised e
   | None => Ok tt
   end).

Definition log_setting_lines (keys : list string) : M event unit :=
  (map (fun k => LogInfo ("SETTING " +:+ k)) keys, Ok tt).

Definition log_env_lines (names : list string) : M event unit :=
  (map (fun k => LogInfo ("ENV " +:+ k)) names, Ok tt).

Definition np_info_keys : list string :=
  ["atlas_blas_info"; "atlas_blas_threads_info"; "atlas_info";
   "atlas_threads_info"; "blas_info"; "blas_mkl_info"; "blas_opt_info";
   "lapack_info"; "lapack_mkl_info"; "lapack_opt_info"; "mkl_info"].

Definition log_numpy_lines (w : World) : M event unit :=
  (flat_map (fun k =>
               match w_np_libraries w k with
               | Some libs => [LogInfo ("NUMPY " +:+ k +:+ " libraries: " +:+ libs)]
               | None => []
               end) np_info_keys, Ok tt).

(** Lines 283-386 of [run]: everything before the [try]. The result is
    the whale, whether a memory sidecar was started, and [t0]. *)
Definition startup (w : World) (args : Args) : M event (Whale * bool * Z) :=
  let whale := new_whale in
  (if negb (w_preload_injectables w) then emit ImportAbm else ret tt) ;;!
  emit (ConfigLogger true) ;;!
  whale ←! handle_standard_args w whale args;
  (if s_rotate_logs (settings whale) then emit RotateLogDirectory else ret tt) ;;!
  memory_sidecar_process ←!
    (if s_memory_profile (settings whale)
        && negb (s_multiprocess (settings whale))
     then emit (StartMemorySidecar (w_log_file_path w "memory_profile.csv")) ;;!
          ret true
     else ret false);
  let resume_after := s_resume_after (settings whale) in
  (if negb (truthy_str resume_after) then cleanup_output_files w whale
   else if s_cleanup_trace_files_on_resume (settings whale)
        then emit DeleteTraceFiles
        else ret tt) ;;!
  emit (ConfigLogger false) ;;!
  emit FilterWarnings ;;!
  emit CaptureWarnings ;;!
  log_setting_lines
    ["configs_dir"; "settings_file_name"; "data_dir"; "output_dir"] ;;!
  log_setting_lines (s_log_settings (settings whale)) ;;!
  log_env_lines ["MKL_NUM_THREADS"; "OMP_NUM_THREADS"; "OPENBLAS_NUM_THREADS";
                 "NUMBA_NUM_THREADS"] ;;!
  log_numpy_lines w ;;!
  t0 ←! print_elapsed_time w 0 None None;
  ret (whale, memory_sidecar_process, t0).

(** The body of the [try]. *)
Definition guarded (w : World) (whale : Whale) : M event unit :=
  if s_multiprocess (settings whale) then
    emit (LogInfo "run multiprocess simulation") ;;!
    simulate (w_run_multiprocess w (settings whale)) ;;!
    (if w_is_open w then raise (Raise AssertionError "") else ret tt) ;;!
    (if s_cleanup_pipeline_after_run (settings whale)
     then emit CleanupPipeline else ret tt)
  else
    emit (LogInfo "run single process simulation") ;;!
    simulate (w_whale_run w (s_models (settings whale))
                (s_resume_after (settings whale))) ;;!
    (if s_cleanup_pipeline_after_run (settings whale)
     then emit CleanupPipeline else emit ClosePipeline) ;;!
    emit LogGlobalHwm.

(** The [except Exception:] clause. *)
Definition on_error (w : World) (t0 : Z) : M event unit :=
  print_elapsed_time w 1 (Some "all models until this error") (Some t0) ;;!
  emit (LogException "activitysim run encountered an unrecoverable error").

(** [run(args)] *)
Definition run (w : World) (args : Args) : M event Z :=
  st ←! startup w args;
  let '(whale, memory_sidecar_process, t0) := st in
  try_except_reraise (guarded w whale) (on_error w t0) ;;!
  emit ChunkConsolidateLogs ;;!
  emit MemConsolidateLogs ;;!
  emit TimeLoggerAggregateSummary ;;!
  print_elapsed_time w 1 (Some "all models") (Some t0) ;;!
  (if memory_sidecar_process : bool then emit StopMemorySidecar else ret tt) ;;!
  ret 0.

(** [sys.exit(run(args))]: the status of the process. An exception that
    nothing catches ends the interpreter with status 1; what the
    interpreter makes of [SystemExit] and [KeyboardInterrupt] is not
    modelled. *)
Definition exit_status (r : outcome Z) : option Z :=
  match r with
  | Ok n => Some n
  | Raised e => if is_Exception e then Some 1 else None
  end.

(** *** Files on disk *)

(** Where a file lies: in the output directory itself, in its [log]
    subdirectory or in its [trace] subdirectory. The deletions look
    nowhere else, and at plain files only. *)
Inductive place := InOutput | InLog | InTrace.

#[global] Instance place_eq_dec : EqDecision place.
Proof. solve_decision. Defined.

Record File := mkFile {
  f_path : string;      (* the real path of the file *)
  f_place : place;
  f_name : string       (* its name in the listing of its directory *)
}.

#[global] Instance File_eq_dec : EqDecision File.
Proof. solve_decision. Defined.

(** [s.endswith(suffix)] *)
Definition endswith (s suffix : string) : bool :=
  (String.length suffix <=? String.length s)%nat
  && String.eqb (String.substring (String.length s - String.length suffix)
                   (String.length suffix) s)
                suffix.

(** Modelled from the spec: [tracing.delete_output_files] and
    [tracing.delete_trace_files] are not part of the files embedded here,
    and the specification has no sentence of its own on them; they are
    modelled after their names, their arguments at the call sites in
    [cleanup_output_files] and the layout of an output directory.
    [delete_output_files(whale, file_type, ignore, subdir)] goes through
    the output directory and its [log] and [trace] subdirectories, or
    through [subdir] alone, and removes the files whose name ends with
    [file_type], except those whose path is in [ignore]. *)
Definition removed_by (file_type : string) (ignore : list string)
    (subdir : option place) (f : File) : bool :=
  match subdir with
  | Some d => bool_decide (f_place f = d)
  | None => true
  end
  && endswith (f_name f) file_type
  && negb (bool_decide (f_path f ∈ ignore)).

Definition delete_output_files (file_type : string) (ignore : list string)
    (subdir : option place) (disk : list File) : list File :=
  filter (fun f => removed_by file_type ignore subdir f = false) disk.

(** Modelled from the spec: [delete_trace_files(whale)] removes the csv
    files of the [trace] and of the [log] subdirectory, and then the log
    files that no handler of the root logger writes to. *)
Definition delete_trace_files (active_log_files : list string)
    (disk : list File) : list File :=
  delete_output_files "log" active_log_files None
    (delete_output_files "csv" [] (Some InLog)
       (delete_output_files "csv" [] (Some InTrace) disk)).

(** What an event deletes; no other event of [run] removes a file. *)
Definition deletion (active_log_files : list string) (e : event)
    (disk : list File) : list File :=
  match e with
  | DeleteTraceFiles => delete_trace_files active_log_files disk
  | DeleteOutputFiles t ignore => delete_output_files t ignore None disk
  | _ => disk
  end.

Definition after_deletions (active_log_files : list string)
    (evs : list event) (disk : list File) : list File :=
  foldl (fun d e => deletion active_log_files e d) disk evs.

Definition output_types : list string :=
  ["h5"; "csv"; "txt"; "yaml"; "prof"; "omx"].

Definition is_deletion (e : event) : bool :=
  match e with
  | DeleteTraceFiles | DeleteOutputFiles _ _ => true
  | _ => false
  end.

Definition is_step (e : event) : bool :=
  match e with StepDone _ => true | _ => false end.

(** The consolidated end-of-run summaries. *)
Definition is_summary (e : event) : bool :=
  match e with
  | ChunkConsolidateLogs | MemConsolidateLogs | TimeLoggerAggregateSummary =>
      true
  | _ => false
  end.

End Run.

(** ** The traceable entity registry

    [activitysim/core/tracing.py] is exercised by
    [activitysim/core/test/test_tracing.py] but is not among the embedded
    files; the registry below follows the specification's data model
    (Trace Set) and the calls, messages and results of those tests. *)

Module Tracing.

Inductive event :=
| LogError (msg : string)
| LogWarning (msg : string)
| LogInfo (msg : string).

(** Modelled from the spec: [tracing.slice_ids] is missing. The rows of
    [df] whose value in [column] is among [ids]; with [column=None], the
    rows whose index label is among [ids]; a [RuntimeError] when the
    frame has no such column ([test_slice_ids]). *)
Definition slice_ids (df : DataFrame) (ids : list value)
    (column : option string) : outcome DataFrame :=
  match column with
  | None =>
      Ok {| df_index_name := df_index_name df;
            df_columns := df_columns df;
            df_rows := filter (fun r => r.1 ∈ ids) (df_rows df) |}
  | Some c =>
      match col_pos c (df_columns df) with
      | Some (i, _) =>
          Ok {| df_index_name := df_index_name df;
                df_columns := df_columns df;
                df_rows := filter (fun r => cell_at i r ∈ ids) (df_rows df) |}
      | None =>
          Raised (Raise RuntimeError
                    ("slice_ids slicer column '" +:+ c +:+ "' not in dataframe"))
      end
  end.

(** The registry: which datasets may be traced, the traced root id, the
    index name under which each registered dataset is known (in order of
    registration) and the Trace Set. A dataset without an entry in
    [traceable_table_ids] has the empty trace set. *)
Record Registry := mkRegistry {
  traceable_tables : list string;
  trace_hh_id : option value;
  traceable_table_indexes : list (string * string);
  traceable_table_ids : gmap string (list value)
}.

Definition traced_ids (reg : Registry) (table_name : string) : list value :=
  default [] (traceable_table_ids reg !! table_name).

(** [d.get(k)] on a dict kept in insertion order. *)
Fixpoint dict_get {A} (d : list (string * A)) (k : string) : option A :=
  match d with
  | [] => None
  | (k', v) :: d' => if String.eqb k' k then Some v else dict_get d' k
  end.

(** The first registered index name that is a column of the frame. *)
Fixpoint find_ref_col (indexes : list (string * string)) (df : DataFrame)
  : option (string * string) :=
  match indexes with
  | [] => None
  | (c, t) :: indexes' =>
      if has_column df c then Some (c, t) else find_ref_col indexes' df
  end.

Definition with_indexes (ix : list (string * string)) (reg : Registry)
  : Registry :=
  {| traceable_tables := traceable_tables reg;
     trace_hh_id := trace_hh_id reg;
     traceable_table_indexes := ix;
     traceable_table_ids := traceable_table_ids reg |}.

Definition with_ids (ids : gmap string (list value)) (reg : Registry)
  : Registry :=
  {| traceable_tables := traceable_tables reg;
     trace_hh_id := trace_hh_id reg;
     traceable_table_indexes := traceable_table_indexes reg;
     traceable_table_ids := ids |}.

Definition record_index (idx_name table_name : string) (reg : Registry)
  : Registry :=
  match dict_get (traceable_table_indexes reg) idx_name with
  | Some _ => reg
  | None =>
      with_indexes (traceable_table_indexes reg ++ [(idx_name, table_name)]) reg
  end.

(** The ids recorded for a dataset are extended by the new ones. *)
Definition extend_ids (table_name : string) (new_traced_ids : list value)
    (reg : Registry) : Registry :=
  match new_traced_ids with
  | [] => reg
  | _ =>
      with_ids (<[table_name := traced_ids reg table_name ++ new_traced_ids]>
                  (traceable_table_ids reg)) reg
  end.

Definition no_rows_message (table_name ref_col : string)
    (ref_col_traced_ids : list value) : string :=
  "register " +:+ table_name +:+ ": no rows with " +:+ ref_col +:+ " in ["
    +:+ String.concat ", " (map str ref_col_traced_ids) +:+ "]".

(** The new traced ids of a dataset that is registered under its index
    name. The root dataset [households] is traced at [trace_hh_id] when
    that id is in its index; any other dataset is sliced by the first
    column that names the index of a registered dataset, against the ids
    traced there. A dataset for which nothing is found to trace gets a
    diagnostic. *)
Definition trace_new_ids (reg : Registry) (table_name idx_name : string)
    (df : DataFrame) : M event Registry :=
  match trace_hh_id reg with
  | None => ret reg
  | Some hh_id =>
      if String.eqb table_name "households" then
        if bool_decide (hh_id ∈ (df_rows df).*1) then
          ret (extend_ids table_name [hh_id] reg)
        else
          emit (LogWarning ("trace_hh_id " +:+ str hh_id
                              +:+ " not in dataframe")) ;;!
          ret reg
      else
        match find_ref_col (traceable_table_indexes reg) df with
        | None =>
            emit (LogError
                    ("can't find a registered table to slice table '"
                       +:+ table_name +:+ "' index name '"
                       +:+ idx_name +:+ "'")) ;;!
            ret reg
        | Some (ref_col, ref_col_table_name) =>
            let ref_col_traced_ids := traced_ids reg ref_col_table_name in
            traced_df ←! lift (slice_ids df ref_col_traced_ids (Some ref_col));
            let new_traced_ids := (df_rows traced_df).*1 in
            (if bool_decide (new_traced_ids = []) then
               emit (LogWarning (no_rows_message table_name ref_col
                                   ref_col_traced_ids))
             else ret tt) ;;!
            ret (extend_ids table_name new_traced_ids reg)
        end
  end.

(** Modelled from the spec: [register_traceable_table] is missing. A
    dataset that may be traced is registered under the name of its index
    and its new traced ids are recorded. A registration that cannot
    proceed logs why and returns
    ([test_register_households], [test_register_tours]). *)
Definition register_traceable_table (reg : Registry) (table_name : string)
    (df : DataFrame) : M event Registry :=
  if negb (bool_decide (table_name ∈ traceable_tables reg)) then
    emit (LogError ("table '" +:+ table_name +:+ "' not in traceable_tables")) ;;!
    ret reg
  else
    match df_index_name df with
    | None =>
        emit (LogError ("Can't register table '" +:+ table_name
                          +:+ "' without index name")) ;;!
        ret reg
    | Some idx_name =>
        trace_new_ids (record_index idx_name table_name reg) table_name
          idx_name df
    end.

End Tracing.

(** ** The adaptive chunk planner

    The planner of the specification (section 4.3); [activitysim/core/chunk.py]
    is only called from [run.py] ([chunk.consolidate_logs]). *)

Module Chunk.

Local Open Scope nat_scope.

Inductive mode := training | adaptive | production | disabled.

(** The [ChunkPlanError]s: an invalid plan or a missing one. *)
Inductive ChunkPlanError :=
| InvalidChunkPlanError
| MissingTrainedPlanError.

(** A plan: the training mode, the rows per chunk it aims at, and the
    rows of every chunk in chunk order; their number is the number of
    chunks. *)
Record ChunkPlan := mkChunkPlan {
  cp_mode : mode;
  cp_rows_per_chunk : nat;
  cp_chunks : list nat
}.

Definition num_chunks (p : ChunkPlan) : nat := length (cp_chunks p).

Inductive result :=
| Plan (p : ChunkPlan)
| Error (e : ChunkPlanError).

(** What the planner is configured with and what its caches hold. *)
Record Planner := mkPlanner {
  memory_ceiling : nat;
  min_chunk_size : nat;
  probe_rows : nat;                 (* the small probe chunk of training *)
  observed_row_cost : nat;          (* per-row memory that training measures *)
  default_row_cost : nat;           (* conservative default of adaptive *)
  safe_default_rows : nat;          (* fixed safe default of production *)
  strict_production : bool;
  (* size-estimate cache: trained per-row cost *)
  cached_row_cost : string -> string -> nat -> option nat;
  (* cached plan: the number of chunks to use *)
  cached_num_chunks : string -> string -> option nat
}.

(** Chunks of [rows_per_chunk] rows until nothing remains; the last one
    may be smaller. *)
Fixpoint chunks_of (fuel remaining rows_per_chunk : nat) : list nat :=
  match fuel with
  | O => []
  | S fuel' =>
      if remaining =? 0 then []
      else
        let c := Nat.min rows_per_chunk remaining in
        c :: chunks_of fuel' (remaining - c) rows_per_chunk
  end.

(** A requested number of chunks: that many chunks of
    [ceil(rows / count)] rows, as long as rows remain. *)
Fixpoint take_chunks (count remaining rows_per_chunk : nat) : list nat :=
  match count with
  | O => []
  | S count' =>
      let c := Nat.min rows_per_chunk remaining in
      c :: take_chunks count' (remaining - c) rows_per_chunk
  end.

Definition ceil_div (a b : nat) : nat := (a + b - 1) / b.

(** Training: a probe chunk, then chunks that double while the measured
    cost of the doubled chunk stays under the ceiling. *)
Fixpoint grow_chunks (pl : Planner) (fuel remaining size : nat) : list nat :=
  match fuel with
  | O => []
  | S fuel' =>
      if remaining =? 0 then []
      else
        let c := Nat.min size remaining in
        let next :=
          if 2 * size * observed_row_cost pl <=? memory_ceiling pl
          then 2 * size else size in
        c :: grow_chunks pl fuel' (remaining - c) next
  end.

(** A plan with an empty chunk, or with no chunk at all, is rejected. *)
Definition validate (m : mode) (rows_per_chunk : nat) (chunks : list nat)
  : result :=
  match chunks with
  | [] => Error InvalidChunkPlanError
  | _ =>
      if forallb (fun c => 0 <? c) chunks
      then Plan {| cp_mode := m; cp_rows_per_chunk := rows_per_chunk;
                   cp_chunks := chunks |}
      else Error InvalidChunkPlanError
  end.

(** The plan for a requested number of chunks. *)
Definition plan_with_count (row_count count : nat) (m : mode) : result :=
  let rows_per_chunk := ceil_div row_count count in
  validate m rows_per_chunk (take_chunks count row_count rows_per_chunk).

(** Modelled from the spec: [plan(step_name, dataset_name, row_count,
    mode)] of the Adaptive Chunk Planner is missing. No rows: an error. Fewer
    rows than the minimum chunk size: one chunk. Otherwise by mode:
    [disabled] one chunk spanning all rows; [adaptive]
    [max(1, floor(memory_ceiling / per_row_cost))] rows per chunk, with
    the cached cost or the conservative default; [production] the cached
    plan as it is, and without one [MissingTrainedPlanError] under the
    strict flag and the fixed safe default otherwise; [training] a probe
    chunk and geometric growth. *)
Definition plan (pl : Planner) (step_name dataset_name : string)
    (row_count : nat) (m : mode) : result :=
  if row_count =? 0 then Error InvalidChunkPlanError
  else if row_count <? min_chunk_size pl then validate m row_count [row_count]
  else
    match m with
    | disabled => validate m row_count [row_count]
    | adaptive =>
        let per_row_cost :=
          default (default_row_cost pl)
                  (cached_row_cost pl step_name dataset_name row_count) in
        let rows_per_chunk := Nat.max 1 (memory_ceiling pl / per_row_cost) in
        validate m rows_per_chunk (chunks_of row_count row_count rows_per_chunk)
    | production =>
        match cached_num_chunks pl step_name dataset_name with
        | Some count => plan_with_count row_count count m
        | None =>
            if strict_production pl then Error MissingTrainedPlanError
            else validate m (safe_default_rows pl)
                   (chunks_of row_count row_count (safe_default_rows pl))
        end
    | training =>
        validate m (probe_rows pl)
          (grow_chunks pl row_count row_count (probe_rows pl))
    end.

End Chunk.

(** * Properties *)

(** ** Sequencing and frames *)

Module Facts.

Lemma bind_lift_ok {E A B} (a : A) (f : A -> M E B) : bind (lift (Ok a)) f = f a.
Proof. unfold bind, lift. by destruct (f a). Qed.

Lemma bind_lift_raised {E A B} (e : exn) (f : A -> M E B) :
  bind (lift (Raised e)) f = ([], Raised e).
Proof. done. Qed.

Lemma bind_emit {E B} (e : E) (f : unit -> M E B) :
  bind (emit e) f = (e :: (f tt).1, (f tt).2).
Proof. unfold bind, emit. by destruct (f tt). Qed.

Lemma bind_ok {E A B} (m : M E A) (f : A -> M E B) es a :
  m = (es, Ok a) -> bind m f = (es ++ (f a).1, (f a).2).
Proof. intros ->. unfold bind. by destruct (f a). Qed.

Lemma bind_eq {E A B} (m : M E A) (f : A -> M E B) es a es' r :
  m = (es, Ok a) -> f a = (es', r) -> bind m f = (es ++ es', r).
Proof. intros -> H. unfold bind. by rewrite H. Qed.

Lemma bind_raised {E A B} (m : M E A) (f : A -> M E B) es e :
  m = (es, Raised e) -> bind m f = (es, Raised e).
Proof. by intros ->. Qed.



Lemma col_positions_from_nil k name cols :
  col_positions_from k name cols = [] <-> name ∉ cols.*1.
Proof.
  revert k. induction cols as [|[c t] cols IH]; intros k; simpl.
  - split; [intros _ H; inversion H | done].
  - rewrite not_elem_of_cons. destruct (String.eqb_spec c name) as [->|Hne].
    + split; [done | by intros [? _]].
    + rewrite IH. split; [by intros ? | by intros [_ ?]].
Qed.

Lemma has_column_col_positions df name :
  has_column df name = true <-> col_positions name (df_columns df) <> [].
Proof.
  unfold has_column, column_names, col_positions.
  rewrite bool_decide_eq_true, col_positions_from_nil.
  split; [by intros ? ? | apply dec_stable].
Qed.

End Facts.

(** ** trips.py *)

Module TripsProps.
Import Trips Facts.

Lemma mask_rows_filter {A} (f : A -> value) (rows : list A) :
  mask_rows rows (map f rows) = filter (fun r => truthy (f r) = true) rows.
Proof.
  induction rows as [|r rows IH]; simpl; [done|].
  rewrite filter_cons. destruct (truthy (f r)) eqn:E.
  - rewrite decide_True by done. by rewrite IH.
  - rewrite decide_False by discriminate. done.
Qed.

Lemma bad_trips_mask trips i :
  col_positions "bad" (df_columns trips) = [(i, DBool)] ->
  bad_trips trips
  = Ok {| df_index_name := df_index_name trips;
          df_columns := df_columns trips;
          df_rows := filter (fun r => truthy (cell_at i r) = true)
                            (df_rows trips) |}.
Proof.
  intros Hpos. unfold bad_trips, to_frame.
  assert (has_column trips "bad" = true) as ->
    by (apply has_column_col_positions; by rewrite Hpos).
  unfold getattr_col. rewrite Hpos. simpl.
  unfold getitem_series, classify_indexer. simpl. do 2 f_equal.
  rewrite <- (mask_rows_filter (cell_at i)). f_equal.
  by rewrite <- list_fmap_compose.
Qed.




Definition sample_trips : DataFrame :=
  {| df_index_name := Some "trip_id";
     df_columns := [("tour_id", DInt); ("bad", DBool)];
     df_rows := [(VInt 1, [VInt 10; VBool true]);
                 (VInt 2, [VInt 10; VBool false]);
                 (VInt 3, [VInt 11; VBool true])] |}.



End TripsProps.

(** ** composite_log.py *)

Module CompositeLogProps.
Import CompositeLog Facts.

Lemma drop_duplicated_from_labels {A} (seen : list value)
    (items : list (value * A)) :
  NoDup ((drop_duplicated_from seen items).*1)
  /\ (forall k, k ∈ (drop_duplicated_from seen items).*1 ->
        (k ∉ seen) /\ k ∈ items.*1).
Proof.
  revert seen. induction items as [|[k v] items IH]; intros seen; simpl.
  - split; [constructor | intros k H; inversion H].
  - case_bool_decide as Hk.
    + destruct (IH seen) as [Hnd Hin]. split; [done|].
      intros k' Hk'. destruct (Hin k' Hk'). split; [done | by right].
    + destruct (IH (k :: seen)) as [Hnd Hin]. split.
      * simpl. constructor; [|done].
        intros Hk'. destruct (Hin k Hk') as [Hn _]. apply Hn. by left.
      * simpl. intros k' Hk'. apply elem_of_cons in Hk' as [->|Hk'].
        -- split; [done | by left].
        -- destruct (Hin k' Hk') as [Hn ?]. split; [|by right].
           intros ?. apply Hn. by right.
Qed.

Lemma drop_duplicated_from_assoc {A} (seen : list value)
    (items : list (value * A)) (k : value) :
  assoc k (drop_duplicated_from seen items)
  = if bool_decide (k ∈ seen) then None else assoc k items.
Proof.
  revert seen. induction items as [|[k' v] items IH]; intros seen; simpl.
  - by case_bool_decide.
  - case_bool_decide as Hk'.
    + rewrite IH. destruct (decide (k ∈ seen)) as [Hk|Hk].
      * by rewrite bool_decide_eq_true_2.
      * rewrite bool_decide_eq_false_2 by done.
        destruct (decide (k' = k)) as [->|]; done.
    + simpl. destruct (decide (k' = k)) as [->|Hne].
      * by rewrite bool_decide_eq_false_2.
      * rewrite IH.
        destruct (decide (k ∈ seen)) as [Hin|Hin].
        -- rewrite !bool_decide_eq_true_2; [done | done | by right].
        -- rewrite !bool_decide_eq_false_2; [done | done |].
           intros [?|?]%elem_of_cons; congruence.
Qed.

Lemma drop_duplicated_from_id {A} (seen : list value)
    (items : list (value * A)) :
  NoDup items.*1 -> (forall k, k ∈ items.*1 -> k ∉ seen) ->
  drop_duplicated_from seen items = items.
Proof.
  revert seen. induction items as [|[k v] items IH]; intros seen Hnd Hs; simpl.
  - done.
  - simpl in Hnd. apply NoDup_cons in Hnd as [Hk Hnd].
    rewrite bool_decide_eq_false_2 by (apply Hs; simpl; by left).
    f_equal. apply IH; [done|].
    intros k' Hk' Hin. apply elem_of_cons in Hin as [->|Hin]; [done|].
    apply (Hs k'); [simpl; by right | done].
Qed.

Lemma drop_duplicated_NoDup {A} (items : list (value * A)) :
  NoDup ((drop_duplicated items).*1).
Proof. apply drop_duplicated_from_labels. Qed.

Lemma drop_duplicated_first {A} (items : list (value * A)) (k : value) :
  assoc k (drop_duplicated items) = assoc k items.
Proof.
  unfold drop_duplicated. rewrite drop_duplicated_from_assoc.
  rewrite bool_decide_eq_false_2; [done | apply not_elem_of_nil].
Qed.

Lemma unique_labels_NoDup (ls : list value) : NoDup (unique_labels ls).
Proof. apply drop_duplicated_NoDup. Qed.

Lemma nodupb_true (ls : list value) : NoDup ls -> nodupb ls = true.
Proof.
  intros Hnd. unfold nodupb, unique_labels, drop_duplicated.
  apply bool_decide_eq_true.
  rewrite drop_duplicated_from_id.
  - rewrite <- list_fmap_compose. simpl. apply list_fmap_id.
  - rewrite <- list_fmap_compose. simpl. by rewrite list_fmap_id.
  - intros k _. apply not_elem_of_nil.
Qed.

Lemma elem_of_dict_set {A} (d : list (string * A)) k v kv :
  kv ∈ dict_set d k v -> kv ∈ d \/ kv = (k, v).
Proof.
  induction d as [|[k' v'] d IH]; simpl.
  - intros ->%list_elem_of_singleton. by right.
  - destruct (String.eqb k' k).
    + intros [->|?]%elem_of_cons; [by right | left; by right].
    + intros [->|H]%elem_of_cons; [left; by left|].
      destruct (IH H) as [?|?]; [left; by right | by right].
Qed.

Lemma dict_set_not_nil {A} (d : list (string * A)) k v : dict_set d k v <> [].
Proof. destruct d as [|[k' v'] d]; simpl; [done|]. by destruct (String.eqb k' k). Qed.

Section Load.
Context (files : gmap string (outcome DataFrame)).
Context (path : string -> string) (block : DataFrame -> outcome Block).

Lemma load_absent compares acc :
  (forall t, t ∈ compares -> files !! path t = None) ->
  load files path block compares acc = Ok acc.
Proof.
  revert acc. induction compares as [|t compares IH]; intros acc H; simpl.
  - done.
  - rewrite (H t) by (by left). apply IH. intros t' ?. apply H. by right.
Qed.

Lemma load_blocks (P : string -> Block -> Prop) compares :
  (forall t df b, t ∈ compares -> files !! path t = Some (Ok df) ->
                  block df = Ok b -> P t b) ->
  forall acc res,
    (forall t b, (t, b) ∈ acc -> P t b) ->
    load files path block compares acc = Ok res ->
    forall t b, (t, b) ∈ res -> P t b.
Proof.
  induction compares as [|t compares IH]; intros HP acc res Hacc; simpl.
  - intros [= <-]. done.
  - destruct (files !! path t) as [[df|e]|] eqn:Hf; simpl; [| done |].
    + destruct (block df) as [b|e] eqn:Hb; simpl; [|done].
      apply IH.
      * intros t' df' b' ?. apply HP. by right.
      * intros t' b' [?|[= -> ->]]%elem_of_dict_set; [by apply Hacc|].
        apply (HP t df b); [by left | done | done].
    + apply IH; [|done]. intros t' df' b' ?. apply HP. by right.
Qed.

Lemma load_nil compares acc :
  load files path block compares acc = Ok [] ->
  acc = [] /\ forall t, t ∈ compares -> files !! path t = None.
Proof.
  revert acc. induction compares as [|t compares IH]; intros acc; simpl.
  - intros [= ->]. split; [done|]. intros t H. inversion H.
  - destruct (files !! path t) as [[df|e]|] eqn:Hf; simpl; [| done |].
    + destruct (block df) as [b|e] eqn:Hb; simpl; [|done].
      intros [Hd _]%IH. by apply dict_set_not_nil in Hd.
    + intros [-> H]%IH. split; [done|].
      intros t' [->|?]%elem_of_cons; [done | by apply H].
Qed.

End Load.

Lemma comp_index_concat blocks c :
  (forall t b, (t, b) ∈ blocks -> NoDup (block_labels b)) ->
  concat blocks = Ok c ->
  NoDup (comp_index c).
Proof.
  intros Hnd. unfold concat.
  assert (forallb nodupb (map (fun tb => block_labels tb.2) blocks) = true) as ->.
  { apply forallb_forall. intros ls [[t b] [<- Hin]]%in_map_iff.
    apply nodupb_true, (Hnd t). by apply list_elem_of_In. }
  intros [= <-]. unfold comp_index. simpl.
  rewrite <- list_fmap_compose. simpl. rewrite list_fmap_id.
  apply unique_labels_NoDup.
Qed.

Lemma concat_ok blocks :
  (forall t b, (t, b) ∈ blocks -> NoDup (block_labels b)) ->
  exists c, concat blocks = Ok c.
Proof.
  intros Hnd. unfold concat.
  assert (forallb nodupb (map (fun tb => block_labels tb.2) blocks) = true) as ->.
  { apply forallb_forall. intros ls [[t b] [<- Hin]]%in_map_iff.
    apply nodupb_true, (Hnd t). by apply list_elem_of_In. }
  eauto.
Qed.

Lemma assert_key_ok (context : gmap string value) key v :
  context !! key = Some v -> v <> VNone ->
  assert_key_has_value context key = Ok tt.
Proof. intros H Hv. unfold assert_key_has_value. rewrite H. by destruct v. Qed.

Lemma get_formatted_ok (context : gmap string value) key v :
  context !! key = Some v -> get_formatted context key = Ok v.
Proof. intros H. unfold get_formatted. by rewrite H. Qed.

(** The rows of a log as the step takes them from the frame that
    [pd.read_csv] returned: the cell of the column [index] as the label,
    and the cells of the columns [cols], in that order, as the values. *)
Definition log_rows (index : string) (cols : list string) (df : DataFrame)
    (all_rows : list (value * list value)) : Prop :=
  exists i ti js,
    col_pos index (df_columns df) = Some (i, ti)
    /\ Forall2 (fun c j => exists t, col_pos c (df_columns df) = Some (j, t))
         cols js
    /\ all_rows
       = map (fun r => (cell_at i r, map (fun j => cell_at j r) js))
             (df_rows df).

(** Where a column is found once another column has been taken out. *)
Lemma col_pos_delete name other cols i ti j' t :
  col_pos other cols = Some (i, ti) -> name <> other ->
  col_pos name (delete i cols) = Some (j', t) ->
  exists j, col_pos name cols = Some (j, t)
            /\ forall l : list value, delete i l !! j' = l !! j.
Proof.
  revert i j'. induction cols as [|[c tc] cols IH]; intros i j'; [done|].
  simpl. destruct (String.eqb_spec c other) as [->|Hco].
  - intros [= <- <-] Hne. simpl. intros Hpos.
    destruct (String.eqb_spec other name) as [->|_]; [done|].
    rewrite Hpos. exists (S j'). split; [done|]. by intros [|x l].
  - destruct (col_pos other cols) as [[i' ti']|] eqn:Hother; [|done].
    intros [= <- <-] Hne. simpl.
    destruct (String.eqb_spec c name) as [->|Hcn].
    + intros [= <- <-]. exists 0%nat. split; [done|]. by intros [|x l].
    + destruct (col_pos name (delete i' cols)) as [[j'' t'']|] eqn:Hdel;
        [|done].
      intros [= <- <-].
      destruct (IH i' j'' eq_refl Hne Hdel) as (j & Hj & Hl).
      rewrite Hj. exists (S j). split; [done|].
      intros [|x l]; [done|]. simpl. apply Hl.
Qed.

Lemma cell_at_set_index i j j' (r : value * list value) :
  (forall l : list value, delete i l !! j' = l !! j) ->
  cell_at j' (cell_at i r, delete i r.2) = cell_at j r.
Proof. intros H. unfold cell_at. simpl. by rewrite H. Qed.

Lemma timing_rows_log_rows df all_rows :
  timing_rows df = Ok all_rows ->
  log_rows "model_name" ["seconds"] df all_rows.
Proof.
  unfold timing_rows, set_index.
  destruct (col_pos "model_name" (df_columns df)) as [[i ti]|] eqn:Hi;
    [|done].
  simpl. unfold getitem_col. simpl.
  destruct (col_pos "seconds" (delete i (df_columns df))) as [[j' tj]|] eqn:Hj;
    [|done].
  simpl. intros [= <-].
  destruct (col_pos_delete "seconds" "model_name" _ i ti j' tj Hi) as (j & Hpos & Hl);
    [done | done |].
  exists i, ti, [j]. split; [done|]. split.
  - constructor; [eauto | constructor].
  - rewrite <- !list_fmap_compose. apply list_fmap_ext. intros k r _. simpl.
    by rewrite (cell_at_set_index i j j' r Hl).
Qed.

Lemma positions_delete names other cols i ti ps :
  col_pos other cols = Some (i, ti) -> other ∉ names ->
  positions names (delete i cols) = Ok ps ->
  exists js,
    Forall2 (fun c j => exists t, col_pos c cols = Some (j, t)) names js
    /\ forall r : value * list value,
         map (fun p => cell_at p (cell_at i r, delete i r.2)) ps
         = map (fun j => cell_at j r) js.
Proof.
  intros Hother. revert ps.
  induction names as [|c names IH]; intros ps Hnot; simpl.
  - intros [= <-]. exists []. split; [constructor | done].
  - apply not_elem_of_cons in Hnot as [Hne Hnot].
    destruct (col_pos c (delete i cols)) as [[j' t]|] eqn:Hc; [|done].
    destruct (positions names (delete i cols)) as [rest|e] eqn:Hrest;
      [|done].
    simpl. intros [= <-].
    destruct (col_pos_delete c other cols i ti j' t Hother) as (j & Hj & Hl);
      [congruence | done |].
    destruct (IH rest Hnot eq_refl) as (js & Hjs & Hcells).
    exists (j :: js). split; [constructor; eauto|].
    intros r. simpl. by rewrite (cell_at_set_index i j j' r Hl), Hcells.
Qed.

Lemma mem_rows_log_rows df all_rows :
  mem_rows df = Ok all_rows ->
  log_rows "event" ["rss"; "full_rss"; "uss"] df all_rows.
Proof.
  unfold mem_rows, set_index.
  destruct (col_pos "event" (df_columns df)) as [[i ti]|] eqn:Hi; [|done].
  simpl. unfold getitem_cols.
  cbn [df_columns df_rows].
  destruct (positions ["rss"; "full_rss"; "uss"] (delete i (df_columns df)))
    as [ps|e] eqn:Hps; [|done].
  cbn [obind]. intros [= <-].
  destruct (positions_delete ["rss"; "full_rss"; "uss"] "event" _ i ti ps Hi)
    as (js & Hjs & Hcells);
    [by apply (bool_decide_unpack _); vm_compute | done |].
  exists i, ti, js. split; [done|]. split; [done|].
  rewrite <- list_fmap_compose. apply list_fmap_ext. intros k r _. simpl.
  by rewrite Hcells.
Qed.

(** What one of the two combined files is made of: nothing is written, or
    one file is written whose index has no repeated label and whose blocks
    each stem from an input log of a selected mode that exists: the labels
    of a block are not repeated, and its row for a label is the first row
    of the log with that label in the column [index], holding the cells of
    the columns [cols]. *)
Definition written (files : gmap string (outcome DataFrame))
    (compares : list string) (path : string -> string)
    (index : string) (cols : list string)
    (out : string) (w : list event) : Prop :=
  w = [] \/
  exists blocks c,
    w = [ToCsv out c] /\ concat blocks = Ok c /\ NoDup (comp_index c)
    /\ blocks <> []
    /\ forall t b, (t, b) ∈ blocks ->
         t ∈ compares
         /\ exists df all_rows,
              files !! path t = Some (Ok df) /\ log_rows index cols df all_rows
              /\ NoDup (block_labels b)
              /\ forall k, assoc k (b_rows b) = assoc k all_rows.

Definition some_input (files : gmap string (outcome DataFrame))
    (compares : list string) (path : string -> string) : Prop :=
  exists t, t ∈ compares /\ is_Some (files !! path t).

Lemma written_some_input files compares path index cols out w :
  written files compares path index cols out w -> w <> [] ->
  some_input files compares path.
Proof.
  intros [->|(blocks & c & -> & _ & _ & Hne & Hb)] Hw; [done|].
  destruct blocks as [|[t b] blocks]; [done|].
  destruct (Hb t b) as (Ht & df & all_rows & Hf & _); [by left|].
  exists t. split; [done|]. rewrite Hf. eauto.
Qed.

Lemma write_combined_written files compares path block index cols out loaded :
  (forall df b, block df = Ok b ->
     exists all_rows, log_rows index cols df all_rows
                      /\ b_rows b = drop_duplicated all_rows) ->
  load files path block compares [] = Ok loaded ->
  exists w, write_combined loaded out = (w, Ok tt)
            /\ written files compares path index cols out w
            /\ (some_input files compares path -> w <> []).
Proof.
  intros Hblock Hload.
  assert (forall t b, (t, b) ∈ loaded ->
            t ∈ compares
            /\ exists df all_rows,
                 files !! path t = Some (Ok df)
                 /\ log_rows index cols df all_rows
                 /\ NoDup (block_labels b)
                 /\ forall k, assoc k (b_rows b) = assoc k all_rows) as Hinv.
  { eapply load_blocks; [| |exact Hload].
    - intros t df b Ht Hf Hb. split; [done|].
      destruct (Hblock df b Hb) as (all_rows & Hr & Hbr).
      exists df, all_rows. split; [done|]. split; [done|]. split.
      + unfold block_labels. rewrite Hbr. apply drop_duplicated_NoDup.
      + intros k. rewrite Hbr. apply drop_duplicated_first.
    - intros t b H. inversion H. }
  destruct loaded as [|tb loaded].
  - exists []. split; [done|]. split; [by left|].
    apply load_nil in Hload as [_ Hnone].
    intros (t & Ht & Hs). rewrite (Hnone t Ht) in Hs. by destruct Hs.
  - destruct (concat_ok (tb :: loaded)) as [c Hc].
    { intros t b Hin. by destruct (Hinv t b Hin) as (_ & _ & _ & _ & _ & ? & _). }
    exists [ToCsv out c]. split; [|split; [|done]].
    + unfold write_combined. rewrite Hc. done.
    + right. exists (tb :: loaded), c.
      split; [done|]. split; [done|]. split.
      { eapply comp_index_concat; [|exact Hc].
        intros t b Hin.
        by destruct (Hinv t b Hin) as (_ & _ & _ & _ & _ & ? & _). }
      split; [done|]. exact Hinv.
Qed.

Lemma timing_block_rows df b :
  timing_block df = Ok b ->
  exists all_rows, timing_rows df = Ok all_rows
                   /\ b_rows b = drop_duplicated all_rows.
Proof.
  unfold timing_block. destruct (timing_rows df) as [rows|e]; simpl; [|done].
  intros [= <-]. eauto.
Qed.

Lemma mem_block_rows df b :
  mem_block df = Ok b ->
  exists all_rows, mem_rows df = Ok all_rows
                   /\ b_rows b = drop_duplicated all_rows.
Proof.
  unfold mem_block. destruct (mem_rows df) as [rows|e]; simpl; [|done].
  intros [= <-]. eauto.
Qed.

Lemma timing_block_log df b :
  timing_block df = Ok b ->
  exists all_rows, log_rows "model_name" ["seconds"] df all_rows
                   /\ b_rows b = drop_duplicated all_rows.
Proof.
  intros (all_rows & Hr & Hb)%timing_block_rows.
  exists all_rows. split; [by apply timing_rows_log_rows | done].
Qed.

Lemma mem_block_log df b :
  mem_block df = Ok b ->
  exists all_rows, log_rows "event" ["rss"; "full_rss"; "uss"] df all_rows
                   /\ b_rows b = drop_duplicated all_rows.
Proof.
  intros (all_rows & Hr & Hb)%mem_block_rows.
  exists all_rows. split; [by apply mem_rows_log_rows | done].
Qed.

(** C10. With the four keys present in the context, [run_step] emits, after
    the progress reset, at most one combined timing file and then at most
    one combined memory file. Each file written has an index without
    repeated labels, and each of its blocks is the input log of a selected
    mode with repeated labels dropped, the first row of a label kept: for
    the timing log the label is the [model_name] and the row holds the
    [seconds], for the memory log the label is the [event] and the row
    holds [rss], [full_rss] and [uss]. A
    file is written only when an input log of a selected mode exists, it is
    written whenever one exists and the step does not raise, and with no
    input log at all the step writes nothing and returns. *)
Theorem run_step_writes (context : gmap string value)
    (files : gmap string (outcome DataFrame))
    (sharrow legacy tag archive_dir : value) :
  context !! "sharrow" = Some sharrow -> sharrow <> VNone ->
  context !! "legacy" = Some legacy -> legacy <> VNone ->
  context !! "tag" = Some tag -> tag <> VNone ->
  context !! "archive_dir" = Some archive_dir -> archive_dir <> VNone ->
  let compares := selected_compares sharrow legacy in
  let dir := str archive_dir in
  exists tw mw r,
    run_step context files
      = (ResetProgress "composite timing and memory logs" :: tw ++ mw, r)
    /\ written files compares (timing_log dir) "model_name" ["seconds"]
         (combined_timing_log dir (str tag)) tw
    /\ written files compares (mem_log dir) "event" ["rss"; "full_rss"; "uss"]
         (combined_mem_log dir (str tag)) mw
    /\ (tw <> [] -> some_input files compares (timing_log dir))
    /\ (mw <> [] -> some_input files compares (mem_log dir))
    /\ (r = Ok tt ->
          (some_input files compares (timing_log dir) -> tw <> [])
          /\ (some_input files compares (mem_log dir) -> mw <> []))
    /\ ((forall t, t ∈ compares ->
           files !! timing_log dir t = None /\ files !! mem_log dir t = None) ->
        tw = [] /\ mw = [] /\ r = Ok tt).
Proof.
  intros Hs Hs' Hl Hl' Ht Ht' Ha Ha' compares dir.
  unfold run_step.
  rewrite bind_emit.
  rewrite (assert_key_ok _ _ _ Hs Hs'), (assert_key_ok _ _ _ Hl Hl'),
    (assert_key_ok _ _ _ Ht Ht'), (assert_key_ok _ _ _ Ha Ha').
  rewrite !bind_lift_ok.
  rewrite (get_formatted_ok _ _ _ Hs), (get_formatted_ok _ _ _ Hl),
    (get_formatted_ok _ _ _ Ht), (get_formatted_ok _ _ _ Ha).
  rewrite !bind_lift_ok.
  fold compares. fold dir.
  assert (forall tw mw,
            written files compares (timing_log dir) "model_name" ["seconds"]
              (combined_timing_log dir (str tag)) tw ->
            written files compares (mem_log dir) "event"
              ["rss"; "full_rss"; "uss"]
              (combined_mem_log dir (str tag)) mw ->
            (tw <> [] -> some_input files compares (timing_log dir))
            /\ (mw <> [] -> some_input files compares (mem_log dir))) as Hwr.
  { intros tw mw Htw Hmw. split; by eapply written_some_input. }
  assert (forall path,
            (forall t, t ∈ compares -> files !! path t = None) ->
            ~ some_input files compares path) as Hno.
  { intros path Hnone (t & Hin & Hsome). rewrite (Hnone t Hin) in Hsome.
    by destruct Hsome. }
  destruct (load files (timing_log dir) timing_block compares []) as [timings|e]
    eqn:Hlt.
  - rewrite bind_lift_ok.
    destruct (write_combined_written files compares (timing_log dir) timing_block
                "model_name" ["seconds"]
                (combined_timing_log dir (str tag)) timings
                timing_block_log Hlt) as (tw & Hw & Hwt & Htw).
    rewrite Hw. unfold bind at 1.
    destruct (load files (mem_log dir) mem_block compares []) as [mems|e] eqn:Hlm.
    + rewrite bind_lift_ok.
      destruct (write_combined_written files compares (mem_log dir) mem_block
                  "event" ["rss"; "full_rss"; "uss"]
                  (combined_mem_log dir (str tag)) mems
                  mem_block_log Hlm) as (mw & Hw2 & Hwm & Hmw).
      rewrite Hw2. simpl.
      exists tw, mw, (Ok tt). split; [done|].
      split; [done|]. split; [done|].
      destruct (Hwr tw mw Hwt Hwm) as [Hti Hmi].
      split; [done|]. split; [done|]. split; [done|].
      intros Hnone. split; [|split; [|done]].
      * destruct tw as [|ev tw]; [done|]. exfalso.
        apply (Hno (timing_log dir)); [intros t Hin; by apply Hnone|].
        by apply Hti.
      * destruct mw as [|ev mw]; [done|]. exfalso.
        apply (Hno (mem_log dir)); [intros t Hin; by apply Hnone|].
        by apply Hmi.
    + rewrite bind_lift_raised. simpl.
      exists tw, [], (Raised e). split; [done|].
      split; [done|]. split; [by left|].
      destruct (Hwr tw [] Hwt (or_introl eq_refl)) as [? ?].
      split; [done|]. split; [done|]. split; [done|].
      intros Hnone. exfalso.
      rewrite load_absent in Hlm; [done|]. intros t Hin. by apply Hnone.
  - rewrite bind_lift_raised. simpl.
    exists [], [], (Raised e). split; [done|].
    split; [by left|]. split; [by left|].
    split; [done|]. split; [done|]. split; [done|].
    intros Hnone. exfalso.
    rewrite load_absent in Hlt; [done|]. intros t Hin. by apply Hnone.
Qed.

Definition sample_context : gmap string value :=
  <["sharrow" := VBool true]> (<["legacy" := VBool true]>
    (<["tag" := VStr "v1"]> (<["archive_dir" := VStr "arc"]> ∅))).

Definition sample_timing_log : DataFrame :=
  {| df_index_name := None;
     df_columns := [("model_name", DObject); ("seconds", DFloat)];
     df_rows := [(VInt 0, [VStr "initialize"; VInt 3]);
                 (VInt 1, [VStr "school"; VInt 7]);
                 (VInt 2, [VStr "initialize"; VInt 5])] |}.

Definition sample_legacy_log : DataFrame :=
  {| df_index_name := None;
     df_columns := [("model_name", DObject); ("seconds", DFloat)];
     df_rows := [(VInt 0, [VStr "school"; VInt 9]);
                 (VInt 1, [VStr "work"; VInt 4])] |}.

Definition sample_files : gmap string (outcome DataFrame) :=
  <["arc/output-sharrow/log/timing_log.csv" := Ok sample_timing_log]>
    (<["arc/output-legacy/log/timing_log.csv" := Ok sample_legacy_log]> ∅).

(** The repeated label [initialize] keeps its first row, and a mode without
    a row for a label shows [NaN]; no memory log exists, so no combined
    memory file is written. *)
Example run_step_sample :
  run_step sample_context sample_files
  = ([ResetProgress "composite timing and memory logs";
      ToCsv "arc/combined_timing_log-v1.csv"
        {| comp_columns := [("sharrow", None); ("legacy", None)];
           comp_rows := [(VStr "initialize", [VInt 3; VNaN]);
                         (VStr "school", [VInt 7; VInt 9]);
                         (VStr "work", [VNaN; VInt 4])] |}],
     Ok tt).
Proof. vm_compute. reflexivity. Qed.

Lemma run_step_writes_witness :
  exists tw mw r,
    run_step sample_context sample_files
      = (ResetProgress "composite timing and memory logs" :: tw ++ mw, r)
    /\ (tw <> [] ->
        some_input sample_files ["compile"; "sharrow"; "legacy"] (timing_log "arc"))
    /\ (r = Ok tt ->
        some_input sample_files ["compile"; "sharrow"; "legacy"] (mem_log "arc") ->
        mw <> []).
Proof.
  destruct (run_step_writes sample_context sample_files
              (VBool true) (VBool true) (VStr "v1") (VStr "arc"))
    as (tw & mw & r & H1 & _ & _ & H2 & _ & H3 & _);
    [reflexivity | discriminate | reflexivity | discriminate
    | reflexivity | discriminate | reflexivity | discriminate |].
  exists tw, mw, r. split; [exact H1|]. split; [exact H2|].
  intros Hr. apply (H3 Hr).
Defined.

End CompositeLogProps.

(** ** run.py *)

Module RunProps.
Import Run Facts.

(** Events that neither delete files, nor report a finished step, nor are
    an end-of-run summary. *)
Definition quiet (e : event) : bool :=
  negb (is_deletion e) && negb (is_step e) && negb (is_summary e).

Lemma import_extensions_run w exts :
  exists evs, forallb quiet evs = true /\
    (import_extensions w exts = (evs, Ok tt)
     \/ exists e m, import_extensions w exts = (evs, Raised e)
                    /\ m ∈ exts /\ w_import_module w m = Raised e).
Proof.
  induction exts as [|x exts (evs & Hq & IH)].
  - exists []. split; [done | by left].
  - cbn [import_extensions].
    rewrite (bind_ok _ _ [ImportModule x] tt) by done.
    destruct (w_import_module w x) as [[]|err] eqn:Hx.
    + exists (ImportModule x :: evs). split; [done|].
      destruct IH as [IH|(e & m & IH & Hm & He)].
      * left. by rewrite IH.
      * right. exists e, m. rewrite IH.
        split; [done|]. split; [by right | done].
    + assert (exists evs', forallb quiet evs' = true /\
                match exn_cls err with
                | ImportError => emit (LogException "ImportError") ;;! raise err
                | _ => if is_Exception err
                       then emit (LogException ("Error " +:+ exn_msg err)) ;;!
                            raise err
                       else raise err
                end = (evs', (Raised err : outcome unit))) as (evs' & Hq' & Hr).
      { destruct err as [[] msg]; simpl; eexists; (split; [|reflexivity]);
          reflexivity. }
      exists (ImportModule x :: evs'). split; [done|].
      right. exists err, x. rewrite Hr.
      split; [done|]. split; [by left | done].
Qed.

Lemma move_extra_run extra other :
  exists evs other', move_extra extra other = (evs, Ok other')
                     /\ forallb quiet evs = true.
Proof.
  revert other. induction extra as [|[k v] extra IH]; intros other; simpl.
  - eauto.
  - destruct (IH (dict_set other k v)) as (evs & other' & H & Hq).
    exists (LogWarning (" - " +:+ k) :: evs), other'.
    by rewrite H.
Qed.

(** Settings that differ at most in where the unexpected keys are kept. *)
Definition same_fields (s0 s1 : Settings) : Prop :=
  s1 = s0 \/ exists o, s1 = set_other_settings o [] s0.

Lemma move_extra_settings_run s :
  exists evs s1, move_extra_settings s = (evs, Ok s1)
                 /\ same_fields s s1 /\ forallb quiet evs = true.
Proof.
  unfold move_extra_settings. destruct (s_extra s) as [|kv extra] eqn:He.
  - exists [], s. split; [done|]. split; [by left | done].
  - destruct (move_extra_run (kv :: extra) (default [] (s_other_settings s)))
      as (evs & other' & H & Hq).
    eexists _, _. split; [|split].
    + rewrite (bind_ok _ _ [_] tt) by done.
      rewrite (bind_ok _ _ [_] tt) by done.
      rewrite (bind_ok _ _ _ _ H). simpl. reflexivity.
    + right. eauto.
    + simpl. rewrite forallb_app, Hq. done.
Qed.

(** What the block under [if args.multiprocess:] makes of the settings. *)
Definition multiprocess_settings (n : Z) (s : Settings) : Settings :=
  let s := set_multiprocess true s in
  if 1 <? n then set_num_processes (Some n) s else s.

Lemma apply_multiprocess_run w n whale :
  exists evs whale', apply_multiprocess w n whale = (evs, Ok whale')
    /\ settings whale' = multiprocess_settings n (settings whale)
    /\ forallb quiet evs = true.
Proof.
  unfold apply_multiprocess.
  case_bool_decide.
  - rewrite (bind_ok _ _ [] whale) by done. simpl. eauto.
  - destruct (w_configs_mp_exists w); simpl; eauto.
Qed.

(** The settings that [handle_standard_args] leaves, given the settings
    read from the file. *)
Definition cli_settings (args : Args) (s : Settings) : Settings :=
  let s := if truthy_int (multiprocess args)
           then multiprocess_settings (default 0 (multiprocess args)) s
           else s in
  let s := apply_chunk_size args s in
  let s := apply_chunk_training_mode args s in
  let s := apply_households_sample_size args s in
  if truthy_str (resume args) then set_resume_after (resume args) s else s.

Lemma inject_imported_extensions v whale :
  inject_arg "imported_extensions" v whale
  = ([], Ok {| context := dict_set (context whale) "imported_extensions" v;
               filesystem := filesystem whale;
               settings := settings whale |}).
Proof. reflexivity. Qed.

Lemma handle_standard_args_run w whale args :
  exists evs, forallb quiet evs = true /\
    ((exists whale' cd s0 s1,
        handle_standard_args w whale args = (evs, Ok whale')
        /\ w_read_settings w (w_parse_args w args) = Ok (cd, s0)
        /\ same_fields s0 s1
        /\ settings whale' = cli_settings args s1)
     \/ (exists e,
          handle_standard_args w whale args = (evs, Raised e)
          /\ ((exists m, m ∈ default [] (ext args)
                         /\ w_import_module w m = Raised e)
              \/ w_read_settings w (w_parse_args w args) = Raised e))).
Proof.
  unfold handle_standard_args.
  assert (exists evs0,
            (if truthy_str (working_dir args)
             then emit (Chdir (default "" (working_dir args)))
             else ret tt) = (evs0, Ok tt) /\ forallb quiet evs0 = true)
    as (evs0 & -> & Hq0).
  { destruct (truthy_str (working_dir args)); eexists; split; reflexivity. }
  rewrite (bind_ok _ _ evs0 tt) by done.
  assert (exists evs1, forallb quiet evs1 = true /\
            ((exists whale1,
                (if truthy_list (ext args)
                 then import_extensions w (default [] (ext args)) ;;!
                      inject_arg "imported_extensions" (default [] (ext args)) whale
                 else inject_arg "imported_extensions" [] whale)
                = (evs1, Ok whale1)
                /\ filesystem whale1 = filesystem whale
                /\ settings whale1 = settings whale)
             \/ (exists e m,
                  (if truthy_list (ext args)
                   then import_extensions w (default [] (ext args)) ;;!
                        inject_arg "imported_extensions" (default [] (ext args))
                          whale
                   else inject_arg "imported_extensions" [] whale)
                  = (evs1, Raised e)
                  /\ m ∈ default [] (ext args)
                  /\ w_import_module w m = Raised e)))
    as (evs1 & Hq1 & H1).
  { destruct (truthy_list (ext args)).
    - destruct (import_extensions_run w (default [] (ext args)))
        as (evs & Hq & [H|(e & m & H & Hm & He)]).
      + exists evs. split; [done|]. left. eexists.
        rewrite (bind_ok _ _ _ _ H), inject_imported_extensions. simpl.
        rewrite app_nil_r. done.
      + exists evs. split; [done|]. right. exists e, m.
        by rewrite (bind_raised _ _ _ _ H).
    - exists []. split; [done|]. left. eexists.
      rewrite inject_imported_extensions. done. }
  destruct H1 as [(whale1 & -> & _ & _)|(e & m & -> & Hm & He)]; simpl.
  2:{ exists (evs0 ++ evs1). split; [by rewrite forallb_app, Hq0, Hq1|].
      right. exists e. split; [done|]. left. eauto. }
  destruct (w_read_settings w (w_parse_args w args)) as [[cd s0]|e] eqn:Hr;
    simpl.
  2:{ exists (evs0 ++ evs1 ++ []). split.
      - by rewrite !forallb_app, Hq0, Hq1.
      - right. exists e. split; [done | by right]. }
  set (whale2 := with_settings s0
                   (if truthy_str cd
                    then with_filesystem
                           (set_cache_dir cd (w_parse_args w args))
                           (with_filesystem (w_parse_args w args) whale1)
                    else with_filesystem (w_parse_args w args) whale1)).
  destruct (move_extra_settings_run s0) as (evs2 & s1 & Hm & Hsame & Hq2).
  rewrite (bind_ok _ _ _ _ Hm).
  assert (exists evs3 whale3,
            (if truthy_int (multiprocess args)
             then apply_multiprocess w (default 0 (multiprocess args))
                    (with_settings s1 whale2)
             else ret (with_settings s1 whale2)) = (evs3, Ok whale3)
            /\ settings whale3
               = (if truthy_int (multiprocess args)
                  then multiprocess_settings (default 0 (multiprocess args)) s1
                  else s1)
            /\ forallb quiet evs3 = true) as (evs3 & whale3 & Hmp & Hs3 & Hq3).
  { destruct (truthy_int (multiprocess args)).
    - apply apply_multiprocess_run.
    - eexists _, _. split; [reflexivity|]. done. }
  rewrite (bind_ok _ _ _ _ Hmp). simpl.
  eexists. split; cycle 1.
  - left. eexists _, cd, s0, s1. split; [reflexivity|].
    split; [done|]. split; [done|].
    unfold cli_settings. rewrite <- Hs3.
    destruct (truthy_str (pipeline args)), (truthy_str (resume args));
      reflexivity.
  - by rewrite !forallb_app, Hq0, Hq1, Hq2, Hq3.
Qed.

(** The deletions that [run] asks for once the settings are known. *)
Definition cleanup_deletions (w : World) (whale : Whale) : list event :=
  if negb (truthy_str (s_resume_after (settings whale))) then
    [DeleteTraceFiles;
     DeleteOutputFiles "h5" [];
     DeleteOutputFiles "csv"
       (if s_memory_profile (settings whale)
        then [w_log_file_path w "memory_profile.csv"] else []);
     DeleteOutputFiles "txt" [];
     DeleteOutputFiles "yaml" [];
     DeleteOutputFiles "prof" [];
     DeleteOutputFiles "omx" []]
  else if s_cleanup_trace_files_on_resume (settings whale)
       then [DeleteTraceFiles]
       else [].

Definition sidecar_started (whale : Whale) : bool :=
  s_memory_profile (settings whale) && negb (s_multiprocess (settings whale)).

(** The events of [startup] before and after the clean-up. *)
Definition before_cleanup (w : World) (whale : Whale) : list event :=
  (if s_rotate_logs (settings whale) then [RotateLogDirectory] else [])
  ++ (if sidecar_started whale
      then [StartMemorySidecar (w_log_file_path w "memory_profile.csv")]
      else []).

Definition after_cleanup (w : World) (whale : Whale) : list event :=
  [ConfigLogger false; FilterWarnings; CaptureWarnings]
  ++ (log_setting_lines
        ["configs_dir"; "settings_file_name"; "data_dir"; "output_dir"]).1
  ++ (log_setting_lines (s_log_settings (settings whale))).1
  ++ (log_env_lines ["MKL_NUM_THREADS"; "OMP_NUM_THREADS";
                     "OPENBLAS_NUM_THREADS"; "NUMBA_NUM_THREADS"]).1
  ++ (log_numpy_lines w).1
  ++ [PrintElapsedTime None (w_now w 0 - w_now w 0)].

Definition before_args (w : World) : list event :=
  (if negb (w_preload_injectables w) then [ImportAbm] else [])
  ++ [ConfigLogger true].

Lemma startup_unfold w args :
  startup w args =
    match handle_standard_args w new_whale args with
    | (evs, Ok whale) =>
        (before_args w ++ evs ++ before_cleanup w whale
           ++ cleanup_deletions w whale ++ after_cleanup w whale,
         Ok (whale, sidecar_started whale, w_now w 0))
    | (evs, Raised e) => (before_args w ++ evs, Raised e)
    end.
Proof.
  unfold startup.
  destruct (handle_standard_args w new_whale args) as [evs [whale|e]].
  2:{ unfold before_args. rewrite <- !app_assoc.
      eapply (bind_eq _ _ (if negb (w_preload_injectables w)
                           then [ImportAbm] else []) tt);
        [by destruct (w_preload_injectables w) | cbv beta].
      eapply (bind_eq _ _ [ConfigLogger true] tt); [done | cbv beta].
      done. }
  etransitivity.
  { eapply (bind_eq _ _ (if negb (w_preload_injectables w)
                         then [ImportAbm] else []) tt);
      [by destruct (w_preload_injectables w) | cbv beta].
    eapply (bind_eq _ _ [ConfigLogger true] tt); [done | cbv beta].
    eapply (bind_eq _ _ evs whale); [done | cbv beta].
    eapply (bind_eq _ _ (if s_rotate_logs (settings whale)
                         then [RotateLogDirectory] else []) tt);
      [by destruct (s_rotate_logs (settings whale)) | cbv beta].
    eapply (bind_eq _ _ (if sidecar_started whale
                         then [StartMemorySidecar
                                 (w_log_file_path w "memory_profile.csv")]
                         else []) (sidecar_started whale));
      [unfold sidecar_started;
       by destruct (s_memory_profile (settings whale)),
            (s_multiprocess (settings whale)) | cbv beta].
    eapply (bind_eq _ _ (cleanup_deletions w whale) tt);
      [unfold cleanup_deletions, cleanup_output_files;
       by destruct (truthy_str (s_resume_after (settings whale))),
            (s_cleanup_trace_files_on_resume (settings whale)),
            (s_memory_profile (settings whale)) | cbv beta].
    eapply (bind_eq _ _ [ConfigLogger false] tt); [done | cbv beta].
    eapply (bind_eq _ _ [FilterWarnings] tt); [done | cbv beta].
    eapply (bind_eq _ _ [CaptureWarnings] tt); [done | cbv beta].
    eapply (bind_eq _ _ (log_setting_lines
                           ["configs_dir"; "settings_file_name"; "data_dir";
                            "output_dir"]).1 tt); [done | cbv beta].
    eapply (bind_eq _ _ (log_setting_lines
                           (s_log_settings (settings whale))).1 tt);
      [done | cbv beta].
    eapply (bind_eq _ _ (log_env_lines
                           ["MKL_NUM_THREADS"; "OMP_NUM_THREADS";
                            "OPENBLAS_NUM_THREADS"; "NUMBA_NUM_THREADS"]).1 tt);
      [done | cbv beta].
    eapply (bind_eq _ _ (log_numpy_lines w).1 tt); [done | cbv beta].
    eapply (bind_eq _ _ [PrintElapsedTime None (w_now w 0 - w_now w 0)]
              (w_now w 0)); [done | cbv beta].
    reflexivity. }
  unfold before_args, before_cleanup, after_cleanup.
  rewrite <- !app_assoc. cbn [app]. rewrite ?app_nil_r. reflexivity.
Qed.

(** The simulation that [run] starts for these settings. *)
Definition the_simulation (w : World) (whale : Whale) : Simulation :=
  if s_multiprocess (settings whale)
  then w_run_multiprocess w (settings whale)
  else w_whale_run w (s_models (settings whale))
         (s_resume_after (settings whale)).

Definition simulation_events (w : World) (whale : Whale) : list event :=
  LogInfo (if s_multiprocess (settings whale)
           then "run multiprocess simulation"
           else "run single process simulation")
    :: map StepDone (sim_steps (the_simulation w whale)).

Definition closing_events (whale : Whale) : list event :=
  if s_multiprocess (settings whale) then
    if s_cleanup_pipeline_after_run (settings whale) then [CleanupPipeline] else []
  else
    [if s_cleanup_pipeline_after_run (settings whale)
     then CleanupPipeline else ClosePipeline; LogGlobalHwm].

Lemma guarded_unfold w whale :
  guarded w whale =
    match sim_error (the_simulation w whale) with
    | Some e => (simulation_events w whale, Raised e)
    | None =>
        if s_multiprocess (settings whale) && w_is_open w
        then (simulation_events w whale, Raised (Raise AssertionError ""))
        else (simulation_events w whale ++ closing_events whale, Ok tt)
    end.
Proof.
  unfold guarded, simulation_events, closing_events, the_simulation, simulate.
  destruct (s_multiprocess (settings whale)); simpl.
  - destruct (sim_error (w_run_multiprocess w (settings whale))); simpl; [done|].
    destruct (w_is_open w); simpl; [by rewrite app_nil_r|].
    destruct (s_cleanup_pipeline_after_run (settings whale)); simpl;
      by rewrite ?app_nil_r.
  - destruct (sim_error (w_whale_run w _ _)); simpl; [done|].
    destruct (s_cleanup_pipeline_after_run (settings whale)); simpl;
      by rewrite ?app_nil_r.
Qed.

Definition summary_events : list event :=
  [ChunkConsolidateLogs; MemConsolidateLogs; TimeLoggerAggregateSummary].

Definition error_events (w : World) (t0 : Z) : list event :=
  [PrintElapsedTime (Some "all models until this error") (w_now w 1 - t0);
   LogException "activitysim run encountered an unrecoverable error"].

Definition final_events (w : World) (sidecar : bool) (t0 : Z) : list event :=
  PrintElapsedTime (Some "all models") (w_now w 1 - t0)
    :: (if sidecar then [StopMemorySidecar] else []).

Lemma run_unfold w args :
  run w args =
    match startup w args with
    | (evs, Raised e) => (evs, Raised e)
    | (evs, Ok (whale, sidecar, t0)) =>
        match guarded w whale with
        | (g, Ok _) =>
            (evs ++ g ++ summary_events ++ final_events w sidecar t0, Ok 0)
        | (g, Raised e) =>
            if is_Exception e
            then (evs ++ g ++ error_events w t0, Raised e)
            else (evs ++ g, Raised e)
        end
    end.
Proof.
  unfold run.
  destruct (startup w args) as [evs [[[whale sidecar] t0]|e]]; [|done].
  unfold bind at 1.
  destruct (guarded w whale) as [g [[]|e]]; simpl.
  - destruct sidecar; simpl; by rewrite ?app_nil_r.
  - destruct (is_Exception e); simpl; by rewrite ?app_nil_r.
Qed.

Lemma same_fields_eq s0 s1 :
  same_fields s0 s1 ->
  s_multiprocess s1 = s_multiprocess s0
  /\ s_num_processes s1 = s_num_processes s0
  /\ s_chunk_size s1 = s_chunk_size s0
  /\ s_households_sample_size s1 = s_households_sample_size s0.
Proof. by intros [->|[o ->]]. Qed.

Lemma cli_settings_chunk_size args s :
  s_chunk_size (cli_settings args s)
  = if truthy_int (chunk_size args) then default 0 (chunk_size args)
    else s_chunk_size s.
Proof.
  unfold cli_settings, multiprocess_settings, apply_chunk_size,
    apply_chunk_training_mode, apply_households_sample_size.
  destruct (truthy_int (multiprocess args)), (1 <? default 0 (multiprocess args)),
    (truthy_int (chunk_size args)), (chunk_training_mode args),
    (households_sample_size args), (truthy_str (resume args)); reflexivity.
Qed.

Lemma cli_settings_households_sample_size args s :
  s_households_sample_size (cli_settings args s)
  = default (s_households_sample_size s) (households_sample_size args).
Proof.
  unfold cli_settings, multiprocess_settings, apply_chunk_size,
    apply_chunk_training_mode, apply_households_sample_size.
  destruct (truthy_int (multiprocess args)), (1 <? default 0 (multiprocess args)),
    (truthy_int (chunk_size args)), (chunk_training_mode args),
    (households_sample_size args), (truthy_str (resume args)); reflexivity.
Qed.

Lemma cli_settings_multiprocess args s :
  s_multiprocess (cli_settings args s)
  = (truthy_int (multiprocess args) || s_multiprocess s)
  /\ s_num_processes (cli_settings args s)
     = if truthy_int (multiprocess args) && (1 <? default 0 (multiprocess args))
       then multiprocess args else s_num_processes s.
Proof.
  unfold cli_settings, multiprocess_settings, apply_chunk_size,
    apply_chunk_training_mode, apply_households_sample_size.
  destruct (multiprocess args) as [n|]; simpl;
    [destruct (n =? 0), (1 <? n); simpl|];
    destruct (truthy_int (chunk_size args)), (chunk_training_mode args),
      (households_sample_size args), (truthy_str (resume args)); done.
Qed.

(** When the extension modules import and the settings file loads,
    [handle_standard_args] returns, with the settings of the file overridden
    by the arguments. *)
Lemma handle_standard_args_returns w whale args cd s0 :
  w_read_settings w (w_parse_args w args) = Ok (cd, s0) ->
  (forall m, m ∈ default [] (ext args) -> w_import_module w m = Ok tt) ->
  exists evs whale' s1,
    handle_standard_args w whale args = (evs, Ok whale')
    /\ same_fields s0 s1
    /\ settings whale' = cli_settings args s1.
Proof.
  intros Hr Hi.
  destruct (handle_standard_args_run w whale args)
    as (evs & _ & [(whale' & cd' & s0' & s1 & H & Hr' & Hs & Hset)
                  |(e & _ & [(m & Hm & He)|He])]).
  - rewrite Hr in Hr'. injection Hr' as <- <-. eauto 10.
  - rewrite (Hi m Hm) in He. discriminate.
  - rewrite Hr in He. discriminate.
Qed.

(** C8. A chunk size of 0 on the command line leaves the chunk size of the
    settings file as it is, like an absent one, and any other chunk size
    replaces it; a households sample size of 0 does replace the one of the
    settings file, like every households sample size that is given. *)
Theorem zero_chunk_size_is_dropped (w : World) (whale : Whale) (args : Args)
    (cd : option string) (s0 : Settings) :
  w_read_settings w (w_parse_args w args) = Ok (cd, s0) ->
  (forall m, m ∈ default [] (ext args) -> w_import_module w m = Ok tt) ->
  exists evs whale',
    handle_standard_args w whale args = (evs, Ok whale')
    /\ (chunk_size args = Some 0 ->
        s_chunk_size (settings whale') = s_chunk_size s0)
    /\ (chunk_size args = None ->
        s_chunk_size (settings whale') = s_chunk_size s0)
    /\ (forall n, chunk_size args = Some n -> n <> 0 ->
                  s_chunk_size (settings whale') = n)
    /\ (households_sample_size args = Some 0 ->
        s_households_sample_size (settings whale') = 0)
    /\ (forall n, households_sample_size args = Some n ->
                  s_households_sample_size (settings whale') = n)
    /\ (households_sample_size args = None ->
        s_households_sample_size (settings whale')
        = s_households_sample_size s0).
Proof.
  intros Hr Hi.
  destruct (handle_standard_args_returns w whale args cd s0 Hr Hi)
    as (evs & whale' & s1 & H & Hs & Hset).
  destruct (same_fields_eq _ _ Hs) as (_ & _ & Hc & Hh).
  exists evs, whale'. split; [done|].
  rewrite Hset, cli_settings_chunk_size, cli_settings_households_sample_size,
    Hc, Hh.
  repeat split.
  - by intros ->.
  - by intros ->.
  - intros n -> Hn. simpl. by rewrite (proj2 (Z.eqb_neq n 0) Hn).
  - by intros ->.
  - by intros n ->.
  - by intros ->.
Qed.

(** A settings file, and a world in which every collaborator succeeds and
    the simulation finishes the steps it is given. *)
Definition sample_settings : Settings :=
  {| s_multiprocess := false;
     s_num_processes := Some 4;
     s_chunk_size := 1000;
     s_chunk_training_mode := "training";
     s_households_sample_size := 500;
     s_resume_after := None;
     s_models := ["initialize_landuse"; "school_location"];
     s_memory_profile := false;
     s_rotate_logs := false;
     s_cleanup_trace_files_on_resume := false;
     s_cleanup_pipeline_after_run := false;
     s_log_settings := ["chunk_size"];
     s_other_settings := None;
     s_extra := [] |}.

Definition world_with (s : Settings) (sim : list string -> Simulation) : World :=
  {| w_preload_injectables := true;
     w_import_module := fun _ => Ok tt;
     w_parse_args := fun _ => mkFileSystem ["configs"] None "pipeline.h5"
                                "settings.yaml";
     w_read_settings := fun _ => Ok (None, s);
     w_configs_mp_exists := false;
     w_log_file_path := fun name => "output/log/" +:+ name;
     w_np_libraries := fun _ => None;
     w_now := fun n => 60 * Z.of_nat n;
     w_whale_run := fun models _ => sim models;
     w_run_multiprocess := fun s => sim (s_models s);
     w_is_open := false |}.

Definition sample_world : World :=
  world_with sample_settings (fun models => mkSimulation models None).

Definition no_args : Args :=
  {| working_dir := None; config := None; output := None; data := None;
     resume := None; pipeline := None; settings_file := None;
     chunk_size := None; chunk_training_mode := None;
     households_sample_size := None; fast := false; ext := None;
     multiprocess := None |}.

Definition with_counts (m g h : option Z) : Args :=
  {| working_dir := None; config := None; output := None; data := None;
     resume := None; pipeline := None; settings_file := None;
     chunk_size := g; chunk_training_mode := None;
     households_sample_size := h; fast := false; ext := None;
     multiprocess := m |}.

Lemma zero_chunk_size_is_dropped_witness :
  exists evs whale',
    handle_standard_args sample_world new_whale
      (with_counts None (Some 0) (Some 0)) = (evs, Ok whale')
    /\ s_chunk_size (settings whale') = 1000
    /\ s_households_sample_size (settings whale') = 0.
Proof.
  destruct (zero_chunk_size_is_dropped sample_world new_whale
              (with_counts None (Some 0) (Some 0)) None sample_settings)
    as (evs & whale' & H & Hc & _ & _ & Hh & _);
    [reflexivity | intros m Hm; reflexivity |].
  exists evs, whale'. split; [exact H|].
  split; [apply Hc; reflexivity | apply Hh; reflexivity].
Defined.

(** C3 as the specification words it: a worker count below 1 or a chunk
    budget of 0 or less makes the run end in a [ConfigurationError] before
    any step has run. *)
Definition cli_counts_are_validated : Prop :=
  forall (w : World) (args : Args),
    (exists n, multiprocess args = Some n /\ n < 1)
    \/ (exists c, chunk_size args = Some c /\ c <= 0) ->
    exists evs msg,
      run w args = (evs, Raised (Raise ConfigurationError msg))
      /\ forallb (fun e => negb (is_step e)) evs = true.

(** With [--multiprocess 0 --chunk_size 0] the run goes through both steps
    on the settings of the file and returns 0. *)
Example run_with_zero_counts :
  exists evs,
    run sample_world (with_counts (Some 0) (Some 0) None) = (evs, Ok 0)
    /\ filter (fun e => is_step e = true) evs
       = [StepDone "initialize_landuse"; StepDone "school_location"].
Proof. eexists. split; vm_compute; reflexivity. Qed.

Lemma cli_counts_are_validated_fails : ~ cli_counts_are_validated.
Proof.
  intros H.
  destruct (H sample_world (with_counts (Some 0) (Some 0) None))
    as (evs & msg & Hrun & _).
  - left. exists 0. split; [reflexivity | lia].
  - vm_compute in Hrun. discriminate Hrun.
Qed.

(** C3, amended. [handle_standard_args] does not validate the worker count
    or the chunk size: when the extension modules import and the settings
    file loads, it returns whatever their values are. A worker count of 0,
    like an absent one, is ignored; any other count up to 1, such as the -1
    of a bare [--multiprocess], turns multiprocessing on and leaves the
    number of processes to the settings file; a count above 1 also
    replaces the number of processes. A chunk size of 0 is ignored and a
    positive one replaces the chunk size of the settings file. *)
Theorem cli_counts_are_not_validated (w : World) (whale : Whale) (args : Args)
    (cd : option string) (s0 : Settings) :
  w_read_settings w (w_parse_args w args) = Ok (cd, s0) ->
  (forall m, m ∈ default [] (ext args) -> w_import_module w m = Ok tt) ->
  exists evs whale',
    handle_standard_args w whale args = (evs, Ok whale')
    /\ (multiprocess args = None \/ multiprocess args = Some 0 ->
        s_multiprocess (settings whale') = s_multiprocess s0
        /\ s_num_processes (settings whale') = s_num_processes s0)
    /\ (forall n, multiprocess args = Some n -> n <> 0 -> n <= 1 ->
        s_multiprocess (settings whale') = true
        /\ s_num_processes (settings whale') = s_num_processes s0)
    /\ (forall n, multiprocess args = Some n -> 1 < n ->
        s_multiprocess (settings whale') = true
        /\ s_num_processes (settings whale') = Some n)
    /\ (chunk_size args = Some 0 ->
        s_chunk_size (settings whale') = s_chunk_size s0)
    /\ (forall c, chunk_size args = Some c -> 0 < c ->
        s_chunk_size (settings whale') = c).
Proof.
  intros Hr Hi.
  destruct (handle_standard_args_returns w whale args cd s0 Hr Hi)
    as (evs & whale' & s1 & H & Hs & Hset).
  destruct (same_fields_eq _ _ Hs) as (Hm & Hn & Hc & _).
  destruct (cli_settings_multiprocess args s1) as [Hm' Hn'].
  exists evs, whale'. split; [done|].
  rewrite Hset, cli_settings_chunk_size, Hm', Hn', Hm, Hn, Hc.
  split; [|split; [|split; [|split]]].
  - by intros [->| ->].
  - intros n -> ? ?. simpl. rewrite (proj2 (Z.eqb_neq n 0)) by done. simpl.
    by rewrite (proj2 (Z.ltb_ge 1 n)).
  - intros n -> ?. simpl. rewrite (proj2 (Z.eqb_neq n 0)) by lia. simpl.
    by rewrite (proj2 (Z.ltb_lt 1 n)).
  - by intros ->.
  - intros c -> ?. simpl. by rewrite (proj2 (Z.eqb_neq c 0)) by lia.
Qed.

Lemma cli_counts_are_not_validated_witness :
  exists evs whale',
    handle_standard_args sample_world new_whale
      (with_counts (Some (-1)) (Some 2000) None) = (evs, Ok whale')
    /\ s_multiprocess (settings whale') = true
    /\ s_num_processes (settings whale') = Some 4
    /\ s_chunk_size (settings whale') = 2000.
Proof.
  destruct (cli_counts_are_not_validated sample_world new_whale
              (with_counts (Some (-1)) (Some 2000) None) None sample_settings)
    as (evs & whale' & H & _ & Hm & _ & _ & Hc);
    [reflexivity | intros m Hm; reflexivity |].
  exists evs, whale'. split; [exact H|].
  destruct (Hm (-1)) as [? ?]; [reflexivity | lia | lia |].
  split; [assumption|]. split; [assumption|].
  apply Hc; [reflexivity | lia].
Defined.

(** *** Deletions *)

Definition no_deletion (evs : list event) : Prop :=
  forallb (fun e => negb (is_deletion e)) evs = true.

Definition no_step (evs : list event) : Prop :=
  forallb (fun e => negb (is_step e)) evs = true.

Definition no_summary (evs : list event) : Prop :=
  forallb (fun e => negb (is_summary e)) evs = true.

Lemma quiet_plain evs :
  forallb quiet evs = true -> no_deletion evs /\ no_step evs /\ no_summary evs.
Proof.
  unfold no_deletion, no_step, no_summary.
  induction evs as [|e evs IH]; simpl; [done|].
  intros [He Hq]%andb_prop. destruct (IH Hq) as (-> & -> & ->).
  unfold quiet in He. apply andb_prop in He as [[-> ->]%andb_prop ->]. done.
Qed.

Lemma log_lines_quiet (f : string -> string) keys :
  forallb quiet (map (fun k => LogInfo (f k)) keys) = true.
Proof. by induction keys. Qed.

Lemma log_numpy_lines_quiet w : forallb quiet (log_numpy_lines w).1 = true.
Proof.
  unfold log_numpy_lines. simpl.
  repeat (rewrite forallb_app; apply andb_true_intro; split;
          [by destruct (w_np_libraries w _)|]).
  done.
Qed.

Lemma before_args_quiet w : forallb quiet (before_args w) = true.
Proof. unfold before_args. by destruct (w_preload_injectables w). Qed.

Lemma before_cleanup_quiet w whale : forallb quiet (before_cleanup w whale) = true.
Proof.
  unfold before_cleanup.
  by destruct (s_rotate_logs (settings whale)), (sidecar_started whale).
Qed.

Lemma after_cleanup_quiet w whale : forallb quiet (after_cleanup w whale) = true.
Proof.
  unfold after_cleanup, log_setting_lines, log_env_lines. cbn [fst].
  rewrite !forallb_app, !log_lines_quiet, log_numpy_lines_quiet. done.
Qed.

Lemma after_deletions_app active evs1 evs2 disk :
  after_deletions active (evs1 ++ evs2) disk
  = after_deletions active evs2 (after_deletions active evs1 disk).
Proof. unfold after_deletions. apply foldl_app. Qed.

Lemma after_deletions_none active evs disk :
  no_deletion evs -> after_deletions active evs disk = disk.
Proof.
  unfold no_deletion, after_deletions.
  revert disk. induction evs as [|e evs IH]; intros disk; simpl; [done|].
  intros [He Hq]%andb_prop. rewrite IH by done. by destruct e.
Qed.

(** The files left when [startup] is through are those left by its
    clean-up. *)
Lemma startup_deletions w args evs whale sidecar t0 disk :
  startup w args = (evs, Ok (whale, sidecar, t0)) ->
  (forall active,
     after_deletions active evs disk
     = after_deletions active (cleanup_deletions w whale) disk)
  /\ no_step evs /\ no_summary evs /\ t0 = w_now w 0
  /\ sidecar = sidecar_started whale.
Proof.
  rewrite startup_unfold.
  destruct (handle_standard_args_run w new_whale args)
    as (evsh & Hq & [(whale' & cd & s0 & s1 & -> & _)|(e & -> & _)]); [|done].
  intros [= <- <- <- <-].
  destruct (quiet_plain _ Hq) as (Hd & Hs & Hm).
  destruct (quiet_plain _ (before_args_quiet w)) as (Hd1 & Hs1 & Hm1).
  destruct (quiet_plain _ (before_cleanup_quiet w whale')) as (Hd2 & Hs2 & Hm2).
  destruct (quiet_plain _ (after_cleanup_quiet w whale')) as (Hd3 & Hs3 & Hm3).
  split; [|split; [|split; [|done]]].
  - intros active. rewrite !after_deletions_app.
    rewrite (after_deletions_none active (before_args w)) by done.
    rewrite (after_deletions_none active evsh) by done.
    rewrite (after_deletions_none active (before_cleanup w whale')) by done.
    by rewrite (after_deletions_none active (after_cleanup w whale')).
  - unfold no_step in *. rewrite !forallb_app, Hs, Hs1, Hs2, Hs3.
    unfold cleanup_deletions.
    by destruct (truthy_str (s_resume_after (settings whale'))),
         (s_cleanup_trace_files_on_resume (settings whale')).
  - unfold no_summary in *. rewrite !forallb_app, Hm, Hm1, Hm2, Hm3.
    unfold cleanup_deletions.
    by destruct (truthy_str (s_resume_after (settings whale'))),
         (s_cleanup_trace_files_on_resume (settings whale')).
Qed.

Lemma elem_of_delete_output_files f t ignore subdir disk :
  f ∈ delete_output_files t ignore subdir disk
  <-> f ∈ disk /\ removed_by t ignore subdir f = false.
Proof. unfold delete_output_files. by rewrite list_elem_of_filter, (comm and). Qed.

Lemma removed_by_true t ignore subdir f :
  removed_by t ignore subdir f = true
  <-> match subdir with Some d => f_place f = d | None => True end
      /\ endswith (f_name f) t = true
      /\ f_path f ∉ ignore.
Proof.
  unfold removed_by. rewrite !andb_true_iff, negb_true_iff.
  rewrite bool_decide_eq_false.
  destruct subdir as [d|]; [rewrite bool_decide_eq_true|]; tauto.
Qed.

(** What [delete_trace_files] removes. *)
Definition is_trace_file (active : list string) (f : File) : bool :=
  removed_by "csv" [] (Some InTrace) f
  || removed_by "csv" [] (Some InLog) f
  || removed_by "log" active None f.

Lemma elem_of_delete_trace_files active f disk :
  f ∈ delete_trace_files active disk
  <-> f ∈ disk /\ is_trace_file active f = false.
Proof.
  unfold delete_trace_files, is_trace_file.
  rewrite !elem_of_delete_output_files, !orb_false_iff. tauto.
Qed.

Definition memory_profile_log (w : World) (whale : Whale) : list string :=
  if s_memory_profile (settings whale)
  then [w_log_file_path w "memory_profile.csv"] else [].

Lemma elem_of_after_cleanup w whale active f disk :
  truthy_str (s_resume_after (settings whale)) = false ->
  f ∈ after_deletions active (cleanup_deletions w whale) disk
  <-> f ∈ disk /\ is_trace_file active f = false
      /\ removed_by "h5" [] None f = false
      /\ removed_by "csv" (memory_profile_log w whale) None f = false
      /\ removed_by "txt" [] None f = false
      /\ removed_by "yaml" [] None f = false
      /\ removed_by "prof" [] None f = false
      /\ removed_by "omx" [] None f = false.
Proof.
  intros Hres. unfold cleanup_deletions, memory_profile_log. rewrite Hres.
  cbn [negb after_deletions foldl deletion].
  rewrite !elem_of_delete_output_files, elem_of_delete_trace_files.
  tauto.
Qed.

Lemma elem_of_after_resume w whale active f disk :
  truthy_str (s_resume_after (settings whale)) = true ->
  f ∈ after_deletions active (cleanup_deletions w whale) disk
  <-> f ∈ disk
      /\ (s_cleanup_trace_files_on_resume (settings whale) = true ->
          is_trace_file active f = false).
Proof.
  intros Hres. unfold cleanup_deletions. rewrite Hres.
  destruct (s_cleanup_trace_files_on_resume (settings whale));
    cbn [negb after_deletions foldl deletion].
  - rewrite elem_of_delete_trace_files. tauto.
  - split; [by intros ? | by intros [? _]].
Qed.

(** Every event of [run] after [startup] deletes nothing. *)
Lemma run_after_startup w args evs whale sidecar t0 :
  startup w args = (evs, Ok (whale, sidecar, t0)) ->
  exists rest r, run w args = (evs ++ rest, r) /\ no_deletion rest.
Proof.
  intros Hs. rewrite run_unfold, Hs, guarded_unfold.
  assert (no_deletion (simulation_events w whale)) as Hsim.
  { unfold no_deletion, simulation_events. simpl.
    by induction (sim_steps (the_simulation w whale)). }
  assert (no_deletion (closing_events whale)) as Hclose.
  { unfold closing_events.
    by destruct (s_multiprocess (settings whale)),
         (s_cleanup_pipeline_after_run (settings whale)). }
  unfold no_deletion in *.
  destruct (sim_error (the_simulation w whale)) as [e|].
  - destruct (is_Exception e); eexists _, _; (split; [reflexivity|]).
    + by rewrite forallb_app, Hsim.
    + done.
  - destruct (s_multiprocess (settings whale) && w_is_open w);
      cbn [is_Exception exn_cls]; eexists _, _; (split; [reflexivity|]).
    + by rewrite forallb_app, Hsim.
    + rewrite !forallb_app, Hsim, Hclose. by destruct sidecar.
Qed.

Definition of_output_type (f : File) : bool :=
  existsb (endswith (f_name f)) output_types.

(** C4 as the specification words it: with a resume point no file is
    removed but trace files, and without one no file of an output type is
    left. *)
Definition cleanup_is_complete : Prop :=
  forall w args evs whale sidecar t0 active (disk : list File),
    startup w args = (evs, Ok (whale, sidecar, t0)) ->
    (truthy_str (s_resume_after (settings whale)) = true ->
     forall f, f ∈ disk -> is_trace_file active f = false ->
               f ∈ after_deletions active evs disk)
    /\ (truthy_str (s_resume_after (settings whale)) = false ->
        forall f, f ∈ disk -> of_output_type f = true ->
                  f ∉ after_deletions active evs disk).

(** A multiprocess run with memory profiling, in an output directory
    without a [log] subdirectory: [get_log_file_path] then names a file of
    the output directory itself. *)
Definition profiled_world : World :=
  {| w_preload_injectables := true;
     w_import_module := fun _ => Ok tt;
     w_parse_args := fun _ => mkFileSystem ["configs"] None "pipeline.h5"
                                "settings.yaml";
     w_read_settings := fun _ =>
       Ok (None,
           {| s_multiprocess := true;
              s_num_processes := Some 4;
              s_chunk_size := 1000;
              s_chunk_training_mode := "training";
              s_households_sample_size := 500;
              s_resume_after := None;
              s_models := ["initialize_landuse"; "school_location"];
              s_memory_profile := true;
              s_rotate_logs := false;
              s_cleanup_trace_files_on_resume := false;
              s_cleanup_pipeline_after_run := false;
              s_log_settings := [];
              s_other_settings := None;
              s_extra := [] |});
     w_configs_mp_exists := false;
     w_log_file_path := fun name => "output/" +:+ name;
     w_np_libraries := fun _ => None;
     w_now := fun n => 60 * Z.of_nat n;
     w_whale_run := fun models _ => mkSimulation models None;
     w_run_multiprocess := fun s => mkSimulation (s_models s) None;
     w_is_open := false |}.

Definition old_memory_profile : File :=
  {| f_path := "output/memory_profile.csv"; f_place := InOutput;
     f_name := "memory_profile.csv" |}.

Definition old_timing_log : File :=
  {| f_path := "output/timing_log.csv"; f_place := InOutput;
     f_name := "timing_log.csv" |}.

(** With memory profiling on and no resume point, the memory profile left
    in the output directory by an earlier run outlives the clean-up; the
    timing log does not. *)
Example memory_profile_is_kept :
  after_deletions [] (startup profiled_world no_args).1
    [old_memory_profile; old_timing_log]
  = [old_memory_profile].
Proof. vm_compute. reflexivity. Qed.

(** In the [log] subdirectory the memory profile goes with the other csv
    files, whether the csv deletion passes it over or not. *)
Example memory_profile_in_log_is_removed :
  after_deletions []
    [DeleteTraceFiles;
     DeleteOutputFiles "csv" ["output/log/memory_profile.csv"]]
    [{| f_path := "output/log/memory_profile.csv"; f_place := InLog;
        f_name := "memory_profile.csv" |}]
  = [].
Proof. vm_compute. reflexivity. Qed.

Lemma cleanup_is_complete_fails : ~ cleanup_is_complete.
Proof.
  intros H.
  destruct (startup profiled_world no_args) as [evs [[[whale sidecar] t0]|e]]
    eqn:Hs; [|vm_compute in Hs; discriminate Hs].
  destruct (H profiled_world no_args evs whale sidecar t0 []
              [old_memory_profile; old_timing_log] Hs) as [_ H2].
  assert (evs = (startup profiled_world no_args).1) as Hevs by (by rewrite Hs).
  assert (whale = match (startup profiled_world no_args).2 with
                  | Ok (x, _, _) => x
                  | Raised _ => whale
                  end) as Hwhale by (by rewrite Hs).
  apply (H2 (ltac:(rewrite Hwhale; vm_compute; reflexivity)) old_memory_profile).
  - by left.
  - reflexivity.
  - rewrite Hevs, memory_profile_is_kept. by left.
Qed.

(** C4, amended. All deletions of [run] happen in [startup], before any
    step. With a resume point no file is removed except trace files (what
    [delete_trace_files] removes), and those only under
    [cleanup_trace_files_on_resume]. Without a resume point every file of
    an output type (h5, csv, txt, yaml, prof, omx) is removed, except that
    under [memory_profile] the csv deletion passes over the memory profile
    log: when that file lies in the output directory itself it is kept. *)
Theorem cleanup_before_first_step (w : World) (args : Args) (evs : list event)
    (whale : Whale) (sidecar : bool) (t0 : Z) (active : list string)
    (disk : list File) :
  startup w args = (evs, Ok (whale, sidecar, t0)) ->
  (exists rest r, run w args = (evs ++ rest, r)
                  /\ no_deletion rest /\ no_step evs)
  /\ (truthy_str (s_resume_after (settings whale)) = true ->
      (forall f, f ∈ disk -> is_trace_file active f = false ->
                 f ∈ after_deletions active evs disk)
      /\ (s_cleanup_trace_files_on_resume (settings whale) = false ->
          after_deletions active evs disk = disk))
  /\ (truthy_str (s_resume_after (settings whale)) = false ->
      (forall f, f ∈ disk -> of_output_type f = true ->
                 ~ (s_memory_profile (settings whale) = true
                    /\ f_place f = InOutput
                    /\ f_path f = w_log_file_path w "memory_profile.csv") ->
                 f ∉ after_deletions active evs disk)
      /\ (forall f, f ∈ disk ->
                    s_memory_profile (settings whale) = true ->
                    f_place f = InOutput ->
                    f_name f = "memory_profile.csv" ->
                    f_path f = w_log_file_path w "memory_profile.csv" ->
                    f ∈ after_deletions active evs disk)).
Proof.
  intros Hs.
  destruct (startup_deletions w args evs whale sidecar t0 disk Hs)
    as (Hdel & Hstep & _).
  destruct (run_after_startup w args evs whale sidecar t0 Hs)
    as (rest & r & Hrun & Hrest).
  split; [by exists rest, r|]. rewrite Hdel. split.
  - intros Hres. split.
    + intros f Hf Ht. apply elem_of_after_resume; [done|]. by split.
    + intros Hflag. unfold cleanup_deletions. by rewrite Hres, Hflag.
  - intros Hres. split.
    + intros f Hf Hty Hlog
        (_ & Htr & H1 & H2 & H3 & H4 & H5 & H6)%elem_of_after_cleanup; [|done].
      unfold is_trace_file in Htr. rewrite !orb_false_iff in Htr.
      destruct Htr as [[Htr1 Htr2] _].
      assert (forall t ignore subdir,
                removed_by t ignore subdir f = false ->
                match subdir with Some d => f_place f = d | None => True end ->
                endswith (f_name f) t = true -> f_path f ∉ ignore -> False)
        as Hno.
      { intros t ignore subdir Hrm ? ? ?.
        assert (removed_by t ignore subdir f = true) as Hrm'
          by (by apply removed_by_true).
        congruence. }
      unfold of_output_type, output_types in Hty. cbn [existsb] in Hty.
      rewrite !orb_true_iff in Hty.
      destruct Hty as [Hty|[Hty|[Hty|[Hty|[Hty|[Hty|Hty]]]]]];
        [by apply (Hno _ _ _ H1), not_elem_of_nil
        |
        | by apply (Hno _ _ _ H3), not_elem_of_nil
        | by apply (Hno _ _ _ H4), not_elem_of_nil
        | by apply (Hno _ _ _ H5), not_elem_of_nil
        | by apply (Hno _ _ _ H6), not_elem_of_nil
        | done].
      destruct (f_place f) eqn:Hplace.
      * apply (Hno _ _ _ H2); [done | done |].
        unfold memory_profile_log.
        destruct (s_memory_profile (settings whale)) eqn:Hmp;
          [|apply not_elem_of_nil].
        intros Hpath%list_elem_of_singleton. by apply Hlog.
      * by apply (Hno _ _ _ Htr2), not_elem_of_nil.
      * by apply (Hno _ _ _ Htr1), not_elem_of_nil.
    + intros f Hf Hmp Hplace Hname Hpath. apply elem_of_after_cleanup; [done|].
      split; [done|].
      unfold is_trace_file, removed_by, memory_profile_log.
      rewrite Hmp, Hplace, Hname, Hpath.
      rewrite (bool_decide_eq_true_2 (_ ∈ [_])) by (by left).
      repeat split; vm_compute; reflexivity.
Qed.

Definition profiled_whale : Whale :=
  Eval vm_compute in
    match (startup profiled_world no_args).2 with
    | Ok (whale, _, _) => whale
    | Raised _ => new_whale
    end.

Lemma cleanup_before_first_step_witness :
  (old_timing_log ∉ after_deletions [] (startup profiled_world no_args).1
                      [old_memory_profile; old_timing_log])
  /\ old_memory_profile ∈ after_deletions [] (startup profiled_world no_args).1
                             [old_memory_profile; old_timing_log].
Proof.
  destruct (cleanup_before_first_step profiled_world no_args
              (startup profiled_world no_args).1 profiled_whale false 0 []
              [old_memory_profile; old_timing_log]) as (_ & _ & H);
    [vm_compute; reflexivity|].
  destruct H as [Hgone Hkept]; [reflexivity|].
  split.
  - apply Hgone.
    + right. left.
    + reflexivity.
    + intros (_ & _ & Hpath). discriminate Hpath.
  - apply Hkept.
    + left.
    + reflexivity.
    + reflexivity.
    + reflexivity.
    + reflexivity.
Defined.

(** *** How a run ends *)

Lemma simulation_events_no_summary w whale :
  no_summary (simulation_events w whale).
Proof.
  unfold no_summary, simulation_events. simpl.
  by induction (sim_steps (the_simulation w whale)).
Qed.

Lemma closing_events_plain whale :
  no_summary (closing_events whale) /\ no_step (closing_events whale).
Proof.
  unfold closing_events.
  by destruct (s_multiprocess (settings whale)),
       (s_cleanup_pipeline_after_run (settings whale)).
Qed.

Lemma filter_steps_simulation w whale :
  filter (fun e => is_step e = true) (simulation_events w whale)
  = map StepDone (sim_steps (the_simulation w whale)).
Proof.
  unfold simulation_events. rewrite filter_cons_False by done.
  induction (sim_steps (the_simulation w whale)) as [|x l IH]; [done|].
  simpl. rewrite filter_cons_True by done. by rewrite IH.
Qed.

Lemma filter_no_step evs :
  no_step evs -> filter (fun e => is_step e = true) evs = [].
Proof.
  unfold no_step. induction evs as [|e evs IH]; simpl; [done|].
  intros [He Hq]%andb_prop. rewrite filter_cons_False; [by apply IH|].
  by destruct (is_step e).
Qed.

(** C5. When the simulation ends in an exception, [run] reports the time
    elapsed since the clock reading taken when the run started, logs the
    error and raises the same exception, so the process ends with status 1;
    no end-of-run summary of the chunk and memory logs is emitted. *)
Theorem failing_step_is_reported (w : World) (args : Args) (evs : list event)
    (whale : Whale) (sidecar : bool) (t0 : Z) (e : exn) :
  startup w args = (evs, Ok (whale, sidecar, t0)) ->
  sim_error (the_simulation w whale) = Some e ->
  is_Exception e = true ->
  run w args
  = (evs ++ simulation_events w whale
       ++ [PrintElapsedTime (Some "all models until this error")
             (w_now w 1 - w_now w 0);
           LogException "activitysim run encountered an unrecoverable error"],
     Raised e)
  /\ exit_status (run w args).2 = Some 1
  /\ no_summary (run w args).1.
Proof.
  intros Hs Hsim He.
  destruct (startup_deletions w args evs whale sidecar t0 [] Hs)
    as (_ & _ & Hsum & -> & _).
  assert (run w args
          = (evs ++ simulation_events w whale ++ error_events w (w_now w 0),
             Raised e)) as Hrun.
  { by rewrite run_unfold, Hs, guarded_unfold, Hsim, He. }
  split; [exact Hrun|]. rewrite Hrun. cbn [fst snd exit_status].
  rewrite He. split; [done|].
  unfold no_summary in *.
  by rewrite !forallb_app, Hsum, (simulation_events_no_summary w whale).
Qed.

(** C6. When the simulation finishes without an exception (and, in a
    multiprocess run, has left the pipeline closed), [run] returns 0 and
    its events are: those up to the end of the simulation, with every
    finished step among them and no summary; then the chunk log summary,
    the memory log summary and the aggregate timing summary, once each;
    then events that are neither a step nor a summary. *)
Theorem finished_run_is_summarised (w : World) (args : Args)
    (evs : list event) (whale : Whale) (sidecar : bool) (t0 : Z) :
  startup w args = (evs, Ok (whale, sidecar, t0)) ->
  sim_error (the_simulation w whale) = None ->
  (s_multiprocess (settings whale) = true -> w_is_open w = false) ->
  exists before after,
    run w args
    = (before
         ++ [ChunkConsolidateLogs; MemConsolidateLogs; TimeLoggerAggregateSummary]
         ++ after, Ok 0)
    /\ no_summary before
    /\ filter (fun e => is_step e = true) before
       = map StepDone (sim_steps (the_simulation w whale))
    /\ no_summary after /\ no_step after
    /\ exit_status (run w args).2 = Some 0.
Proof.
  intros Hs Hsim Hopen.
  destruct (startup_deletions w args evs whale sidecar t0 [] Hs)
    as (_ & Hstep & Hsum & _).
  destruct (closing_events_plain whale) as [Hcs Hct].
  assert (s_multiprocess (settings whale) && w_is_open w = false) as Hno.
  { destruct (s_multiprocess (settings whale)); [by rewrite Hopen | done]. }
  assert (run w args
          = ((evs ++ simulation_events w whale ++ closing_events whale)
               ++ summary_events ++ final_events w sidecar t0, Ok 0)) as Hrun.
  { rewrite run_unfold, Hs, guarded_unfold, Hsim, Hno.
    by rewrite <- !app_assoc. }
  exists (evs ++ simulation_events w whale ++ closing_events whale),
    (final_events w sidecar t0).
  split; [exact Hrun|]. rewrite Hrun.
  split; [|split; [|split; [|split]]].
  - unfold no_summary in *.
    by rewrite !forallb_app, Hsum, (simulation_events_no_summary w whale), Hcs.
  - rewrite !filter_app, (filter_no_step evs), (filter_no_step (closing_events _)),
      filter_steps_simulation by done.
    by rewrite app_nil_r.
  - by destruct sidecar.
  - by destruct sidecar.
  - done.
Qed.

Definition failing_world : World :=
  world_with sample_settings
    (fun models => mkSimulation (take 1 models)
                     (Some (Raise RuntimeError "no alternatives available"))).

Definition sample_whale : Whale :=
  Eval vm_compute in
    match (startup sample_world no_args).2 with
    | Ok (whale, _, _) => whale
    | Raised _ => new_whale
    end.

Lemma failing_step_is_reported_witness :
  (run failing_world no_args).2
  = Raised (Raise RuntimeError "no alternatives available")
  /\ exit_status (run failing_world no_args).2 = Some 1
  /\ no_summary (run failing_world no_args).1.
Proof.
  destruct (failing_step_is_reported failing_world no_args
              (startup failing_world no_args).1 sample_whale false 0
              (Raise RuntimeError "no alternatives available"))
    as (Hrun & Hexit & Hsum);
    [vm_compute; reflexivity | reflexivity | reflexivity |].
  split; [by rewrite Hrun | by split].
Defined.

Lemma finished_run_is_summarised_witness :
  exists before after,
    run sample_world no_args
    = (before
         ++ [ChunkConsolidateLogs; MemConsolidateLogs; TimeLoggerAggregateSummary]
         ++ after, Ok 0)
    /\ filter (fun e => is_step e = true) before
       = [StepDone "initialize_landuse"; StepDone "school_location"]
    /\ no_summary before /\ no_summary after /\ no_step after.
Proof.
  destruct (finished_run_is_summarised sample_world no_args
              (startup sample_world no_args).1 sample_whale false 0)
    as (before & after & Hrun & Hb & Hsteps & Ha & Hs & _);
    [vm_compute; reflexivity | reflexivity | discriminate |].
  exists before, after. split; [exact Hrun|].
  split; [exact Hsteps|]. split; [exact Hb|]. split; [exact Ha | exact Hs].
Defined.

End RunProps.

(** ** The traceable entity registry *)

Module TracingProps.
Import Tracing Facts.

(** *** The tests of [test_tracing.py] *)

Definition frame (index_name : option string) (columns : list (string * dtype))
    (rows : list (value * list value)) : DataFrame :=
  {| df_index_name := index_name; df_columns := columns; df_rows := rows |}.

Definition households_df : DataFrame :=
  frame (Some "household_id") [("dzing", DObject)]
    [(VInt 1, [VStr "a"]); (VInt 2, [VStr "b"]); (VInt 3, [VStr "c"])].

Definition tours_df : DataFrame :=
  frame (Some "tour_id") [("zort", DObject)]
    [(VInt 10, [VStr "a"]); (VInt 11, [VStr "b"]); (VInt 12, [VStr "c"])].

Definition tours_with (household_ids : list Z) : DataFrame :=
  frame (Some "tour_id") [("zort", DObject); ("household_id", DInt)]
    (zip_with (fun r h => (r.1, r.2 ++ [VInt h])) (df_rows tours_df)
       household_ids).

Definition registry_for (tables : list string) (hh : Z) : Registry :=
  {| traceable_tables := tables;
     trace_hh_id := Some (VInt hh);
     traceable_table_indexes := [];
     traceable_table_ids := ∅ |}.

(** Registrations one after the other; the events and the last registry. *)
Fixpoint register_all (reg : Registry) (tables : list (string * DataFrame))
  : M event Registry :=
  match tables with
  | [] => ret reg
  | (name, df) :: tables' =>
      reg ←! register_traceable_table reg name df;
      register_all reg tables'
  end.

(** [test_register_households] *)
Example test_register_households :
  (register_all (registry_for ["households"] 5)
     [("households", frame None [("zort", DObject)] (df_rows households_df));
      ("households", households_df)]).1
  = [LogError "Can't register table 'households' without index name";
     LogWarning "trace_hh_id 5 not in dataframe"].
Proof. vm_compute. reflexivity. Qed.

(** [test_register_tours] *)
Example test_register_tours :
  match register_all (registry_for ["households"; "tours"] 3)
          [("tours", tours_df); ("households", households_df);
           ("tours", tours_df); ("tours", tours_with [1; 5; 3])] with
  | (evs, Ok reg) =>
      evs = [LogError "can't find a registered table to slice table 'tours' index name 'tour_id'";
             LogError "can't find a registered table to slice table 'tours' index name 'tour_id'"]
      /\ traceable_table_ids reg !! "tours" = Some [VInt 12]
  | _ => False
  end.
Proof. vm_compute. split; reflexivity. Qed.

(** The example of the specification: households 1, 2, 3 with 1 traced, and
    tours 10, 11, 12 of households 1, 5, 1. *)
Example spec_example_tours :
  match register_all (registry_for ["households"; "tours"] 1)
          [("households", households_df); ("tours", tours_with [1; 5; 1])] with
  | (evs, Ok reg) =>
      evs = [] /\ traced_ids reg "tours" = [VInt 10; VInt 12]
  | _ => False
  end.
Proof. vm_compute. split; reflexivity. Qed.

(** [test_slice_ids] *)
Definition slice_df : DataFrame :=
  frame None [("household_id", DInt)]
    [(VInt 11, [VInt 1]); (VInt 12, [VInt 2]); (VInt 13, [VInt 3])].

Example test_slice_ids :
  slice_ids slice_df [VInt 1; VInt 3; VInt 6] (Some "household_id")
  = Ok (frame None [("household_id", DInt)]
          [(VInt 11, [VInt 1]); (VInt 13, [VInt 3])])
  /\ slice_ids slice_df [VInt 6; VInt 12] None
     = Ok (frame None [("household_id", DInt)] [(VInt 12, [VInt 2])])
  /\ slice_ids slice_df [VInt 5; VInt 6] (Some "baddie")
     = Raised (Raise RuntimeError
                 "slice_ids slicer column 'baddie' not in dataframe").
Proof. vm_compute. repeat split; reflexivity. Qed.

(** *** Looking up the parent dataset *)








(** *** What a registration leaves in the registry *)










(** *** Trace propagation *)


(** Persons that are registered before any household is: there is nothing
    to slice them by, so none is traced, but their index name is known
    from then on. *)
Definition persons_df : DataFrame :=
  frame (Some "person_id") [("age", DInt)]
    [(VInt 100, [VInt 40]); (VInt 101, [VInt 7]); (VInt 102, [VInt 35])].

Definition persons_first : Registry :=
  {| traceable_tables := ["households"; "persons"; "tours"];
     trace_hh_id := Some (VInt 1);
     traceable_table_indexes := [("person_id", "persons")];
     traceable_table_ids := ∅ |}.

Example persons_first_is_reached :
  register_traceable_table (registry_for ["households"; "persons"; "tours"] 1)
    "persons" persons_df
  = ([LogError "can't find a registered table to slice table 'persons' index name 'person_id'"],
     Ok persons_first).
Proof. vm_compute. reflexivity. Qed.

(** Tours that name their person and their household. *)
Definition tours_of_persons : DataFrame :=
  frame (Some "tour_id") [("person_id", DInt); ("household_id", DInt)]
    [(VInt 10, [VInt 100; VInt 1]);
     (VInt 11, [VInt 101; VInt 5]);
     (VInt 12, [VInt 102; VInt 1])].

(** The tours are sliced by [person_id], the index name that was
    registered first, and no person is traced. *)
Example tours_of_persons_first :
  match register_all persons_first
          [("households", households_df); ("tours", tours_of_persons)] with
  | (evs, Ok reg) =>
      evs = [LogWarning "register tours: no rows with person_id in []"]
      /\ traced_ids reg "households" = [VInt 1]
      /\ traced_ids reg "tours" = []
  | _ => False
  end.
Proof. vm_compute. repeat split; reflexivity. Qed.





(** *** Registrations without a join path *)





Definition trips_df : DataFrame :=
  frame (Some "trip_id") [("tour_id", DInt); ("household_id", DInt)]
    [(VInt 101, [VInt 10; VInt 1]);
     (VInt 102, [VInt 10; VInt 1]);
     (VInt 103, [VInt 11; VInt 5])].

(** Tours that are registered before any household leave their index name
    behind; trips registered later are sliced by it, against no traced
    tour, and not by their household. *)
Example trips_after_failed_tours :
  let fresh := registry_for ["households"; "tours"; "trips"] 1 in
  match register_all fresh
          [("tours", tours_df); ("households", households_df);
           ("trips", trips_df)],
        register_all fresh
          [("households", households_df); ("trips", trips_df)] with
  | (evs1, Ok reg1), (evs2, Ok reg2) =>
      evs1 = [LogError "can't find a registered table to slice table 'tours' index name 'tour_id'";
              LogWarning "register trips: no rows with tour_id in []"]
      /\ traced_ids reg1 "trips" = []
      /\ evs2 = []
      /\ traced_ids reg2 "trips" = [VInt 101; VInt 102]
  | _, _ => False
  end.
Proof. vm_compute. repeat split; reflexivity. Qed.









End TracingProps.

(** ** The adaptive chunk planner *)

Module ChunkProps.
Import Chunk.
Local Open Scope nat_scope.

Lemma validate_plan m rows_per_chunk chunks p :
  validate m rows_per_chunk chunks = Plan p ->
  cp_chunks p = chunks /\ chunks <> [] /\ Forall (fun c => 0 < c) chunks.
Proof.
  unfold validate. destruct chunks as [|c chunks]; [done|].
  destruct (forallb (fun c => 0 <? c) (c :: chunks)) eqn:Hall; [|done].
  intros [= <-]. split; [done|]. split; [done|].
  apply Forall_forall. intros x Hx.
  apply Nat.ltb_lt. apply (proj1 (forallb_forall _ _) Hall).
  by apply list_elem_of_In.
Qed.

Lemma validate_empty_chunk m rows_per_chunk chunks :
  0 ∈ chunks -> validate m rows_per_chunk chunks = Error InvalidChunkPlanError.
Proof.
  intros H0. unfold validate. destruct chunks as [|c chunks]; [done|].
  destruct (forallb (fun c => 0 <? c) (c :: chunks)) eqn:Hall; [|done].
  exfalso. assert (Hx := proj1 (forallb_forall _ _) Hall 0).
  rewrite <- list_elem_of_In in Hx. specialize (Hx H0). done.
Qed.

Lemma take_chunks_length count remaining rpc :
  length (take_chunks count remaining rpc) = count.
Proof.
  revert remaining. induction count as [|count IH]; intros remaining; simpl;
    [done | by rewrite IH].
Qed.

Lemma take_chunks_sum count remaining rpc :
  sum_list (take_chunks count remaining rpc) = Nat.min remaining (count * rpc).
Proof.
  revert remaining. induction count as [|count IH]; intros remaining; simpl.
  - lia.
  - rewrite IH. lia.
Qed.

Lemma positive_sum (l : list nat) :
  Forall (fun c => 0 < c) l -> length l <= sum_list l.
Proof. induction 1; simpl; lia. Qed.

Lemma ceil_div_covers rows count :
  0 < count -> rows <= count * ceil_div rows count.
Proof.
  intros Hc. unfold ceil_div.
  pose proof (Nat.mul_succ_div_gt (rows + count - 1) count ltac:(lia)). lia.
Qed.

Lemma chunks_of_sum fuel remaining rpc :
  remaining <= fuel ->
  Forall (fun c => 0 < c) (chunks_of fuel remaining rpc) ->
  sum_list (chunks_of fuel remaining rpc) = remaining.
Proof.
  revert remaining. induction fuel as [|fuel IH]; intros remaining Hf; simpl.
  - lia.
  - destruct (Nat.eqb_spec remaining 0) as [->|Hne]; [done|].
    intros [Hc Hall]%Forall_cons. simpl. rewrite IH; [lia | lia | done].
Qed.

Lemma grow_chunks_sum pl fuel remaining size :
  remaining <= fuel ->
  Forall (fun c => 0 < c) (grow_chunks pl fuel remaining size) ->
  sum_list (grow_chunks pl fuel remaining size) = remaining.
Proof.
  revert remaining size. induction fuel as [|fuel IH]; intros remaining size Hf;
    simpl.
  - lia.
  - destruct (Nat.eqb_spec remaining 0) as [->|Hne]; [done|].
    intros [Hc Hall]%Forall_cons. simpl. rewrite IH; [lia | lia | done].
Qed.

(** A requested number of chunks above the number of rows leaves a chunk
    without rows. *)
Lemma too_many_chunks rows count rpc :
  rows < count -> 0 ∈ take_chunks count rows rpc.
Proof.
  intros Hlt.
  destruct (decide (0 ∈ take_chunks count rows rpc)) as [|Hn]; [done|].
  exfalso.
  assert (Forall (fun c => 0 < c) (take_chunks count rows rpc)) as Hpos.
  { apply Forall_forall. intros x Hx.
    destruct x; [done | lia]. }
  apply positive_sum in Hpos.
  rewrite take_chunks_length, take_chunks_sum in Hpos. lia.
Qed.

Lemma plan_with_count_valid rows count m p :
  plan_with_count rows count m = Plan p ->
  num_chunks p = count
  /\ Forall (fun c => 0 < c) (cp_chunks p)
  /\ sum_list (cp_chunks p) = rows.
Proof.
  unfold plan_with_count. intros (Hp & Hne & Hpos)%validate_plan.
  unfold num_chunks. rewrite Hp, take_chunks_length, take_chunks_sum.
  split; [done|]. split; [done|].
  destruct count as [|count]; [done|].
  pose proof (ceil_div_covers rows (S count) ltac:(lia)). lia.
Qed.

(** C7. A plan for a dataset without rows is refused with a
    [ChunkPlanError], whatever the mode, and yields no chunk. A requested
    number of chunks that leaves some chunk without rows is refused with
    [InvalidChunkPlanError]; this is so whenever more chunks are requested
    than there are rows, or none, and also when production mode takes the
    number from the cached plan. Every plan that is returned has at least
    one chunk, no chunk without rows, and chunks that together hold all
    the rows. *)
Theorem empty_chunks_are_rejected :
  (forall pl step_name dataset_name m,
     plan pl step_name dataset_name 0 m = Error InvalidChunkPlanError)
  /\ (forall rows count m,
        0 ∈ take_chunks count rows (ceil_div rows count) ->
        plan_with_count rows count m = Error InvalidChunkPlanError)
  /\ (forall rows count m,
        rows < count \/ count = 0 ->
        plan_with_count rows count m = Error InvalidChunkPlanError)
  /\ (forall pl step_name dataset_name rows count,
        0 < rows -> min_chunk_size pl <= rows ->
        cached_num_chunks pl step_name dataset_name = Some count ->
        rows < count ->
        plan pl step_name dataset_name rows production
        = Error InvalidChunkPlanError)
  /\ (forall pl step_name dataset_name rows m p,
        plan pl step_name dataset_name rows m = Plan p ->
        cp_chunks p <> []
        /\ Forall (fun c => 0 < c) (cp_chunks p)
        /\ sum_list (cp_chunks p) = rows).
Proof.
  split; [|split; [|split; [|split]]].
  - done.
  - intros rows count m H0. by apply validate_empty_chunk.
  - intros rows count m [Hlt| ->]; [|done].
    by apply validate_empty_chunk, too_many_chunks.
  - intros pl step_name dataset_name rows count Hrows Hmin Hc Hlt.
    unfold plan.
    rewrite (proj2 (Nat.eqb_neq rows 0)) by lia.
    rewrite (proj2 (Nat.ltb_ge rows (min_chunk_size pl))) by done.
    rewrite Hc. by apply validate_empty_chunk, too_many_chunks.
  - intros pl step_name dataset_name rows m p. unfold plan.
    destruct (Nat.eqb_spec rows 0) as [->|Hne]; [done|].
    assert (forall rpc p,
              validate m rpc [rows] = Plan p ->
              cp_chunks p <> [] /\ Forall (fun c => 0 < c) (cp_chunks p)
              /\ sum_list (cp_chunks p) = rows) as Hone.
    { intros rpc p' (-> & ? & ?)%validate_plan. simpl. split; [done|].
      split; [done | lia]. }
    destruct (rows <? min_chunk_size pl); [apply Hone|].
    destruct m.
    + intros (-> & ? & ?)%validate_plan. split; [done|]. split; [done|].
      by apply grow_chunks_sum.
    + intros (-> & ? & ?)%validate_plan. split; [done|]. split; [done|].
      by apply chunks_of_sum.
    + destruct (cached_num_chunks pl step_name dataset_name) as [count|].
      * intros H. destruct (plan_with_count_valid _ _ _ _ H) as (Hn & ? & ?).
        split; [|done]. unfold plan_with_count in H.
        by apply validate_plan in H as (-> & ? & _).
      * destruct (strict_production pl); [done|].
        intros (-> & ? & ?)%validate_plan. split; [done|]. split; [done|].
        by apply chunks_of_sum.
    + apply Hone.
Qed.

Definition sample_planner : Planner :=
  {| memory_ceiling := 1000;
     min_chunk_size := 10;
     probe_rows := 16;
     observed_row_cost := 4;
     default_row_cost := 10;
     safe_default_rows := 50;
     strict_production := false;
     cached_row_cost := fun _ _ _ => Some 8;
     cached_num_chunks := fun _ _ => Some 4 |}.

(** Training probes with 16 rows and doubles the chunk while the doubled
    chunk stays under the ceiling; adaptive aims at [1000 / 8] rows. *)
Example plan_training :
  plan sample_planner "school_location" "persons" 1000 training
  = Plan {| cp_mode := training; cp_rows_per_chunk := 16;
            cp_chunks := [16; 32; 64; 128; 128; 128; 128; 128; 128; 120] |}.
Proof. vm_compute. reflexivity. Qed.

Example plan_adaptive :
  plan sample_planner "school_location" "persons" 300 adaptive
  = Plan {| cp_mode := adaptive; cp_rows_per_chunk := 125;
            cp_chunks := [125; 125; 50] |}.
Proof. vm_compute. reflexivity. Qed.

Example plan_production :
  plan sample_planner "school_location" "persons" 30 production
  = Plan {| cp_mode := production; cp_rows_per_chunk := 8;
            cp_chunks := [8; 8; 8; 6] |}.
Proof. vm_compute. reflexivity. Qed.

Lemma empty_chunks_are_rejected_witness :
  plan_with_count 3 5 production = Error InvalidChunkPlanError
  /\ plan_with_count 5 4 production = Error InvalidChunkPlanError
  /\ sum_list [125; 125; 50] = 300.
Proof.
  destruct empty_chunks_are_rejected as (_ & H0 & Hcount & _ & Hplan).
  split; [apply Hcount; left; lia|].
  split.
  - apply H0. vm_compute. right. right. right. left.
  - destruct (Hplan sample_planner "school_location" "persons" 300 adaptive
                _ plan_adaptive) as (_ & _ & Hsum).
    exact Hsum.
Defined.

End ChunkProps.

(** * Further properties of run.py *)

Module RunDetails.
Import Run Facts RunProps.

(** The file system that [handle_standard_args] leaves, given the cache
    directory named by the settings file. *)
Definition cli_filesystem (w : World) (args : Args) (cd : option string)
  : FileSystem :=
  let f := w_parse_args w args in
  let f := if truthy_str cd then set_cache_dir cd f else f in
  let f :=
    if truthy_int (multiprocess args)
       && negb (bool_decide ("configs_mp" ∈ fs_configs_dir f))
       && w_configs_mp_exists w
    then set_configs_dir ("configs_mp" :: fs_configs_dir f) f
    else f in
  if truthy_str (pipeline args)
  then set_pipeline_file_name (default "" (pipeline args)) f
  else f.

(** The settings once the unexpected keys are moved below
    [other_settings]. *)
Definition moved_settings (s : Settings) : Settings :=
  match s_extra s with
  | [] => s
  | extra =>
      set_other_settings
        (Some (foldl (fun o kv => dict_set o kv.1 kv.2)
                     (default [] (s_other_settings s)) extra)) [] s
  end.

Lemma move_extra_exact extra other :
  move_extra extra other
  = (map (fun kv => LogWarning (" - " +:+ kv.1)) extra,
     Ok (foldl (fun o kv => dict_set o kv.1 kv.2) other extra)).
Proof.
  revert other. induction extra as [|[k v] extra IH]; intros other; [done|].
  cbn [move_extra]. unfold bind, emit. by rewrite IH.
Qed.

Lemma move_extra_settings_exact s :
  exists evs, move_extra_settings s = (evs, Ok (moved_settings s))
              /\ forallb quiet evs = true.
Proof.
  unfold move_extra_settings, moved_settings.
  destruct (s_extra s) as [|kv extra]; [by exists []|].
  eexists. split.
  - eapply (bind_eq _ _ [_] tt); [done | cbv beta].
    eapply (bind_eq _ _ [_] tt); [done | cbv beta].
    eapply bind_eq; [apply move_extra_exact | reflexivity].
  - cbn [app forallb quiet is_deletion is_step is_summary negb andb].
    rewrite forallb_app, andb_true_r.
    by induction (kv :: extra).
Qed.

Lemma apply_multiprocess_exact w n whale :
  exists evs,
    apply_multiprocess w n whale
    = (evs,
       Ok (with_settings (multiprocess_settings n (settings whale))
             (if negb (bool_decide
                         ("configs_mp" ∈ fs_configs_dir (filesystem whale)))
                 && w_configs_mp_exists w
              then with_filesystem
                     (set_configs_dir
                        ("configs_mp" :: fs_configs_dir (filesystem whale))
                        (filesystem whale)) whale
              else whale)))
    /\ forallb quiet evs = true.
Proof.
  unfold apply_multiprocess, multiprocess_settings.
  destruct (bool_decide ("configs_mp" ∈ fs_configs_dir (filesystem whale)));
    [|destruct (w_configs_mp_exists w)]; simpl; eexists; split; try reflexivity.
  all: by destruct (1 <? n).
Qed.

Lemma import_extensions_ok w exts :
  (forall m, m ∈ exts -> w_import_module w m = Ok tt) ->
  import_extensions w exts = (map ImportModule exts, Ok tt).
Proof.
  induction exts as [|x exts IH]; intros H; [done|].
  cbn [import_extensions]. unfold bind, emit.
  rewrite (H x) by (by left). rewrite IH; [done|].
  intros m ?. apply H. by right.
Qed.

Lemma import_events_quiet exts : forallb quiet (map ImportModule exts) = true.
Proof. induction exts as [|x l IH]; [done | exact IH]. Qed.

(** What [handle_standard_args] returns when the extension modules import
    and the settings file loads. *)
Lemma handle_standard_args_exact w whale args cd s0 :
  w_read_settings w (w_parse_args w args) = Ok (cd, s0) ->
  (forall m, m ∈ default [] (ext args) -> w_import_module w m = Ok tt) ->
  exists evs,
    handle_standard_args w whale args
    = (evs,
       Ok {| context :=
               dict_set (context whale) "imported_extensions"
                 (if truthy_list (ext args) then default [] (ext args) else []);
             filesystem := cli_filesystem w args cd;
             settings := cli_settings args (moved_settings s0) |})
    /\ forallb quiet evs = true.
Proof.
  intros Hr Hi. unfold handle_standard_args.
  destruct (move_extra_settings_exact s0) as (evs2 & Hm & Hq2).
  set (whale1 := {| context :=
                      dict_set (context whale) "imported_extensions"
                        (if truthy_list (ext args)
                         then default [] (ext args) else []);
                    filesystem := filesystem whale;
                    settings := settings whale |}).
  set (whale2 := with_settings s0
                   (if truthy_str cd
                    then with_filesystem
                           (set_cache_dir cd (w_parse_args w args))
                           (with_filesystem (w_parse_args w args) whale1)
                    else with_filesystem (w_parse_args w args) whale1)).
  destruct (apply_multiprocess_exact w (default 0 (multiprocess args))
              (with_settings (moved_settings s0) whale2)) as (evs3 & Hmp & Hq3).
  eexists. split.
  - eapply (bind_eq _ _ (if truthy_str (working_dir args)
                         then [Chdir (default "" (working_dir args))] else [])
              tt); [by destruct (truthy_str (working_dir args)) | cbv beta].
    eapply (bind_eq _ _ (if truthy_list (ext args)
                         then map ImportModule (default [] (ext args)) else [])
              whale1).
    { subst whale1. destruct (truthy_list (ext args)).
      - rewrite (import_extensions_ok _ _ Hi).
        unfold bind. rewrite inject_imported_extensions.
        by rewrite app_nil_r.
      - by rewrite inject_imported_extensions. }
    cbv beta. cbn [filesystem with_filesystem]. rewrite Hr.
    eapply (bind_eq _ _ [] (cd, s0)); [done | cbv beta].
    cbn [fst snd settings with_settings]. fold whale2.
    eapply (bind_eq _ _ evs2 (moved_settings s0)); [exact Hm | cbv beta].
    eapply (bind_eq _ _ (if truthy_int (multiprocess args) then evs3 else [])
              (if truthy_int (multiprocess args)
               then with_settings
                      (multiprocess_settings (default 0 (multiprocess args))
                         (moved_settings s0))
                      (if negb (bool_decide
                                  ("configs_mp" ∈ fs_configs_dir
                                                    (filesystem whale2)))
                          && w_configs_mp_exists w
                       then with_filesystem
                              (set_configs_dir
                                 ("configs_mp"
                                    :: fs_configs_dir (filesystem whale2))
                                 (filesystem whale2))
                              (with_settings (moved_settings s0) whale2)
                       else with_settings (moved_settings s0) whale2)
               else with_settings (moved_settings s0) whale2)).
    { destruct (truthy_int (multiprocess args)); [exact Hmp | done]. }
    cbv beta. unfold ret. refine (f_equal2 pair eq_refl (f_equal Ok _)).
    unfold cli_filesystem, cli_settings, whale2, whale1.
    destruct (truthy_int (multiprocess args)), (truthy_str cd),
      (truthy_str (pipeline args)), (truthy_str (resume args));
      cbn [andb negb filesystem settings with_filesystem with_settings
             fs_configs_dir set_cache_dir];
      try reflexivity;
      destruct (bool_decide ("configs_mp" ∈ fs_configs_dir (w_parse_args w args))),
        (w_configs_mp_exists w); reflexivity.
  - assert (forallb quiet (map ImportModule (default [] (ext args))) = true)
      as Hq1 by apply import_events_quiet.
    rewrite !forallb_app, Hq2.
    destruct (truthy_str (working_dir args)), (truthy_list (ext args)),
      (truthy_int (multiprocess args)); by rewrite ?Hq1, ?Hq3.
Qed.

Ltac cli_cases args s0 :=
  unfold cli_settings, moved_settings, multiprocess_settings, apply_chunk_size,
    apply_chunk_training_mode, apply_households_sample_size;
  destruct (s_extra s0), (truthy_int (multiprocess args)),
    (1 <? default 0 (multiprocess args)), (truthy_int (chunk_size args)),
    (chunk_training_mode args), (households_sample_size args),
    (truthy_str (resume args)); try reflexivity.

(** X1. The arguments of the command line never touch the list of models,
    the memory profiling and log rotation switches, the two clean-up
    switches or the logged settings: these are as the settings file has
    them. *)
Theorem settings_file_fields_are_kept (w : World) (whale : Whale) (args : Args)
    (cd : option string) (s0 : Settings) :
  w_read_settings w (w_parse_args w args) = Ok (cd, s0) ->
  (forall m, m ∈ default [] (ext args) -> w_import_module w m = Ok tt) ->
  exists evs whale',
    handle_standard_args w whale args = (evs, Ok whale')
    /\ s_models (settings whale') = s_models s0
    /\ s_memory_profile (settings whale') = s_memory_profile s0
    /\ s_rotate_logs (settings whale') = s_rotate_logs s0
    /\ s_cleanup_trace_files_on_resume (settings whale')
       = s_cleanup_trace_files_on_resume s0
    /\ s_cleanup_pipeline_after_run (settings whale')
       = s_cleanup_pipeline_after_run s0
    /\ s_log_settings (settings whale') = s_log_settings s0.
Proof.
  intros Hr Hi.
  destruct (handle_standard_args_exact w whale args cd s0 Hr Hi) as (evs & H & _).
  eexists _, _. split; [exact H|]. cbn [settings].
  repeat split; cli_cases args s0.
Qed.

Lemma settings_file_fields_are_kept_witness :
  exists evs whale',
    handle_standard_args sample_world new_whale
      (with_counts (Some 8) (Some 2000) (Some 0)) = (evs, Ok whale')
    /\ s_models (settings whale') = ["initialize_landuse"; "school_location"].
Proof.
  destruct (settings_file_fields_are_kept sample_world new_whale
              (with_counts (Some 8) (Some 2000) (Some 0)) None sample_settings)
    as (evs & whale' & H & Hm & _);
    [reflexivity | intros m Hm; reflexivity |].
  exists evs, whale'. split; [exact H | exact Hm].
Defined.

(** X2. A resume point on the command line replaces the one of the settings
    file only when it is not the empty string, whereas a chunk training
    mode that is given replaces the one of the settings file even when it
    is the empty string. *)
Theorem resume_and_training_mode_overrides (w : World) (whale : Whale)
    (args : Args) (cd : option string) (s0 : Settings) :
  w_read_settings w (w_parse_args w args) = Ok (cd, s0) ->
  (forall m, m ∈ default [] (ext args) -> w_import_module w m = Ok tt) ->
  exists evs whale',
    handle_standard_args w whale args = (evs, Ok whale')
    /\ (resume args = None \/ resume args = Some "" ->
        s_resume_after (settings whale') = s_resume_after s0)
    /\ (forall r, resume args = Some r -> r <> "" ->
        s_resume_after (settings whale') = Some r)
    /\ (forall m, chunk_training_mode args = Some m ->
        s_chunk_training_mode (settings whale') = m)
    /\ (chunk_training_mode args = None ->
        s_chunk_training_mode (settings whale') = s_chunk_training_mode s0).
Proof.
  intros Hr Hi.
  destruct (handle_standard_args_exact w whale args cd s0 Hr Hi) as (evs & H & _).
  eexists _, _. split; [exact H|]. cbn [settings].
  split; [|split; [|split]].
  - intros Hn.
    assert (truthy_str (resume args) = false) as Ht
      by (by destruct Hn as [-> | ->]).
    unfold cli_settings. rewrite Ht. clear Ht Hn. cli_cases args s0.
  - intros r Hn Hne.
    assert (truthy_str (resume args) = true) as Ht.
    { rewrite Hn. simpl. by rewrite (proj2 (String.eqb_neq r "") Hne). }
    unfold cli_settings. rewrite Ht, Hn. reflexivity.
  - intros m Hn.
    unfold cli_settings, apply_chunk_training_mode, apply_households_sample_size.
    rewrite Hn.
    destruct (households_sample_size args), (truthy_str (resume args));
      reflexivity.
  - intros Hn.
    unfold cli_settings, apply_chunk_training_mode, apply_households_sample_size,
      apply_chunk_size, multiprocess_settings, moved_settings.
    rewrite Hn.
    destruct (s_extra s0), (truthy_int (multiprocess args)),
      (1 <? default 0 (multiprocess args)), (truthy_int (chunk_size args)),
      (households_sample_size args), (truthy_str (resume args)); reflexivity.
Qed.

Definition with_resume (r m : option string) : Args :=
  {| working_dir := None; config := None; output := None; data := None;
     resume := r; pipeline := None; settings_file := None;
     chunk_size := None; chunk_training_mode := m;
     households_sample_size := None; fast := false; ext := None;
     multiprocess := None |}.

Lemma resume_and_training_mode_overrides_witness :
  exists evs whale',
    handle_standard_args sample_world new_whale
      (with_resume (Some "") (Some "")) = (evs, Ok whale')
    /\ s_resume_after (settings whale') = None
    /\ s_chunk_training_mode (settings whale') = "".
Proof.
  destruct (resume_and_training_mode_overrides sample_world new_whale
              (with_resume (Some "") (Some "")) None sample_settings)
    as (evs & whale' & H & Hres & _ & Hmode & _);
    [reflexivity | intros m Hm; reflexivity |].
  exists evs, whale'. split; [exact H|].
  split; [apply Hres; right; reflexivity | apply Hmode; reflexivity].
Defined.

(** X3. With a worker count on the command line, ["configs_mp"] is put in
    front of the config directories exactly when it is not among them yet
    and the directory exists; in every other case the config directories
    are those parsed from the arguments. The step never lists a directory
    twice that was listed once, and it leaves the name of the settings file
    alone. *)
Theorem configs_mp_is_added_once (w : World) (whale : Whale) (args : Args)
    (cd : option string) (s0 : Settings) :
  w_read_settings w (w_parse_args w args) = Ok (cd, s0) ->
  (forall m, m ∈ default [] (ext args) -> w_import_module w m = Ok tt) ->
  let parsed := w_parse_args w args in
  exists evs whale',
    handle_standard_args w whale args = (evs, Ok whale')
    /\ (truthy_int (multiprocess args) = true ->
        "configs_mp" ∉ fs_configs_dir parsed ->
        w_configs_mp_exists w = true ->
        fs_configs_dir (filesystem whale')
        = "configs_mp" :: fs_configs_dir parsed)
    /\ (truthy_int (multiprocess args) = false
        \/ "configs_mp" ∈ fs_configs_dir parsed
        \/ w_configs_mp_exists w = false ->
        fs_configs_dir (filesystem whale') = fs_configs_dir parsed)
    /\ (NoDup (fs_configs_dir parsed) ->
        NoDup (fs_configs_dir (filesystem whale')))
    /\ fs_settings_file_name (filesystem whale')
       = fs_settings_file_name parsed.
Proof.
  intros Hr Hi parsed.
  destruct (handle_standard_args_exact w whale args cd s0 Hr Hi) as (evs & H & _).
  eexists _, _. split; [exact H|]. cbn [filesystem]. unfold cli_filesystem.
  fold parsed.
  assert (fs_configs_dir (if truthy_str cd then set_cache_dir cd parsed
                          else parsed) = fs_configs_dir parsed) as Hc
    by (by destruct (truthy_str cd)).
  set (f1 := if truthy_str cd then set_cache_dir cd parsed else parsed) in *.
  split; [|split; [|split]].
  - intros Hmp Hnin Hex. rewrite Hmp, Hex, Hc.
    rewrite bool_decide_eq_false_2 by done. cbn [negb andb].
    by destruct (truthy_str (pipeline args)).
  - intros Hcase.
    assert (truthy_int (multiprocess args)
            && negb (bool_decide ("configs_mp" ∈ fs_configs_dir f1))
            && w_configs_mp_exists w = false) as ->.
    { rewrite Hc. destruct Hcase as [-> | [Hin | ->]]; [done | |].
      - rewrite bool_decide_eq_true_2 by done. by rewrite andb_false_r.
      - by rewrite andb_false_r. }
    by destruct (truthy_str (pipeline args)).
  - intros Hnd.
    destruct (truthy_int (multiprocess args)
              && negb (bool_decide ("configs_mp" ∈ fs_configs_dir f1))
              && w_configs_mp_exists w) eqn:Hcond.
    + apply andb_prop in Hcond as [[_ Hnin]%andb_prop _].
      apply negb_true_iff, bool_decide_eq_false in Hnin. rewrite Hc in Hnin.
      destruct (truthy_str (pipeline args)); cbn; rewrite Hc;
        by apply NoDup_cons.
    + by destruct (truthy_str (pipeline args)); cbn; rewrite ?Hc.
  - subst f1.
    by destruct (truthy_int (multiprocess args) && _ && _),
         (truthy_str (pipeline args)), (truthy_str cd).
Qed.

(** A world whose working directory has a [configs_mp] folder. *)
Definition mp_world : World :=
  {| w_preload_injectables := true;
     w_import_module := fun _ => Ok tt;
     w_parse_args := fun _ => mkFileSystem ["configs"] None "pipeline.h5"
                                "settings.yaml";
     w_read_settings := fun _ => Ok (None, sample_settings);
     w_configs_mp_exists := true;
     w_log_file_path := fun name => "output/log/" +:+ name;
     w_np_libraries := fun _ => None;
     w_now := fun n => 60 * Z.of_nat n;
     w_whale_run := fun models _ => mkSimulation models None;
     w_run_multiprocess := fun s => mkSimulation (s_models s) None;
     w_is_open := false |}.

Lemma configs_mp_is_added_once_witness :
  exists evs whale',
    handle_standard_args mp_world new_whale (with_counts (Some (-1)) None None)
    = (evs, Ok whale')
    /\ fs_configs_dir (filesystem whale') = ["configs_mp"; "configs"].
Proof.
  destruct (configs_mp_is_added_once mp_world new_whale
              (with_counts (Some (-1)) None None) None sample_settings)
    as (evs & whale' & H & Hadd & _);
    [reflexivity | intros m Hm; reflexivity |].
  exists evs, whale'. split; [exact H|].
  apply Hadd; [reflexivity | | reflexivity].
  simpl. intros Hin. apply list_elem_of_singleton in Hin. discriminate Hin.
Defined.

Lemma dict_get_set {A} (d : list (string * A)) k v k' :
  Tracing.dict_get (dict_set d k v) k'
  = if String.eqb k k' then Some v else Tracing.dict_get d k'.
Proof.
  induction d as [|[k0 v0] d IH]; simpl.
  - done.
  - destruct (String.eqb_spec k0 k) as [->|Hne]; simpl.
    + by destruct (String.eqb k k').
    + rewrite IH. destruct (String.eqb_spec k0 k') as [->|?]; [|done].
      by rewrite (proj2 (String.eqb_neq k k')).
Qed.

Lemma dict_get_fold_set {A} (extra : list (string * A)) o :
  NoDup extra.*1 ->
  (forall k v, (k, v) ∈ extra ->
     Tracing.dict_get (foldl (fun o kv => dict_set o kv.1 kv.2) o extra) k
     = Some v)
  /\ (forall k, k ∉ extra.*1 ->
        Tracing.dict_get (foldl (fun o kv => dict_set o kv.1 kv.2) o extra) k
        = Tracing.dict_get o k).
Proof.
  revert o. induction extra as [|[k0 v0] extra IH]; intros o Hnd; simpl.
  - split; [intros k v H; inversion H | done].
  - apply NoDup_cons in Hnd as [Hk0 Hnd].
    destruct (IH (dict_set o k0 v0) Hnd) as [Hin Hout]. split.
    + intros k v [[= -> ->]|H]%elem_of_cons; [|by apply Hin].
      rewrite Hout by done. by rewrite dict_get_set, String.eqb_refl.
    + intros k Hk. apply not_elem_of_cons in Hk as [Hne Hk].
      rewrite Hout by done. rewrite dict_get_set.
      by rewrite (proj2 (String.eqb_neq k0 k)).
Qed.

(** X4. The keys of the settings file that are no field of [Settings] end
    up below [other_settings]: afterwards no such key is left at the top
    level, every one of them is found below [other_settings] with its
    value, and the entries that [other_settings] had under other keys are
    still there. Without such keys [other_settings] is not touched. *)
Theorem unexpected_settings_are_moved (w : World) (whale : Whale) (args : Args)
    (cd : option string) (s0 : Settings) :
  w_read_settings w (w_parse_args w args) = Ok (cd, s0) ->
  (forall m, m ∈ default [] (ext args) -> w_import_module w m = Ok tt) ->
  NoDup (s_extra s0).*1 ->
  exists evs whale',
    handle_standard_args w whale args = (evs, Ok whale')
    /\ s_extra (settings whale') = []
    /\ (s_extra s0 = [] ->
        s_other_settings (settings whale') = s_other_settings s0)
    /\ (s_extra s0 <> [] ->
        exists other,
          s_other_settings (settings whale') = Some other
          /\ (forall k v, (k, v) ∈ s_extra s0 ->
                Tracing.dict_get other k = Some v)
          /\ (forall k, k ∉ (s_extra s0).*1 ->
                Tracing.dict_get other k
                = Tracing.dict_get (default [] (s_other_settings s0)) k)).
Proof.
  intros Hr Hi Hnd.
  destruct (handle_standard_args_exact w whale args cd s0 Hr Hi) as (evs & H & _).
  eexists _, _. split; [exact H|]. cbn [settings].
  assert (s_extra (cli_settings args (moved_settings s0))
          = s_extra (moved_settings s0)
          /\ s_other_settings (cli_settings args (moved_settings s0))
             = s_other_settings (moved_settings s0)) as [-> ->].
  { generalize (moved_settings s0). intros s.
    unfold cli_settings, multiprocess_settings, apply_chunk_size,
      apply_chunk_training_mode, apply_households_sample_size.
    by destruct (truthy_int (multiprocess args)),
         (1 <? default 0 (multiprocess args)), (truthy_int (chunk_size args)),
         (chunk_training_mode args), (households_sample_size args),
         (truthy_str (resume args)). }
  unfold moved_settings.
  destruct (s_extra s0) as [|kv extra] eqn:He.
  - split; [by rewrite He|]. split; [done|]. by intros ?.
  - cbn [s_extra s_other_settings set_other_settings].
    split; [done|]. split; [done|]. intros _.
    eexists. split; [reflexivity|]. by apply dict_get_fold_set.
Qed.

Definition settings_with_extra : Settings :=
  {| s_multiprocess := false;
     s_num_processes := None;
     s_chunk_size := 0;
     s_chunk_training_mode := "disabled";
     s_households_sample_size := 0;
     s_resume_after := None;
     s_models := ["initialize_landuse"];
     s_memory_profile := false;
     s_rotate_logs := false;
     s_cleanup_trace_files_on_resume := false;
     s_cleanup_pipeline_after_run := false;
     s_log_settings := [];
     s_other_settings := Some [("skim_time_periods", VStr "AM")];
     s_extra := [("strict", VBool true); ("scenario_year", VInt 2030)] |}.

Lemma unexpected_settings_are_moved_witness :
  exists evs whale' other,
    handle_standard_args
      (world_with settings_with_extra (fun models => mkSimulation models None))
      new_whale no_args = (evs, Ok whale')
    /\ s_other_settings (settings whale') = Some other
    /\ Tracing.dict_get other "scenario_year" = Some (VInt 2030)
    /\ Tracing.dict_get other "skim_time_periods" = Some (VStr "AM").
Proof.
  destruct (unexpected_settings_are_moved
              (world_with settings_with_extra
                 (fun models => mkSimulation models None))
              new_whale no_args None settings_with_extra)
    as (evs & whale' & H & _ & _ & Hmoved).
  - reflexivity.
  - intros m Hm; reflexivity.
  - apply (bool_decide_unpack _). vm_compute. exact I.
  - destruct Hmoved as (other & Ho & Hin & Hout); [discriminate|].
    exists evs, whale', other. split; [exact H|]. split; [exact Ho|]. split.
    + apply Hin. right. left.
    + rewrite Hout; [reflexivity|].
      apply (bool_decide_unpack _). vm_compute. exact I.
Defined.

(** *** The events of each phase *)

Lemma bind_all {E A B} (P : E -> bool) (m : M E A) (f : A -> M E B) :
  forallb P m.1 = true ->
  (forall a, forallb P (f a).1 = true) ->
  forallb P (bind m f).1 = true.
Proof.
  destruct m as [es [a|e]]; simpl; intros Hm Hf; [|done].
  specialize (Hf a). destruct (f a) as [es' r]. simpl in *.
  by rewrite forallb_app, Hm, Hf.
Qed.

(** What [handle_standard_args] can emit. *)
Definition is_args_event (e : event) : bool :=
  match e with
  | Chdir _ | ImportModule _ | LogException _ | LogWarning _ | LogInfo _
  | WarnDeprecated _ => true
  | _ => false
  end.

(** What [run] can emit before the [try]. *)
Definition is_startup_event (e : event) : bool :=
  match e with
  | ImportAbm | ConfigLogger _ | RotateLogDirectory | StartMemorySidecar _
  | DeleteTraceFiles | DeleteOutputFiles _ _ | FilterWarnings
  | CaptureWarnings | PrintElapsedTime None _ => true
  | _ => is_args_event e
  end.

Lemma import_extensions_events w exts :
  forallb is_args_event (import_extensions w exts).1 = true.
Proof.
  induction exts as [|x exts IH]; [done|].
  cbn [import_extensions]. apply bind_all; [done|]. intros _.
  destruct (w_import_module w x) as [[]|[[] msg]]; try done.
Qed.

Lemma move_extra_settings_events s :
  forallb is_args_event (move_extra_settings s).1 = true.
Proof.
  unfold move_extra_settings. destruct (s_extra s) as [|kv extra]; [done|].
  apply bind_all; [done|]. intros _. apply bind_all; [done|]. intros _.
  apply bind_all; [|done]. rewrite move_extra_exact. cbn [fst].
  by induction (kv :: extra).
Qed.

Lemma apply_multiprocess_events w n whale :
  forallb is_args_event (apply_multiprocess w n whale).1 = true.
Proof.
  unfold apply_multiprocess. apply bind_all; [|done].
  by destruct (bool_decide _), (w_configs_mp_exists w).
Qed.

Lemma handle_standard_args_events w whale args :
  forallb is_args_event (handle_standard_args w whale args).1 = true.
Proof.
  unfold handle_standard_args.
  apply bind_all; [by destruct (truthy_str (working_dir args))|]. intros _.
  apply bind_all.
  { destruct (truthy_list (ext args)); [|done].
    apply bind_all; [apply import_extensions_events | done]. }
  intros whale1. apply bind_all; [by destruct (w_read_settings _ _)|].
  intros raw. apply bind_all; [apply move_extra_settings_events|].
  intros s. apply bind_all; [|done].
  destruct (truthy_int (multiprocess args)); [|done].
  apply apply_multiprocess_events.
Qed.

Lemma args_event_startup e : is_args_event e = true -> is_startup_event e = true.
Proof. by destruct e as [| | | | | | | | | | | | | |[]| | | | | | | |]. Qed.

Lemma forallb_impl {A} (P Q : A -> bool) l :
  (forall x, P x = true -> Q x = true) ->
  forallb P l = true -> forallb Q l = true.
Proof.
  intros H. induction l as [|x l IH]; simpl; [done|].
  intros [Hx Hl]%andb_prop. by rewrite (H x Hx), IH.
Qed.

(** Up to the [try], [run] emits nothing but events of the start-up: no
    step, no closing of the pipeline, no summary, no report of elapsed
    time and no stop of the memory sidecar. *)
Lemma startup_events w args :
  forallb is_startup_event (startup w args).1 = true.
Proof.
  rewrite startup_unfold.
  pose proof (forallb_impl _ _ _ args_event_startup
                (handle_standard_args_events w new_whale args)) as Hh.
  assert (forallb is_startup_event (before_args w) = true) as Hb
    by (unfold before_args; by destruct (w_preload_injectables w)).
  destruct (handle_standard_args w new_whale args) as [evs [whale|e]];
    cbn [fst] in *; rewrite !forallb_app, ?Hb, ?Hh; [|done].
  cbn [andb].
  assert (forallb is_startup_event (before_cleanup w whale) = true) as ->.
  { unfold before_cleanup.
    by destruct (s_rotate_logs (settings whale)), (sidecar_started whale). }
  assert (forallb is_startup_event (cleanup_deletions w whale) = true) as ->.
  { unfold cleanup_deletions.
    by destruct (truthy_str (s_resume_after (settings whale))),
         (s_cleanup_trace_files_on_resume (settings whale)). }
  assert (forall (f : string -> string) keys,
            forallb is_startup_event (map (fun k => LogInfo (f k)) keys) = true)
    as Hlog by (intros f keys; by induction keys).
  assert (forallb is_startup_event (log_numpy_lines w).1 = true) as Hnp.
  { unfold log_numpy_lines. simpl.
    repeat (rewrite forallb_app; apply andb_true_intro; split;
            [by destruct (w_np_libraries w _)|]).
    done. }
  unfold after_cleanup, log_setting_lines, log_env_lines. cbn [fst].
  by rewrite !forallb_app, !Hlog, Hnp.
Qed.

Lemma filter_none {A} (P Q : A -> bool) l :
  (forall x, Q x = true -> P x = false) ->
  forallb Q l = true ->
  filter (fun x => P x = true) l = [].
Proof.
  intros H. induction l as [|x l IH]; simpl; [done|].
  intros [Hx Hl]%andb_prop. rewrite filter_cons_False; [by apply IH|].
  by rewrite (H x Hx).
Qed.

Lemma after_cleanup_all (P : event -> bool) w whale :
  P (ConfigLogger false) = true -> P FilterWarnings = true ->
  P CaptureWarnings = true -> (forall msg, P (LogInfo msg) = true) ->
  (forall z, P (PrintElapsedTime None z) = true) ->
  forallb P (after_cleanup w whale) = true.
Proof.
  intros H1 H2 H3 Hlog Ht.
  assert (forall (f : string -> string) keys,
            forallb P (map (fun k => LogInfo (f k)) keys) = true) as Hlines.
  { intros f keys. induction keys as [|k keys IH]; simpl; [done|].
    by rewrite Hlog, IH. }
  assert (forallb P (log_numpy_lines w).1 = true) as Hnp.
  { unfold log_numpy_lines. simpl.
    repeat (rewrite forallb_app; apply andb_true_intro; split;
            [destruct (w_np_libraries w _); simpl; by rewrite ?Hlog|]).
    done. }
  unfold after_cleanup, log_setting_lines, log_env_lines. cbn [fst].
  rewrite !forallb_app, !Hlines, Hnp. simpl. by rewrite H1, H2, H3, Ht.
Qed.

(** X5. When the settings file cannot be read, [run] raises that very
    exception before anything else happens: its events are the import of
    the model steps, the basic logger set-up and those of the argument
    handling, so no file is deleted, no step runs and nothing is
    summarised. *)
Theorem unreadable_settings_stop_the_run (w : World) (args : Args) (e : exn) :
  (forall m, m ∈ default [] (ext args) -> w_import_module w m = Ok tt) ->
  w_read_settings w (w_parse_args w args) = Raised e ->
  exists evs,
    run w args = (before_args w ++ evs, Raised e)
    /\ forallb is_args_event evs = true
    /\ no_deletion (before_args w ++ evs)
    /\ no_step (before_args w ++ evs)
    /\ no_summary (before_args w ++ evs).
Proof.
  intros Hi Hr.
  pose proof (handle_standard_args_events w new_whale args) as Hev.
  destruct (handle_standard_args_run w new_whale args)
    as (evs & Hq & [(whale' & cd & s0 & s1 & _ & Hr' & _)
                   |(e' & H & [(m & Hm & He)|He])]).
  - rewrite Hr in Hr'. discriminate.
  - rewrite (Hi m Hm) in He. discriminate.
  - rewrite Hr in He. injection He as <-.
    exists evs. rewrite H in Hev. split; [|split; [exact Hev|]].
    + by rewrite run_unfold, startup_unfold, H.
    + destruct (quiet_plain _ Hq) as (Hd & Hs & Hm).
      destruct (quiet_plain _ (before_args_quiet w)) as (Hd' & Hs' & Hm').
      unfold no_deletion, no_step, no_summary in *.
      by rewrite !forallb_app, Hd, Hd', Hs, Hs', Hm, Hm'.
Qed.

Definition unreadable_world : World :=
  {| w_preload_injectables := false;
     w_import_module := fun _ => Ok tt;
     w_parse_args := fun _ => mkFileSystem ["configs"] None "pipeline.h5"
                                "settings.yaml";
     w_read_settings :=
       fun _ => Raised (Raise (OtherException "FileNotFoundError")
                          "settings.yaml");
     w_configs_mp_exists := false;
     w_log_file_path := fun name => "output/log/" +:+ name;
     w_np_libraries := fun _ => None;
     w_now := fun n => 60 * Z.of_nat n;
     w_whale_run := fun models _ => mkSimulation models None;
     w_run_multiprocess := fun s => mkSimulation (s_models s) None;
     w_is_open := false |}.

Lemma unreadable_settings_stop_the_run_witness :
  run unreadable_world no_args
  = ([ImportAbm; ConfigLogger true],
     Raised (Raise (OtherException "FileNotFoundError") "settings.yaml")).
Proof.
  destruct (unreadable_settings_stop_the_run unreadable_world no_args
              (Raise (OtherException "FileNotFoundError") "settings.yaml"))
    as (evs & Hrun & _); [intros m Hm; reflexivity | reflexivity |].
  rewrite Hrun. vm_compute in Hrun. injection Hrun as Hevs.
  simpl. by rewrite <- Hevs.
Defined.

(** What is logged when the import of an extension module fails. *)
Definition import_error_log (e : exn) : list event :=
  match exn_cls e with
  | ImportError => [LogException "ImportError"]
  | _ => if is_Exception e then [LogException ("Error " +:+ exn_msg e)] else []
  end.

Lemma import_extensions_fail w pre m post e :
  (forall x, x ∈ pre -> w_import_module w x = Ok tt) ->
  w_import_module w m = Raised e ->
  import_extensions w (pre ++ m :: post)
  = (map ImportModule pre ++ ImportModule m :: import_error_log e, Raised e).
Proof.
  intros Hpre Hm. induction pre as [|x pre IH]; cbn [app import_extensions].
  - unfold bind, emit. rewrite Hm. unfold import_error_log.
    by destruct e as [[] msg].
  - unfold bind, emit. rewrite (Hpre x) by (by left).
    rewrite IH; [done|]. intros y ?. apply Hpre. by right.
Qed.

(** X6. The extension modules are imported in the order given. When one of
    them fails to import, the failure is logged, the modules after it are
    not imported, the settings file is not read, and [run] raises the
    exception of the import without having deleted anything. *)
Theorem failing_extension_stops_the_run (w : World) (args : Args)
    (pre post : list string) (m : string) (e : exn) :
  ext args = Some (pre ++ m :: post) ->
  (forall x, x ∈ pre -> w_import_module w x = Ok tt) ->
  w_import_module w m = Raised e ->
  run w args
  = (before_args w
       ++ (if truthy_str (working_dir args)
           then [Chdir (default "" (working_dir args))] else [])
       ++ map ImportModule pre ++ ImportModule m :: import_error_log e,
     Raised e).
Proof.
  intros Hext Hpre Hm.
  assert (handle_standard_args w new_whale args
          = ((if truthy_str (working_dir args)
              then [Chdir (default "" (working_dir args))] else [])
               ++ map ImportModule pre ++ ImportModule m :: import_error_log e,
             Raised e)) as Hh.
  { unfold handle_standard_args.
    eapply (bind_eq _ _ (if truthy_str (working_dir args)
                         then [Chdir (default "" (working_dir args))] else [])
              tt); [by destruct (truthy_str (working_dir args)) | cbv beta].
    rewrite Hext.
    change (default [] (Some (pre ++ m :: post))) with (pre ++ m :: post).
    assert (truthy_list (Some (pre ++ m :: post)) = true) as ->
      by (by destruct pre).
    rewrite (import_extensions_fail w pre m post e Hpre Hm). reflexivity. }
  rewrite run_unfold, startup_unfold, Hh. reflexivity.
Qed.

Definition picky_world : World :=
  {| w_preload_injectables := true;
     w_import_module :=
       fun name => if String.eqb name "broken_ext"
                   then Raised (Raise ImportError "No module named 'broken_ext'")
                   else Ok tt;
     w_parse_args := fun _ => mkFileSystem ["configs"] None "pipeline.h5"
                                "settings.yaml";
     w_read_settings := fun _ => Ok (None, sample_settings);
     w_configs_mp_exists := false;
     w_log_file_path := fun name => "output/log/" +:+ name;
     w_np_libraries := fun _ => None;
     w_now := fun n => 60 * Z.of_nat n;
     w_whale_run := fun models _ => mkSimulation models None;
     w_run_multiprocess := fun s => mkSimulation (s_models s) None;
     w_is_open := false |}.

Definition with_ext (exts : list string) : Args :=
  {| working_dir := None; config := None; output := None; data := None;
     resume := None; pipeline := None; settings_file := None;
     chunk_size := None; chunk_training_mode := None;
     households_sample_size := None; fast := false; ext := Some exts;
     multiprocess := None |}.

Lemma failing_extension_stops_the_run_witness :
  run picky_world (with_ext ["my_ext"; "broken_ext"; "late_ext"])
  = ([ConfigLogger true; ImportModule "my_ext"; ImportModule "broken_ext";
      LogException "ImportError"],
     Raised (Raise ImportError "No module named 'broken_ext'")).
Proof.
  rewrite (failing_extension_stops_the_run picky_world
             (with_ext ["my_ext"; "broken_ext"; "late_ext"])
             ["my_ext"] ["late_ext"] "broken_ext"
             (Raise ImportError "No module named 'broken_ext'")).
  - reflexivity.
  - reflexivity.
  - intros x Hx. apply list_elem_of_singleton in Hx. rewrite Hx. reflexivity.
  - reflexivity.
Defined.

(** X7. An exception of the simulation that does not derive from
    [Exception], such as [KeyboardInterrupt], passes through [run] as it
    is: the time until the error is not reported, the error is not logged
    and no summary is written. *)
Theorem interrupt_is_not_reported (w : World) (args : Args) (evs : list event)
    (whale : Whale) (sidecar : bool) (t0 : Z) (e : exn) :
  startup w args = (evs, Ok (whale, sidecar, t0)) ->
  sim_error (the_simulation w whale) = Some e ->
  is_Exception e = false ->
  run w args = (evs ++ simulation_events w whale, Raised e)
  /\ no_summary (run w args).1
  /\ (forall msg z, PrintElapsedTime (Some msg) z ∉ (run w args).1)
  /\ (forall msg, LogException msg ∉ simulation_events w whale).
Proof.
  intros Hs Hsim He.
  assert (run w args = (evs ++ simulation_events w whale, Raised e)) as Hrun
    by (by rewrite run_unfold, Hs, guarded_unfold, Hsim, He).
  pose proof (startup_events w args) as Hev. rewrite Hs in Hev. cbn [fst] in Hev.
  destruct (startup_deletions w args evs whale sidecar t0 [] Hs)
    as (_ & _ & Hsum & _).
  assert (forall x, x ∈ simulation_events w whale ->
                    (exists msg, x = LogInfo msg) \/ is_step x = true) as Hsimev.
  { unfold simulation_events. intros x [->|Hx]%elem_of_cons; [eauto|].
    right. apply list_elem_of_fmap in Hx as (n & -> & _). done. }
  split; [exact Hrun|]. rewrite Hrun. cbn [fst]. split; [|split].
  - unfold no_summary in *.
    by rewrite forallb_app, Hsum, (simulation_events_no_summary w whale).
  - intros msg z [Hin|Hin]%elem_of_app.
    + apply list_elem_of_In in Hin.
      by pose proof (proj1 (forallb_forall _ _) Hev _ Hin).
    + by destruct (Hsimev _ Hin) as [[? ?]|?].
  - intros msg Hin. by destruct (Hsimev _ Hin) as [[? ?]|?].
Qed.

Definition interrupted_world : World :=
  world_with sample_settings
    (fun models => mkSimulation (take 1 models)
                     (Some (Raise KeyboardInterrupt ""))).

Lemma interrupt_is_not_reported_witness :
  (run interrupted_world no_args).2 = Raised (Raise KeyboardInterrupt "")
  /\ no_summary (run interrupted_world no_args).1.
Proof.
  destruct (interrupt_is_not_reported interrupted_world no_args
              (startup interrupted_world no_args).1 sample_whale false 0
              (Raise KeyboardInterrupt ""))
    as (Hrun & Hsum & _);
    [vm_compute; reflexivity | reflexivity | reflexivity |].
  split; [by rewrite Hrun | exact Hsum].
Defined.

Definition is_closing (e : event) : bool :=
  match e with CleanupPipeline | ClosePipeline => true | _ => false end.

Definition is_stop (e : event) : bool :=
  match e with StopMemorySidecar => true | _ => false end.

Definition is_start (e : event) : bool :=
  match e with StartMemorySidecar _ => true | _ => false end.

Lemma startup_no_closing w args :
  filter (fun e => is_closing e = true) (startup w args).1 = []
  /\ filter (fun e => is_stop e = true) (startup w args).1 = []
  /\ LogGlobalHwm ∉ (startup w args).1.
Proof.
  pose proof (startup_events w args) as Hev.
  assert (forall e, is_startup_event e = true ->
                    is_closing e = false /\ is_stop e = false) as Hno.
  { intros e. by destruct e. }
  split; [|split].
  - apply (filter_none _ _ _ (fun e He => proj1 (Hno e He)) Hev).
  - apply (filter_none _ _ _ (fun e He => proj2 (Hno e He)) Hev).
  - intros Hin%list_elem_of_In.
    by pose proof (proj1 (forallb_forall _ _) Hev _ Hin).
Qed.

Lemma simulation_no_closing w whale :
  filter (fun e => is_closing e = true) (simulation_events w whale) = []
  /\ filter (fun e => is_stop e = true) (simulation_events w whale) = [].
Proof.
  unfold simulation_events.
  rewrite !filter_cons_False by done.
  by induction (sim_steps (the_simulation w whale)).
Qed.

(** X8. When a multiprocess simulation returns but has left the pipeline
    open, [run] fails with an [AssertionError]: the error is reported like
    any other, the pipeline is not cleaned up even under
    [cleanup_pipeline_after_run], nothing is summarised and the process
    ends with status 1. *)
Theorem open_pipeline_fails_the_run (w : World) (args : Args)
    (evs : list event) (whale : Whale) (sidecar : bool) (t0 : Z) :
  startup w args = (evs, Ok (whale, sidecar, t0)) ->
  s_multiprocess (settings whale) = true ->
  sim_error (the_simulation w whale) = None ->
  w_is_open w = true ->
  run w args
  = (evs ++ simulation_events w whale
       ++ [PrintElapsedTime (Some "all models until this error")
             (w_now w 1 - w_now w 0);
           LogException "activitysim run encountered an unrecoverable error"],
     Raised (Raise AssertionError ""))
  /\ exit_status (run w args).2 = Some 1
  /\ filter (fun e => is_closing e = true) (run w args).1 = []
  /\ no_summary (run w args).1.
Proof.
  intros Hs Hmp Hsim Hopen.
  destruct (startup_deletions w args evs whale sidecar t0 [] Hs)
    as (_ & _ & Hsum & -> & _).
  destruct (startup_no_closing w args) as (Hclose & _).
  rewrite Hs in Hclose. cbn [fst] in Hclose.
  assert (run w args
          = (evs ++ simulation_events w whale ++ error_events w (w_now w 0),
             Raised (Raise AssertionError ""))) as Hrun.
  { by rewrite run_unfold, Hs, guarded_unfold, Hsim, Hmp, Hopen. }
  split; [exact Hrun|]. rewrite Hrun. cbn [fst snd].
  split; [done|]. split.
  - rewrite !filter_app, Hclose, (proj1 (simulation_no_closing w whale)). done.
  - unfold no_summary in *.
    by rewrite !forallb_app, Hsum, (simulation_events_no_summary w whale).
Qed.

Definition mp_settings : Settings :=
  {| s_multiprocess := true;
     s_num_processes := Some 2;
     s_chunk_size := 0;
     s_chunk_training_mode := "disabled";
     s_households_sample_size := 0;
     s_resume_after := None;
     s_models := ["initialize_landuse"];
     s_memory_profile := false;
     s_rotate_logs := false;
     s_cleanup_trace_files_on_resume := false;
     s_cleanup_pipeline_after_run := true;
     s_log_settings := [];
     s_other_settings := None;
     s_extra := [] |}.

Definition open_world : World :=
  {| w_preload_injectables := true;
     w_import_module := fun _ => Ok tt;
     w_parse_args := fun _ => mkFileSystem ["configs"] None "pipeline.h5"
                                "settings.yaml";
     w_read_settings := fun _ => Ok (None, mp_settings);
     w_configs_mp_exists := false;
     w_log_file_path := fun name => "output/log/" +:+ name;
     w_np_libraries := fun _ => None;
     w_now := fun n => 60 * Z.of_nat n;
     w_whale_run := fun models _ => mkSimulation models None;
     w_run_multiprocess := fun s => mkSimulation (s_models s) None;
     w_is_open := true |}.

Definition open_whale : Whale :=
  Eval vm_compute in
    match (startup open_world no_args).2 with
    | Ok (whale, _, _) => whale
    | Raised _ => new_whale
    end.

Lemma open_pipeline_fails_the_run_witness :
  (run open_world no_args).2 = Raised (Raise AssertionError "")
  /\ exit_status (run open_world no_args).2 = Some 1
  /\ filter (fun e => is_closing e = true) (run open_world no_args).1 = [].
Proof.
  destruct (open_pipeline_fails_the_run open_world no_args
              (startup open_world no_args).1 open_whale false 0)
    as (Hrun & Hexit & Hclose & _);
    [vm_compute; reflexivity | reflexivity | reflexivity | reflexivity |].
  split; [by rewrite Hrun|]. split; [exact Hexit | exact Hclose].
Defined.

Lemma filter_starts w args evs whale sidecar t0 :
  startup w args = (evs, Ok (whale, sidecar, t0)) ->
  filter (fun e => is_start e = true) evs
  = if sidecar
    then [StartMemorySidecar (w_log_file_path w "memory_profile.csv")] else [].
Proof.
  rewrite startup_unfold.
  pose proof (handle_standard_args_events w new_whale args) as Hev.
  destruct (handle_standard_args w new_whale args) as [evsh [whale'|e]];
    [|done].
  intros [= <- <- <- <-]. cbn [fst] in Hev.
  rewrite !filter_app.
  rewrite (filter_none is_start is_args_event evsh) by (done || by intros []).
  rewrite (filter_none is_start (fun e => negb (is_start e))
             (after_cleanup w whale'))
    by (by intros [] || by apply after_cleanup_all).
  assert (filter (fun e => is_start e = true) (before_args w) = []) as ->
    by (unfold before_args; by destruct (w_preload_injectables w)).
  assert (filter (fun e => is_start e = true) (cleanup_deletions w whale') = [])
    as ->.
  { unfold cleanup_deletions.
    by destruct (truthy_str (s_resume_after (settings whale'))),
         (s_cleanup_trace_files_on_resume (settings whale')). }
  unfold before_cleanup.
  by destruct (s_rotate_logs (settings whale')), (sidecar_started whale').
Qed.

(** X9. The memory sidecar is started, once and during start-up, exactly
    when memory profiling is on and the run is not a multiprocess run. A
    run that finishes stops it once, as its last event, exactly when it
    was started; a run whose simulation ends in an exception never stops
    it. *)
Theorem memory_sidecar_lifetime (w : World) (args : Args) (evs : list event)
    (whale : Whale) (sidecar : bool) (t0 : Z) :
  startup w args = (evs, Ok (whale, sidecar, t0)) ->
  sidecar = s_memory_profile (settings whale)
            && negb (s_multiprocess (settings whale))
  /\ filter (fun e => is_start e = true) (run w args).1
     = (if sidecar
        then [StartMemorySidecar (w_log_file_path w "memory_profile.csv")]
        else [])
  /\ (sim_error (the_simulation w whale) = None ->
      (s_multiprocess (settings whale) = true -> w_is_open w = false) ->
      exists body,
        run w args
        = (body ++ (if sidecar then [StopMemorySidecar] else []), Ok 0)
        /\ filter (fun e => is_stop e = true) body = [])
  /\ (forall e, sim_error (the_simulation w whale) = Some e ->
                filter (fun e => is_stop e = true) (run w args).1 = []).
Proof.
  intros Hs.
  destruct (startup_deletions w args evs whale sidecar t0 [] Hs)
    as (_ & _ & _ & _ & Hsc).
  pose proof (filter_starts w args evs whale sidecar t0 Hs) as Hstart.
  destruct (startup_no_closing w args) as (_ & Hstop & _).
  rewrite Hs in Hstop. cbn [fst] in Hstop.
  destruct (simulation_no_closing w whale) as [_ Hsimstop].
  assert (filter (fun e => is_start e = true) (simulation_events w whale) = [])
    as Hsimstart.
  { unfold simulation_events. rewrite filter_cons_False by done.
    by induction (sim_steps (the_simulation w whale)). }
  assert (filter (fun e => is_start e = true) (closing_events whale) = []
          /\ filter (fun e => is_stop e = true) (closing_events whale) = [])
    as [Hcstart Hcstop].
  { unfold closing_events.
    by destruct (s_multiprocess (settings whale)),
         (s_cleanup_pipeline_after_run (settings whale)). }
  split; [exact Hsc|]. split; [|split].
  - rewrite run_unfold, Hs, guarded_unfold.
    destruct (sim_error (the_simulation w whale)) as [e|].
    + destruct (is_Exception e); cbn [fst];
        rewrite !filter_app, Hstart, Hsimstart, ?app_nil_r; done.
    + destruct (s_multiprocess (settings whale) && w_is_open w);
        cbn [fst is_Exception exn_cls];
        rewrite !filter_app, Hstart, Hsimstart, ?Hcstart, ?app_nil_r;
        [done|]. by destruct sidecar.
  - intros Hsim Hopen.
    assert (s_multiprocess (settings whale) && w_is_open w = false) as Hno.
    { destruct (s_multiprocess (settings whale)); [by rewrite Hopen | done]. }
    exists (evs ++ (simulation_events w whale ++ closing_events whale)
              ++ summary_events
              ++ [PrintElapsedTime (Some "all models") (w_now w 1 - t0)]).
    split.
    + rewrite run_unfold, Hs, guarded_unfold, Hsim, Hno.
      unfold final_events. by rewrite <- !app_assoc.
    + by rewrite !filter_app, Hstop, Hsimstop, Hcstop.
  - intros e Hsim. rewrite run_unfold, Hs, guarded_unfold, Hsim.
    destruct (is_Exception e); cbn [fst];
      by rewrite !filter_app, Hstop, Hsimstop.
Qed.

Definition profiling_settings : Settings :=
  {| s_multiprocess := false;
     s_num_processes := None;
     s_chunk_size := 0;
     s_chunk_training_mode := "disabled";
     s_households_sample_size := 0;
     s_resume_after := None;
     s_models := ["initialize_landuse"];
     s_memory_profile := true;
     s_rotate_logs := false;
     s_cleanup_trace_files_on_resume := false;
     s_cleanup_pipeline_after_run := false;
     s_log_settings := [];
     s_other_settings := None;
     s_extra := [] |}.

Definition profiling_world : World :=
  world_with profiling_settings (fun models => mkSimulation models None).

Definition profiling_whale : Whale :=
  Eval vm_compute in
    match (startup profiling_world no_args).2 with
    | Ok (whale, _, _) => whale
    | Raised _ => new_whale
    end.

Lemma memory_sidecar_lifetime_witness :
  exists body,
    run profiling_world no_args = (body ++ [StopMemorySidecar], Ok 0)
    /\ filter (fun e => is_stop e = true) body = []
    /\ filter (fun e => is_start e = true) (run profiling_world no_args).1
       = [StartMemorySidecar "output/log/memory_profile.csv"].
Proof.
  destruct (memory_sidecar_lifetime profiling_world no_args
              (startup profiling_world no_args).1 profiling_whale true 0)
    as (_ & Hstart & Hfin & _); [vm_compute; reflexivity|].
  destruct Hfin as (body & Hrun & Hstop); [reflexivity | discriminate |].
  exists body. split; [exact Hrun|]. split; [exact Hstop | exact Hstart].
Defined.

(** X10. A single-process run that finishes closes the pipeline once,
    after the last step: it cleans the pipeline up under
    [cleanup_pipeline_after_run] and closes it otherwise. A multiprocess
    run that finishes never closes it and cleans it up only under that
    setting. A run whose simulation ends in an exception does neither. *)
Theorem pipeline_is_closed_once (w : World) (args : Args) (evs : list event)
    (whale : Whale) (sidecar : bool) (t0 : Z) :
  startup w args = (evs, Ok (whale, sidecar, t0)) ->
  (sim_error (the_simulation w whale) = None ->
   s_multiprocess (settings whale) = false ->
   filter (fun e => is_closing e = true) (run w args).1
   = [if s_cleanup_pipeline_after_run (settings whale)
      then CleanupPipeline else ClosePipeline])
  /\ (sim_error (the_simulation w whale) = None ->
      s_multiprocess (settings whale) = true -> w_is_open w = false ->
      filter (fun e => is_closing e = true) (run w args).1
      = if s_cleanup_pipeline_after_run (settings whale)
        then [CleanupPipeline] else [])
  /\ (forall e, sim_error (the_simulation w whale) = Some e ->
                filter (fun e => is_closing e = true) (run w args).1 = []).
Proof.
  intros Hs.
  destruct (startup_no_closing w args) as (Hclose & _).
  rewrite Hs in Hclose. cbn [fst] in Hclose.
  destruct (simulation_no_closing w whale) as [Hsimclose _].
  split; [|split].
  - intros Hsim Hmp. rewrite run_unfold, Hs, guarded_unfold, Hsim, Hmp.
    cbn [andb fst]. rewrite !filter_app, Hclose, Hsimclose.
    unfold closing_events. rewrite Hmp.
    by destruct (s_cleanup_pipeline_after_run (settings whale)), sidecar.
  - intros Hsim Hmp Hopen.
    rewrite run_unfold, Hs, guarded_unfold, Hsim, Hmp, Hopen.
    cbn [andb fst]. rewrite !filter_app, Hclose, Hsimclose.
    unfold closing_events. rewrite Hmp.
    by destruct (s_cleanup_pipeline_after_run (settings whale)), sidecar.
  - intros e Hsim. rewrite run_unfold, Hs, guarded_unfold, Hsim.
    destruct (is_Exception e); cbn [fst];
      by rewrite !filter_app, Hclose, Hsimclose.
Qed.

Lemma pipeline_is_closed_once_witness :
  filter (fun e => is_closing e = true) (run sample_world no_args).1
  = [ClosePipeline]
  /\ filter (fun e => is_closing e = true) (run failing_world no_args).1 = [].
Proof.
  split.
  - destruct (pipeline_is_closed_once sample_world no_args
                (startup sample_world no_args).1 sample_whale false 0)
      as (H & _); [vm_compute; reflexivity|].
    apply H; reflexivity.
  - destruct (pipeline_is_closed_once failing_world no_args
                (startup failing_world no_args).1 sample_whale false 0)
      as (_ & _ & H); [vm_compute; reflexivity|].
    apply (H (Raise RuntimeError "no alternatives available")). reflexivity.
Defined.

End RunDetails.

(** * run.py: [validate_injectable] *)

Module Injectables.

(** What an injectable that names directories holds: one path or several. *)
Inductive paths :=
| OnePath (p : string)
| ManyPaths (ps : list string).

(** The parts of [os] and [os.path] that [validate_injectable] calls: the
    absolute form of a path, and what creating the directory at a path
    that is not empty does to the set of paths that exist. The operating
    system may refuse (permissions, a file in the way), and it decides
    which directories above the path it creates along with it. *)
Record Os := mkOs {
  abspath : string -> string;
  mkdir : string -> gset string -> outcome unit * gset string
}.

(** [os.path.exists(dir_path)]: the empty path never exists. *)
Definition path_exists (dir_path : string) (existing : gset string) : bool :=
  negb (String.eqb dir_path "") && bool_decide (dir_path ∈ existing).

Definition file_not_found : exn :=
  Raise (OtherException "FileNotFoundError")
    "[Errno 2] No such file or directory: ''".

(** [os.makedirs(dir_path)]: the empty path cannot be created. *)
Definition makedirs (os : Os) (dir_path : string) (existing : gset string)
  : outcome unit * gset string :=
  if String.eqb dir_path "" then (Raised file_not_found, existing)
  else mkdir os dir_path existing.

(** [sys.exit(message)] *)
Definition sys_exit {A} (message : string) : outcome A :=
  Raised (Raise SystemExit message).

Definition usage (name : string) : string :=
  "Error(" +:+ name
    +:+ "): please specify either a --working_dir containing 'configs', 'data', and 'output' folders or all three of --config, --data, and --output".

(** The loop over [dir_paths]; the paths that exist afterwards come with
    the outcome. *)
Fixpoint check_dirs (os : Os) (name : string) (make_if_missing : bool)
    (dir_paths : list string) (existing : gset string)
  : outcome unit * gset string :=
  match dir_paths with
  | [] => (Ok tt, existing)
  | dir_path :: dir_paths' =>
      if path_exists dir_path existing then
        check_dirs os name make_if_missing dir_paths' existing
      else if make_if_missing then
        match makedirs os dir_path existing with
        | (Ok _, existing') =>
            check_dirs os name make_if_missing dir_paths' existing'
        | (Raised e, existing') => (Raised e, existing')
        end
      else
        (sys_exit ("Could not find " +:+ name +:+ " '"
                     +:+ abspath os dir_path +:+ "'"),
         existing)
  end.

(** [validate_injectable(whale, name, make_if_missing)], given what
    [whale.context.get_formatted(name)] yields. Only a [RuntimeError] of
    the lookup is caught. *)
Definition validate_injectable (os : Os) (get_formatted : outcome paths)
    (name : string) (make_if_missing : bool) (existing : gset string)
  : outcome (list string) * gset string :=
  match get_formatted with
  | Raised e =>
      match exn_cls e with
      | RuntimeError => (sys_exit (usage name), existing)
      | _ => (Raised e, existing)
      end
  | Ok found =>
      let dir_paths :=
        match found with
        | OnePath p => [p]
        | ManyPaths ps => ps
        end in
      match check_dirs os name make_if_missing dir_paths existing with
      | (Ok _, existing') => (Ok dir_paths, existing')
      | (Raised e, existing') => (Raised e, existing')
      end
  end.

End Injectables.

Module InjectablesProps.
Import Injectables.

Definition dir_paths_of (found : paths) : list string :=
  match found with
  | OnePath p => [p]
  | ManyPaths ps => ps
  end.

(** What [os.makedirs] promises: it removes nothing, and when it returns
    the directory is there. *)
Definition lawful (os : Os) : Prop :=
  forall p existing,
    existing ⊆ (mkdir os p existing).2
    /\ ((mkdir os p existing).1 = Ok tt -> p ∈ (mkdir os p existing).2).

Lemma path_exists_true p existing :
  path_exists p existing = true <-> p <> "" /\ p ∈ existing.
Proof.
  unfold path_exists. rewrite andb_true_iff, negb_true_iff.
  rewrite bool_decide_eq_true. rewrite String.eqb_neq. done.
Qed.

Lemma check_dirs_make os name dir_paths existing :
  lawful os ->
  existing ⊆ (check_dirs os name true dir_paths existing).2
  /\ ((check_dirs os name true dir_paths existing).1 = Ok tt ->
      forall p, p ∈ dir_paths ->
        path_exists p (check_dirs os name true dir_paths existing).2 = true)
  /\ ((forall p ex, p ∈ dir_paths ->
         p <> "" /\ (mkdir os p ex).1 = Ok tt) ->
      (check_dirs os name true dir_paths existing).1 = Ok tt).
Proof.
  intros Hos. revert existing.
  induction dir_paths as [|d ds IH]; intros existing; simpl.
  - split; [done|]. split; [|done]. intros _ p H. inversion H.
  - destruct (path_exists d existing) eqn:Hd.
    + destruct (IH existing) as (Hsub & Hall & Hok).
      split; [done|]. split.
      * intros Hr p [->|Hp]%elem_of_cons; [|by apply Hall].
        apply path_exists_true in Hd as [Hne Hin].
        apply path_exists_true. split; [done | by apply Hsub].
      * intros Hgood. apply Hok. intros p ex Hp. apply Hgood. by right.
    + unfold makedirs. destruct (String.eqb_spec d "") as [->|Hne].
      * simpl. split; [done|]. split; [done|].
        intros Hgood. by destruct (Hgood "" existing) as [? _]; [left|].
      * destruct (Hos d existing) as [Hkeep Hmade].
        destruct (mkdir os d existing) as [[[]|e] ex'] eqn:Hmk; simpl in *.
        -- destruct (IH ex') as (Hsub & Hall & Hok).
           split; [by etrans|]. split.
           ++ intros Hr p [->|Hp]%elem_of_cons; [|by apply Hall].
              apply path_exists_true. split; [done|]. apply Hsub.
              by apply Hmade.
           ++ intros Hgood. apply Hok. intros p ex Hp. apply Hgood.
              by right.
        -- split; [done|]. split; [done|].
           intros Hgood. destruct (Hgood d existing) as [_ H]; [by left|].
           by rewrite Hmk in H.
Qed.

Lemma check_dirs_empty_path os name pre post existing :
  (forall q, q ∈ pre -> path_exists q existing = true) ->
  check_dirs os name true (pre ++ "" :: post) existing
  = (Raised file_not_found, existing).
Proof.
  induction pre as [|q pre IH]; intros Hpre; simpl.
  - done.
  - rewrite (Hpre q) by (by left). apply IH. intros q' ?. apply Hpre.
    by right.
Qed.

Lemma check_dirs_keep os name dir_paths existing :
  (check_dirs os name false dir_paths existing).2 = existing
  /\ ((forall p, p ∈ dir_paths -> path_exists p existing = true) ->
      check_dirs os name false dir_paths existing = (Ok tt, existing))
  /\ (forall pre p post,
        dir_paths = pre ++ p :: post ->
        (forall q, q ∈ pre -> path_exists q existing = true) ->
        path_exists p existing = false ->
        check_dirs os name false dir_paths existing
        = (sys_exit ("Could not find " +:+ name +:+ " '"
                       +:+ abspath os p +:+ "'"), existing)).
Proof.
  induction dir_paths as [|d ds (IH1 & IH2 & IH3)]; simpl.
  - split; [done|]. split; [done|]. intros [] ? ? [=].
  - destruct (path_exists d existing) eqn:Hd.
    + split; [done|]. split.
      * intros H. apply IH2. intros q ?. apply H. by right.
      * intros [|q pre] p post [= -> ->] Hpre Hp; [congruence|].
        apply (IH3 pre p post eq_refl); [|done].
        intros q' ?. apply Hpre. by right.
    + split; [done|]. split.
      * intros H. rewrite (H d) in Hd by (by left). done.
      * intros [|q pre] p post [= -> ->] Hpre Hp; [done|].
        rewrite (Hpre q) in Hd by (by left). done.
Qed.

(** X11. With [make_if_missing], the injectable found, and an operating
    system whose [os.makedirs] removes nothing and leaves the directory in
    place when it returns: nothing that existed before is lost; when
    [validate_injectable] returns, it returns the directories of the
    injectable (a single path as a list of one) and each of them exists;
    it does return when the operating system agrees to create each of
    them and none is the empty path; and an empty path that is reached
    raises [FileNotFoundError], after which no further directory is
    made. *)
Theorem missing_directories_are_made (os : Os) (found : paths) (name : string)
    (existing : gset string) :
  lawful os ->
  let res := validate_injectable os (Ok found) name true existing in
  existing ⊆ res.2
  /\ (forall ds, res.1 = Ok ds ->
        ds = dir_paths_of found
        /\ forall p, p ∈ ds -> path_exists p res.2 = true)
  /\ ((forall p ex, p ∈ dir_paths_of found ->
         p <> "" /\ (mkdir os p ex).1 = Ok tt) ->
      res.1 = Ok (dir_paths_of found))
  /\ (forall pre post,
        dir_paths_of found = pre ++ "" :: post ->
        (forall q, q ∈ pre -> path_exists q existing = true) ->
        res = (Raised file_not_found, existing)).
Proof.
  intros Hos res. subst res. unfold validate_injectable.
  fold (dir_paths_of found).
  destruct (check_dirs_make os name (dir_paths_of found) existing Hos)
    as (Hsub & Hall & Hok).
  split; [|split; [|split]].
  - by destruct (check_dirs os name true (dir_paths_of found) existing)
      as [[[]|e] ex'].
  - destruct (check_dirs os name true (dir_paths_of found) existing)
      as [[[]|e] ex']; simpl in *; [|done].
    intros ds [= <-]. split; [done|]. by apply Hall.
  - intros Hgood. specialize (Hok Hgood).
    destruct (check_dirs os name true (dir_paths_of found) existing)
      as [[[]|e] ex']; simpl in *; done.
  - intros pre post Hsplit Hpre.
    by rewrite Hsplit, (check_dirs_empty_path os name pre post existing Hpre).
Qed.

(** An operating system that creates what it is asked for, except below
    [/proc]. *)
Definition sample_os : Os :=
  {| abspath := fun p => "/home/model/" +:+ p;
     mkdir := fun p existing =>
       if String.prefix "/proc" p
       then (Raised (Raise (OtherException "PermissionError") p), existing)
       else (Ok tt, {[p]} ∪ existing) |}.

Lemma sample_os_lawful : lawful sample_os.
Proof.
  intros p existing. simpl. destruct (String.prefix "/proc" p); simpl.
  - split; [done | discriminate].
  - split; [set_solver | set_solver].
Qed.

Lemma missing_directories_are_made_witness :
  validate_injectable sample_os (Ok (ManyPaths ["output"; "output/log"]))
    "output_dir" true {["output"]}
  = (Ok ["output"; "output/log"], {["output/log"]} ∪ {["output"]})
  /\ validate_injectable sample_os (Ok (ManyPaths ["output"; ""; "cache"]))
       "output_dir" true {["output"]}
     = (Raised file_not_found, {["output"]}).
Proof.
  split.
  - destruct (missing_directories_are_made sample_os
                (ManyPaths ["output"; "output/log"]) "output_dir"
                {["output"]} sample_os_lawful) as (_ & _ & H & _).
    apply injective_projections; [|reflexivity].
    apply H. intros p ex Hp. split.
    + intros ->. revert Hp. apply (bool_decide_unpack _). vm_compute. exact I.
    + apply elem_of_cons in Hp as [->|Hp]; [reflexivity|].
      apply list_elem_of_singleton in Hp as ->. reflexivity.
  - destruct (missing_directories_are_made sample_os
                (ManyPaths ["output"; ""; "cache"]) "output_dir"
                {["output"]} sample_os_lawful) as (_ & _ & _ & H).
    apply (H ["output"] ["cache"]); [reflexivity|].
    intros q Hq. apply list_elem_of_singleton in Hq as ->.
    apply path_exists_true. split; [discriminate|]. set_solver.
Defined.

(** X12. Without [make_if_missing], [validate_injectable] creates nothing.
    It returns the directories when all of them exist; otherwise it exits
    with a message that names the first directory that does not exist.
    When the lookup of the injectable raises a [RuntimeError] it exits
    with the message on [--working_dir], whether directories would be made
    or not; any other exception of the lookup, such as the
    [KeyNotInContextError] of a key that is missing, is not caught and
    leaves [validate_injectable] as it is. *)
Theorem directories_are_checked (os : Os) (name : string)
    (existing : gset string) :
  (forall lookup, (validate_injectable os lookup name false existing).2 = existing)
  /\ (forall found,
        (forall p, p ∈ dir_paths_of found -> path_exists p existing = true) ->
        validate_injectable os (Ok found) name false existing
        = (Ok (dir_paths_of found), existing))
  /\ (forall found pre p post,
        dir_paths_of found = pre ++ p :: post ->
        (forall q, q ∈ pre -> path_exists q existing = true) ->
        path_exists p existing = false ->
        validate_injectable os (Ok found) name false existing
        = (sys_exit ("Could not find " +:+ name +:+ " '"
                       +:+ abspath os p +:+ "'"), existing))
  /\ (forall msg make_if_missing,
        validate_injectable os (Raised (Raise RuntimeError msg)) name
          make_if_missing existing
        = (sys_exit
             ("Error(" +:+ name
                +:+ "): please specify either a --working_dir containing 'configs', 'data', and 'output' folders or all three of --config, --data, and --output"),
           existing))
  /\ (forall e make_if_missing,
        exn_cls e <> RuntimeError ->
        validate_injectable os (Raised e) name make_if_missing existing
        = (Raised e, existing)).
Proof.
  split; [|split; [|split; [|split]]].
  - intros [found|e]; unfold validate_injectable.
    + fold (dir_paths_of found).
      destruct (check_dirs_keep os name (dir_paths_of found) existing)
        as (H & _).
      by destruct (check_dirs os name false (dir_paths_of found) existing)
        as [[] ?].
    + by destruct e as [[] ?].
  - intros found Hall. unfold validate_injectable. fold (dir_paths_of found).
    destruct (check_dirs_keep os name (dir_paths_of found) existing)
      as (_ & H & _).
    by rewrite H.
  - intros found pre p post Hsplit Hpre Hp.
    unfold validate_injectable. fold (dir_paths_of found).
    destruct (check_dirs_keep os name (dir_paths_of found) existing)
      as (_ & _ & H).
    by rewrite (H pre p post Hsplit Hpre Hp).
  - intros msg mk. reflexivity.
  - intros [cls msg] mk Hcls. simpl in Hcls. unfold validate_injectable.
    simpl. by destruct cls.
Qed.

Lemma directories_are_checked_witness :
  validate_injectable sample_os (Ok (ManyPaths ["configs"; "configs_mp"]))
    "configs_dir" false {["configs"; "data"]}
  = (sys_exit "Could not find configs_dir '/home/model/configs_mp'",
     {["configs"; "data"]})
  /\ validate_injectable sample_os
       (Raised (Raise KeyNotInContextError "configs_dir"))
       "configs_dir" true {["configs"; "data"]}
     = (Raised (Raise KeyNotInContextError "configs_dir"),
        {["configs"; "data"]}).
Proof.
  destruct (directories_are_checked sample_os "configs_dir" {["configs"; "data"]})
    as (_ & _ & H & _ & Hother).
  split.
  - rewrite (H (ManyPaths ["configs"; "configs_mp"]) ["configs"] "configs_mp" []).
    + reflexivity.
    + reflexivity.
    + intros q Hq. apply list_elem_of_singleton in Hq. rewrite Hq.
      vm_compute. reflexivity.
    + vm_compute. reflexivity.
  - apply Hother. discriminate.
Defined.

End InjectablesProps.

(** * trips.py: more on [bad_trips] *)

Module TripsDetails.
Import Trips Facts TripsProps.

(** X13. For a trips table with exactly one column labelled [bad], of
    dtype bool, the table of bad
    trips has the columns and the index name of [trips], its rows are rows
    of [trips] in their order, all of them bad, and taking the bad trips of
    it again changes nothing. When no trip is bad it has no rows but still
    the columns of [trips], unlike the frame without columns that a trips
    table without the column gives. *)
Theorem bad_trips_is_a_selection (trips : DataFrame) (i : nat) :
  col_positions "bad" (df_columns trips) = [(i, DBool)] ->
  exists bad,
    bad_trips trips = Ok bad
    /\ df_columns bad = df_columns trips
    /\ df_index_name bad = df_index_name trips
    /\ df_rows bad `sublist_of` df_rows trips
    /\ (forall r, r ∈ df_rows bad -> truthy (cell_at i r) = true)
    /\ bad_trips bad = Ok bad
    /\ ((forall r, r ∈ df_rows trips -> truthy (cell_at i r) = false) ->
        df_rows bad = [] /\ bad <> empty_frame).
Proof.
  intros Hpos. eexists. split; [by apply bad_trips_mask|]. cbn.
  split; [done|]. split; [done|]. split; [apply sublist_filter|].
  split; [by intros r [? ?]%list_elem_of_filter|]. split.
  - rewrite (bad_trips_mask _ i) by done. cbn. do 2 f_equal.
    by apply list_filter_filter_r.
  - intros Hgood.
    assert (filter (fun r => truthy (cell_at i r) = true) (df_rows trips) = [])
      as ->.
    { induction (df_rows trips) as [|r rows IH]; [done|].
      rewrite filter_cons_False.
      - apply IH. intros r' ?. apply Hgood. by right.
      - rewrite (Hgood r) by (by left). done. }
    split; [done|]. intros [= _ Hcols]. by rewrite Hcols in Hpos.
Qed.

Lemma bad_trips_is_a_selection_witness :
  exists bad,
    bad_trips sample_trips = Ok bad
    /\ bad_trips bad = Ok bad
    /\ df_rows bad `sublist_of` df_rows sample_trips.
Proof.
  destruct (bad_trips_is_a_selection sample_trips 1%nat)
    as (bad & H & _ & _ & Hsub & _ & Hidem & _); [reflexivity|].
  exists bad. split; [exact H|]. split; [exact Hidem | exact Hsub].
Defined.

End TripsDetails.

(** * composite_log.py: more on [run_step] *)

Module CompositeLogDetails.
Import CompositeLog Facts CompositeLogProps.

Definition reset : event := ResetProgress "composite timing and memory logs".

(** [run_step] once the four keys are found in the context. *)
Lemma run_step_shape (context : gmap string value)
    (files : gmap string (outcome DataFrame)) sharrow legacy tag archive_dir :
  context !! "sharrow" = Some sharrow -> sharrow <> VNone ->
  context !! "legacy" = Some legacy -> legacy <> VNone ->
  context !! "tag" = Some tag -> tag <> VNone ->
  context !! "archive_dir" = Some archive_dir -> archive_dir <> VNone ->
  let compares := selected_compares sharrow legacy in
  let dir := str archive_dir in
  run_step context files
  = bind (emit reset)
      (fun _ =>
         bind (lift (load files (timing_log dir) timing_block compares []))
           (fun timings =>
              bind (write_combined timings (combined_timing_log dir (str tag)))
                (fun _ =>
                   bind (lift (load files (mem_log dir) mem_block compares []))
                     (fun mems =>
                        write_combined mems
                          (combined_mem_log dir (str tag)))))).
Proof.
  intros Hs Hs' Hl Hl' Ht Ht' Ha Ha' compares dir. unfold run_step.
  rewrite (assert_key_ok _ _ _ Hs Hs'), (assert_key_ok _ _ _ Hl Hl'),
    (assert_key_ok _ _ _ Ht Ht'), (assert_key_ok _ _ _ Ha Ha').
  rewrite !bind_lift_ok.
  rewrite (get_formatted_ok _ _ _ Hs), (get_formatted_ok _ _ _ Hl),
    (get_formatted_ok _ _ _ Ht), (get_formatted_ok _ _ _ Ha).
  by rewrite !bind_lift_ok.
Qed.

(** X14. The four keys are looked up in the order [sharrow], [legacy],
    [tag], [archive_dir]. The first of them that is missing from the
    context, or that is there without a value, ends the step with the
    error that names it, before any log is read: nothing is written. *)
Theorem missing_key_stops_the_step (context : gmap string value)
    (files : gmap string (outcome DataFrame)) (pre post : list string)
    (key : string) :
  ["sharrow"; "legacy"; "tag"; "archive_dir"] = pre ++ key :: post ->
  (forall k, k ∈ pre -> exists v, context !! k = Some v /\ v <> VNone) ->
  (context !! key = None ->
   run_step context files = ([reset], Raised (Raise KeyNotInContextError key)))
  /\ (context !! key = Some VNone ->
      run_step context files
      = ([reset], Raised (Raise KeyInContextHasNoValueError key))).
Proof.
  intros Hkeys Hpre.
  assert (forall k, k ∈ pre -> assert_key_has_value context k = Ok tt) as Hok.
  { intros k Hk. destruct (Hpre k Hk) as (v & Hv & Hne).
    by apply (assert_key_ok _ _ v). }
  assert (forall (out : outcome unit),
            assert_key_has_value context key = out ->
            (forall x, out <> Ok x) ->
            run_step context files
            = ([reset], match out with Ok _ => Ok tt | Raised e => Raised e end))
    as Hrun.
  { intros out Hout Hbad. unfold run_step. rewrite bind_emit.
    revert Hout.
    destruct pre as [|p1 [|p2 [|p3 [|p4 pre]]]]; cbn [app] in Hkeys;
      simplify_eq; intros Hout.
    - rewrite Hout. destruct out as [x|e]; [by destruct (Hbad x)|done].
    - rewrite (Hok "sharrow") by (by left). rewrite bind_lift_ok, Hout.
      destruct out as [x|e]; [by destruct (Hbad x)|done].
    - rewrite (Hok "sharrow") by (by left).
      rewrite (Hok "legacy") by (right; by left).
      rewrite !bind_lift_ok, Hout.
      destruct out as [x|e]; [by destruct (Hbad x)|done].
    - rewrite (Hok "sharrow") by (by left).
      rewrite (Hok "legacy") by (right; by left).
      rewrite (Hok "tag") by (right; right; by left).
      rewrite !bind_lift_ok, Hout.
      destruct out as [x|e]; [by destruct (Hbad x)|done].
    - by destruct pre. }
  split; intros Hk.
  - rewrite (Hrun (Raised (Raise KeyNotInContextError key))); [done | | done].
    unfold assert_key_has_value. by rewrite Hk.
  - rewrite (Hrun (Raised (Raise KeyInContextHasNoValueError key)));
      [done | | done].
    unfold assert_key_has_value. by rewrite Hk.
Qed.

Lemma missing_key_stops_the_step_witness :
  run_step (<["sharrow" := VBool true]> (<["legacy" := VBool false]> ∅))
    CompositeLogProps.sample_files
  = ([reset], Raised (Raise KeyNotInContextError "tag")).
Proof.
  destruct (missing_key_stops_the_step
              (<["sharrow" := VBool true]> (<["legacy" := VBool false]> ∅))
              CompositeLogProps.sample_files ["sharrow"; "legacy"]
              ["archive_dir"] "tag") as [H _].
  - reflexivity.
  - intros k [->|[->|Hk]%elem_of_cons]%elem_of_cons.
    + exists (VBool true). split; [reflexivity | discriminate].
    + exists (VBool false). split; [reflexivity | discriminate].
    + inversion Hk.
  - apply H. reflexivity.
Defined.

(** *** The two stages of the step *)

(** A stage loads the logs of the selected modes and writes their
    combination when there is any. *)
Definition stage (files : gmap string (outcome DataFrame))
    (compares : list string) (path : string -> string)
    (block : DataFrame -> outcome Block) (out : string)
    (loaded : list (string * Block)) (w : list event) : Prop :=
  load files path block compares [] = Ok loaded
  /\ ((loaded = [] /\ w = [])
      \/ (loaded <> [] /\ exists c, concat loaded = Ok c /\ w = [ToCsv out c])).

Lemma loaded_labels_NoDup files compares path block rows loaded :
  (forall df b, block df = Ok b ->
     exists all_rows, rows df = Ok all_rows
                      /\ b_rows b = drop_duplicated all_rows) ->
  load files path block compares [] = Ok loaded ->
  forall t b, (t, b) ∈ loaded -> NoDup (block_labels b).
Proof.
  intros Hblock Hload.
  eapply (load_blocks files path block
            (fun _ b => NoDup (block_labels b))); [| |exact Hload].
  - intros t df b _ _ Hb. destruct (Hblock df b Hb) as (all_rows & _ & Hr).
    unfold block_labels. rewrite Hr. apply drop_duplicated_NoDup.
  - intros t b H. inversion H.
Qed.

Lemma write_combined_cases files compares path block rows out loaded :
  (forall df b, block df = Ok b ->
     exists all_rows, rows df = Ok all_rows
                      /\ b_rows b = drop_duplicated all_rows) ->
  load files path block compares [] = Ok loaded ->
  exists w, write_combined loaded out = (w, Ok tt)
            /\ stage files compares path block out loaded w.
Proof.
  intros Hblock Hload. unfold stage.
  destruct loaded as [|tb loaded].
  - exists []. split; [done|]. split; [done|]. by left.
  - destruct (concat_ok (tb :: loaded)) as [c Hc].
    { by eapply loaded_labels_NoDup. }
    exists [ToCsv out c]. split.
    + unfold write_combined. by rewrite Hc.
    + split; [done|]. right. split; [done|]. eauto.
Qed.

(** How [run_step] goes once the four keys are found: reading the timing
    logs fails; or the timing stage is done and reading the memory logs
    fails; or both stages are done. *)
Lemma run_step_cases (context : gmap string value)
    (files : gmap string (outcome DataFrame)) sharrow legacy tag archive_dir :
  context !! "sharrow" = Some sharrow -> sharrow <> VNone ->
  context !! "legacy" = Some legacy -> legacy <> VNone ->
  context !! "tag" = Some tag -> tag <> VNone ->
  context !! "archive_dir" = Some archive_dir -> archive_dir <> VNone ->
  let compares := selected_compares sharrow legacy in
  let dir := str archive_dir in
  (exists e,
     load files (timing_log dir) timing_block compares [] = Raised e
     /\ run_step context files = ([reset], Raised e))
  \/ (exists timings tw,
        stage files compares (timing_log dir) timing_block
          (combined_timing_log dir (str tag)) timings tw
        /\ ((exists e,
               load files (mem_log dir) mem_block compares [] = Raised e
               /\ run_step context files = (reset :: tw, Raised e))
            \/ (exists mems mw,
                  stage files compares (mem_log dir) mem_block
                    (combined_mem_log dir (str tag)) mems mw
                  /\ run_step context files = (reset :: tw ++ mw, Ok tt)))).
Proof.
  intros Hs Hs' Hl Hl' Ht Ht' Ha Ha' compares dir.
  rewrite (run_step_shape context files sharrow legacy tag archive_dir)
    by done.
  fold compares dir. rewrite bind_emit.
  destruct (load files (timing_log dir) timing_block compares [])
    as [timings|e] eqn:Hlt.
  - right. rewrite bind_lift_ok.
    destruct (write_combined_cases files compares (timing_log dir) timing_block
                timing_rows (combined_timing_log dir (str tag)) timings
                timing_block_rows Hlt) as (tw & Hw & Hst).
    exists timings, tw. split; [done|]. rewrite Hw. unfold bind at 1 2.
    destruct (load files (mem_log dir) mem_block compares [])
      as [mems|e] eqn:Hlm.
    + right. rewrite bind_lift_ok.
      destruct (write_combined_cases files compares (mem_log dir) mem_block
                  mem_rows (combined_mem_log dir (str tag)) mems
                  mem_block_rows Hlm) as (mw & Hw2 & Hst2).
      exists mems, mw. split; [done|]. by rewrite Hw2.
    + left. exists e. split; [done|]. rewrite bind_lift_raised. simpl.
      by rewrite app_nil_r.
  - left. exists e. split; [done|]. by rewrite bind_lift_raised.
Qed.

(** *** What the loops read *)

(** [os.path.exists(filename)] *)
Definition log_exists (files : gmap string (outcome DataFrame))
    (path : string -> string) (t : string) : Prop :=
  is_Some (files !! path t).

(** A log that is absent, or that is read and indexed without error. *)
Definition readable (files : gmap string (outcome DataFrame))
    (path : string -> string) (block : DataFrame -> outcome Block)
    (t : string) : Prop :=
  files !! path t = None
  \/ exists df b, files !! path t = Some (Ok df) /\ block df = Ok b.

(** A log that exists and that [pd.read_csv] or the column selection
    rejects with [e]. *)
Definition unreadable (files : gmap string (outcome DataFrame))
    (path : string -> string) (block : DataFrame -> outcome Block)
    (t : string) (e : exn) : Prop :=
  files !! path t = Some (Raised e)
  \/ exists df, files !! path t = Some (Ok df) /\ block df = Raised e.

Lemma dict_set_fresh {A} (d : list (string * A)) k v :
  k ∉ d.*1 -> dict_set d k v = d ++ [(k, v)].
Proof.
  induction d as [|[k' v'] d IH]; simpl; [done|].
  intros Hk. apply not_elem_of_cons in Hk as [Hne Hk].
  destruct (String.eqb k' k) eqn:Heq.
  - apply String.eqb_eq in Heq. congruence.
  - by rewrite IH.
Qed.

Lemma selected_compares_NoDup sharrow legacy :
  NoDup (selected_compares sharrow legacy).
Proof.
  unfold selected_compares.
  destruct (truthy sharrow), (truthy legacy); simpl;
    apply (bool_decide_unpack _); vm_compute; exact I.
Qed.

Section Reading.
Context (files : gmap string (outcome DataFrame)).
Context (path : string -> string) (block : DataFrame -> outcome Block).

Lemma load_ext files' compares acc :
  (forall t, t ∈ compares -> files !! path t = files' !! path t) ->
  load files path block compares acc = load files' path block compares acc.
Proof.
  revert acc. induction compares as [|t compares IH]; intros acc H; simpl.
  - done.
  - rewrite <- (H t) by (by left).
    destruct (files !! path t) as [[df|e]|]; simpl; [| done |].
    + destruct (block df) as [b|e]; simpl; [|done].
      apply IH. intros t' ?. apply H. by right.
    + apply IH. intros t' ?. apply H. by right.
Qed.

Lemma load_readable compares acc :
  (forall t, t ∈ compares -> readable files path block t) ->
  exists res, load files path block compares acc = Ok res.
Proof.
  revert acc. induction compares as [|t compares IH]; intros acc H; simpl.
  - eauto.
  - destruct (H t) as [Hn|(df & b & Hf & Hb)]; [by left | |].
    + rewrite Hn. apply IH. intros t' ?. apply H. by right.
    + rewrite Hf. simpl. rewrite Hb. simpl.
      apply IH. intros t' ?. apply H. by right.
Qed.

Lemma load_unreadable pre t post e acc :
  (forall t', t' ∈ pre -> readable files path block t') ->
  unreadable files path block t e ->
  load files path block (pre ++ t :: post) acc = Raised e.
Proof.
  revert acc. induction pre as [|t' pre IH]; intros acc Hpre Hbad; simpl.
  - destruct Hbad as [Hf|(df & Hf & Hb)]; rewrite Hf; simpl; [done|].
    by rewrite Hb.
  - destruct (Hpre t') as [Hn|(df & b & Hf & Hb)]; [by left | |].
    + rewrite Hn. apply IH; [|done]. intros t'' ?. apply Hpre. by right.
    + rewrite Hf. simpl. rewrite Hb. simpl.
      apply IH; [|done]. intros t'' ?. apply Hpre. by right.
Qed.

(** The keys of the loaded dict are the modes whose log exists, in the
    order of [compares]; its values are the blocks of these logs. *)
Lemma load_items compares :
  NoDup compares ->
  forall acc res,
    (forall t, t ∈ compares -> t ∉ acc.*1) ->
    load files path block compares acc = Ok res ->
    exists new,
      res = acc ++ new
      /\ new.*1 = filter (log_exists files path) compares
      /\ (forall t b, (t, b) ∈ new <->
            t ∈ compares
            /\ exists df, files !! path t = Some (Ok df) /\ block df = Ok b).
Proof.
  induction compares as [|t compares IH]; intros Hnd acc res Hacc; simpl.
  - intros [= <-]. exists []. rewrite app_nil_r. split; [done|].
    split; [done|]. intros t b. split.
    + intros H. inversion H.
    + intros [H _]. inversion H.
  - apply NoDup_cons in Hnd as [Ht Hnd].
    destruct (files !! path t) as [[df|e]|] eqn:Hf; simpl; [| done |].
    + destruct (block df) as [b|e] eqn:Hb; simpl; [|done].
      rewrite dict_set_fresh by (apply Hacc; by left).
      intros Hload.
      destruct (IH Hnd (acc ++ [(t, b)]) res) as (new & -> & Hkeys & Hin);
        [|done|].
      { intros t' Ht'. rewrite fmap_app. simpl.
        intros [?|Heq%list_elem_of_singleton]%elem_of_app.
        - by apply (Hacc t'); [right|].
        - congruence. }
      exists ((t, b) :: new). rewrite <- app_assoc. split; [done|].
      split.
      * rewrite filter_cons_True by (unfold log_exists; by rewrite Hf).
        rewrite fmap_cons. by rewrite Hkeys.
      * intros t' b'. rewrite elem_of_cons, Hin. split.
        -- intros [[= -> ->]|[Ht' Hdf]].
           ++ split; [by left | eauto].
           ++ split; [by right | done].
        -- intros [[->|Ht']%elem_of_cons (df' & Hf' & Hb')].
           ++ left. rewrite Hf in Hf'. simplify_eq. congruence.
           ++ right. split; [done | eauto].
    + intros Hload.
      destruct (IH Hnd acc res) as (new & -> & Hkeys & Hin); [|done|].
      { intros t' Ht'. apply Hacc. by right. }
      exists new. split; [done|]. split.
      * rewrite filter_cons_False; [done|].
        unfold log_exists. rewrite Hf. by intros [? ?].
      * intros t' b'. rewrite Hin. split.
        -- intros [Ht' Hdf]. split; [by right | done].
        -- intros [[->|Ht']%elem_of_cons (df' & Hf' & Hb')];
             [congruence | eauto].
Qed.

End Reading.

(** *** The combined tables *)

(** The columns that one mode contributes. *)
Definition mode_columns (sc : option (list string)) (t : string)
  : list (string * option string) :=
  match sc with
  | None => [(t, None)]
  | Some cs => map (fun c => (t, Some c)) cs
  end.

Lemma concat_columns blocks c :
  concat blocks = Ok c -> comp_columns c = composite_columns blocks.
Proof.
  unfold concat. destruct (forallb nodupb _); [by intros [= <-]|].
  destruct (map _ blocks) as [|i0 rest]; [done|].
  destruct (forallb _ rest); [by intros [= <-] | done].
Qed.

Lemma composite_columns_uniform sc (blocks : list (string * Block)) :
  (forall t b, (t, b) ∈ blocks -> b_subcols b = sc) ->
  composite_columns blocks = flat_map (mode_columns sc) blocks.*1.
Proof.
  induction blocks as [|[t b] blocks IH]; intros H; [done|].
  unfold composite_columns in *. simpl.
  rewrite (H t b) by (by left). f_equal.
  apply IH. intros t' b' ?. apply (H t'). by right.
Qed.

Lemma assoc_is_Some {A} (items : list (value * A)) k :
  is_Some (assoc k items) <-> k ∈ items.*1.
Proof.
  induction items as [|[k' v] items IH]; simpl.
  - split; [by intros [? ?] | intros H; inversion H].
  - rewrite elem_of_cons. destruct (decide (k' = k)) as [->|Hne].
    + split; [by left | eauto].
    + rewrite IH. split; [by right | by intros [?|?]; [congruence|]].
Qed.

Lemma elem_of_drop_duplicated {A} (items : list (value * A)) k :
  k ∈ (drop_duplicated items).*1 <-> k ∈ items.*1.
Proof. by rewrite <- !assoc_is_Some, drop_duplicated_first. Qed.

Lemma elem_of_unique_labels ls k : k ∈ unique_labels ls <-> k ∈ ls.
Proof.
  unfold unique_labels. rewrite elem_of_drop_duplicated.
  rewrite <- list_fmap_compose. simpl. by rewrite list_fmap_id.
Qed.

Lemma concat_index blocks c :
  (forall t b, (t, b) ∈ blocks -> NoDup (block_labels b)) ->
  concat blocks = Ok c ->
  forall k, k ∈ comp_index c
            <-> exists t b, (t, b) ∈ blocks /\ k ∈ block_labels b.
Proof.
  intros Hnd. unfold concat.
  assert (forallb nodupb (map (fun tb => block_labels tb.2) blocks) = true) as ->.
  { apply forallb_forall. intros ls [[t b] [<- Hin]]%in_map_iff.
    apply nodupb_true, (Hnd t). by apply list_elem_of_In. }
  intros [= <-] k. unfold comp_index. simpl.
  rewrite <- list_fmap_compose. simpl. rewrite list_fmap_id.
  rewrite elem_of_unique_labels, list_elem_of_join. split.
  - intros (ls & Hk & Hls). apply list_elem_of_In, in_map_iff in Hls.
    destruct Hls as ([t b] & <- & Hin). exists t, b.
    split; [by apply list_elem_of_In | done].
  - intros (t & b & Hin & Hk). exists (block_labels b). split; [done|].
    apply list_elem_of_In, in_map_iff. exists (t, b).
    split; [done | by apply list_elem_of_In].
Qed.

Section Stage.
Context (files : gmap string (outcome DataFrame)).
Context (compares : list string) (path : string -> string).
Context (block : DataFrame -> outcome Block) (out : string).
Context (rows : DataFrame -> outcome (list (value * list value))).
Context (sc : option (list string)).
Hypothesis compares_NoDup : NoDup compares.
Hypothesis block_def : forall df,
  block df = obind (rows df)
               (fun all_rows => Ok {| b_subcols := sc;
                                      b_rows := drop_duplicated all_rows |}).

Lemma block_def_rows df b :
  block df = Ok b ->
  exists all_rows, rows df = Ok all_rows
                   /\ b_subcols b = sc
                   /\ b_rows b = drop_duplicated all_rows.
Proof.
  rewrite block_def. destruct (rows df) as [all_rows|e]; simpl; [|done].
  intros [= <-]. eauto.
Qed.

Lemma stage_columns loaded w :
  stage files compares path block out loaded w ->
  forall p c, ToCsv p c ∈ w ->
    p = out
    /\ comp_columns c
       = flat_map (mode_columns sc) (filter (log_exists files path) compares).
Proof.
  intros [Hload Hw] p c Hin.
  destruct Hw as [[_ ->]|(_ & c' & Hc & ->)]; [inversion Hin|].
  apply list_elem_of_singleton in Hin. injection Hin as -> ->.
  split; [done|].
  destruct (load_items files path block compares compares_NoDup [] loaded)
    as (new & -> & Hkeys & Hnew); [|done|].
  { intros t _ H. inversion H. }
  rewrite (concat_columns _ _ Hc). simpl.
  rewrite (composite_columns_uniform sc), Hkeys; [done|].
  intros t b (_ & df & _ & Hb)%Hnew.
  by destruct (block_def_rows df b Hb) as (? & _ & ? & _).
Qed.

Lemma stage_index loaded w :
  stage files compares path block out loaded w ->
  forall p c, ToCsv p c ∈ w ->
    p = out
    /\ forall k, k ∈ comp_index c
                 <-> exists t df all_rows,
                       t ∈ compares
                       /\ files !! path t = Some (Ok df)
                       /\ rows df = Ok all_rows
                       /\ k ∈ all_rows.*1.
Proof.
  intros [Hload Hw] p c Hin.
  destruct Hw as [[_ ->]|(_ & c' & Hc & ->)]; [inversion Hin|].
  apply list_elem_of_singleton in Hin. injection Hin as -> ->.
  split; [done|]. intros k.
  destruct (load_items files path block compares compares_NoDup [] loaded)
    as (new & -> & Hkeys & Hnew); [|done|].
  { intros t _ H. inversion H. }
  simpl in Hc.
  assert (forall t b, (t, b) ∈ new -> NoDup (block_labels b)) as Hnd.
  { intros t b (_ & df & _ & Hb)%Hnew.
    destruct (block_def_rows df b Hb) as (all_rows & _ & _ & Hrows).
    unfold block_labels. rewrite Hrows. apply drop_duplicated_NoDup. }
  rewrite (concat_index new c' Hnd Hc). split.
  - intros (t & b & (Ht & df & Hf & Hb)%Hnew & Hk).
    destruct (block_def_rows df b Hb) as (all_rows & Hr & _ & Hrows).
    exists t, df, all_rows. split; [done|]. split; [done|]. split; [done|].
    apply elem_of_drop_duplicated. unfold block_labels in Hk.
    by rewrite Hrows in Hk.
  - intros (t & df & all_rows & Ht & Hf & Hr & Hk).
    exists t, {| b_subcols := sc; b_rows := drop_duplicated all_rows |}.
    split.
    + apply Hnew. split; [done|]. exists df. split; [done|].
      by rewrite block_def, Hr.
    + unfold block_labels. simpl. by apply elem_of_drop_duplicated.
Qed.

End Stage.

Lemma run_step_written (context : gmap string value)
    (files : gmap string (outcome DataFrame)) sharrow legacy tag archive_dir
    evs r :
  context !! "sharrow" = Some sharrow -> sharrow <> VNone ->
  context !! "legacy" = Some legacy -> legacy <> VNone ->
  context !! "tag" = Some tag -> tag <> VNone ->
  context !! "archive_dir" = Some archive_dir -> archive_dir <> VNone ->
  run_step context files = (evs, r) ->
  let compares := selected_compares sharrow legacy in
  let dir := str archive_dir in
  forall p c, ToCsv p c ∈ evs ->
    (exists timings tw,
       stage files compares (timing_log dir) timing_block
         (combined_timing_log dir (str tag)) timings tw
       /\ ToCsv p c ∈ tw)
    \/ (exists mems mw,
          stage files compares (mem_log dir) mem_block
            (combined_mem_log dir (str tag)) mems mw
          /\ ToCsv p c ∈ mw).
Proof.
  intros Hs Hs' Hl Hl' Ht Ht' Ha Ha' Hrun compares dir p c Hin.
  destruct (run_step_cases context files sharrow legacy tag archive_dir)
    as [(e & _ & Hr)|(timings & tw & Hst & [(e & _ & Hr)|(mems & mw & Hsm & Hr)])];
    try done; rewrite Hrun in Hr; injection Hr as -> ->.
  - apply list_elem_of_singleton in Hin. discriminate Hin.
  - apply elem_of_cons in Hin as [Hin|Hin]; [discriminate Hin|].
    left. eauto.
  - apply elem_of_cons in Hin as [Hin|Hin]; [discriminate Hin|].
    apply elem_of_app in Hin as [Hin|Hin]; [left | right]; eauto.
Qed.

(** X15. The columns of a combined file follow the selected modes in the
    fixed order [compile], [sharrow], [legacy], passing over the modes
    whose log does not exist: one column per mode in the combined timing
    log, and the three columns [rss], [full_rss], [uss] per mode in the
    combined memory log. Files are written under these two names only. *)
Theorem combined_columns_follow_the_modes (context : gmap string value)
    (files : gmap string (outcome DataFrame)) sharrow legacy tag archive_dir
    evs r :
  context !! "sharrow" = Some sharrow -> sharrow <> VNone ->
  context !! "legacy" = Some legacy -> legacy <> VNone ->
  context !! "tag" = Some tag -> tag <> VNone ->
  context !! "archive_dir" = Some archive_dir -> archive_dir <> VNone ->
  run_step context files = (evs, r) ->
  let compares := selected_compares sharrow legacy in
  let dir := str archive_dir in
  forall p c, ToCsv p c ∈ evs ->
    (p = combined_timing_log dir (str tag)
     /\ comp_columns c
        = map (fun t => (t, None))
            (filter (log_exists files (timing_log dir)) compares))
    \/ (p = combined_mem_log dir (str tag)
        /\ comp_columns c
           = flat_map (fun t => [(t, Some "rss"); (t, Some "full_rss");
                                 (t, Some "uss")])
               (filter (log_exists files (mem_log dir)) compares)).
Proof.
  intros Hs Hs' Hl Hl' Ht Ht' Ha Ha' Hrun compares dir p c Hin.
  destruct (run_step_written context files sharrow legacy tag archive_dir
              evs r Hs Hs' Hl Hl' Ht Ht' Ha Ha' Hrun p c Hin)
    as [(timings & tw & Hst & Hw)|(mems & mw & Hsm & Hw)].
  - left.
    destruct (stage_columns files _ _ timing_block _ timing_rows None
                (selected_compares_NoDup sharrow legacy)
                (fun df => eq_refl) timings tw Hst p c Hw) as [-> ->].
    split; [done|]. fold compares dir.
    induction (filter _ compares) as [|t l IH]; simpl; [done | by rewrite IH].
  - right.
    destruct (stage_columns files _ _ mem_block _ mem_rows
                (Some ["rss"; "full_rss"; "uss"])
                (selected_compares_NoDup sharrow legacy)
                (fun df => eq_refl) mems mw Hsm p c Hw) as [-> ->].
    done.
Qed.

Definition sample_combined : Composite :=
  {| comp_columns := [("sharrow", None); ("legacy", None)];
     comp_rows := [(VStr "initialize", [VInt 3; VNaN]);
                   (VStr "school", [VInt 7; VInt 9]);
                   (VStr "work", [VNaN; VInt 4])] |}.

Lemma sample_combined_written :
  ToCsv "arc/combined_timing_log-v1.csv" sample_combined
    ∈ (run_step sample_context sample_files).1.
Proof.
  change (run_step sample_context sample_files).1
    with [reset; ToCsv "arc/combined_timing_log-v1.csv" sample_combined].
  right. left.
Qed.

Lemma combined_columns_follow_the_modes_witness :
  ("arc/combined_timing_log-v1.csv" = "arc/combined_timing_log-v1.csv"
   /\ comp_columns sample_combined = [("sharrow", None); ("legacy", None)])
  \/ ("arc/combined_timing_log-v1.csv" = "arc/combined_mem_log-v1.csv"
      /\ comp_columns sample_combined = []).
Proof.
  exact (combined_columns_follow_the_modes sample_context sample_files
           (VBool true) (VBool true) (VStr "v1") (VStr "arc")
           (run_step sample_context sample_files).1
           (run_step sample_context sample_files).2
           eq_refl ltac:(discriminate) eq_refl ltac:(discriminate)
           eq_refl ltac:(discriminate) eq_refl ltac:(discriminate)
           eq_refl _ _ sample_combined_written).
Defined.

(** A label of the logs that are read: the cell in the column [index] of
    some row of the log of some selected mode. *)
Definition is_label_of (files : gmap string (outcome DataFrame))
    (compares : list string) (path : string -> string) (index : string)
    (k : value) : Prop :=
  exists t df i ti r,
    t ∈ compares
    /\ files !! path t = Some (Ok df)
    /\ col_pos index (df_columns df) = Some (i, ti)
    /\ r ∈ df_rows df
    /\ cell_at i r = k.

Lemma load_ok_block files path block compares acc loaded t df :
  load files path block compares acc = Ok loaded ->
  t ∈ compares -> files !! path t = Some (Ok df) ->
  exists b, block df = Ok b.
Proof.
  revert acc. induction compares as [|t' compares IH]; intros acc; simpl.
  - intros _ H. inversion H.
  - intros Hload [->|Hin]%elem_of_cons Hf.
    + rewrite Hf in Hload. simpl in Hload.
      destruct (block df) as [b|e]; [eauto | done].
    + destruct (files !! path t') as [[df'|e]|]; simpl in Hload; [| done |].
      * destruct (block df') as [b|e]; simpl in Hload; [|done].
        by apply (IH _ Hload).
      * by apply (IH _ Hload).
Qed.

Lemma stage_labels files compares path block out rows sc index cols loaded w :
  NoDup compares ->
  (forall df,
     block df = obind (rows df)
                  (fun all_rows =>
                     Ok {| b_subcols := sc;
                           b_rows := drop_duplicated all_rows |})) ->
  (forall df all_rows, rows df = Ok all_rows ->
                       log_rows index cols df all_rows) ->
  stage files compares path block out loaded w ->
  forall p c, ToCsv p c ∈ w ->
    p = out
    /\ forall k, k ∈ comp_index c
                 <-> is_label_of files compares path index k.
Proof.
  intros Hnd Hdef Hrows Hst p c Hin.
  destruct (stage_index files compares path block out rows sc Hnd Hdef
              loaded w Hst p c Hin) as [-> Hidx].
  split; [done|]. intros k. rewrite Hidx. split.
  - intros (t & df & all_rows & Ht & Hf & Hr & Hk).
    destruct (Hrows df all_rows Hr) as (i & ti & js & Hi & _ & ->).
    rewrite <- list_fmap_compose in Hk.
    apply list_elem_of_fmap in Hk as (r & -> & Hr').
    exists t, df, i, ti, r. done.
  - intros (t & df & i & ti & r & Ht & Hf & Hi & Hr & <-).
    destruct Hst as [Hload _].
    destruct (load_ok_block _ _ _ _ _ _ t df Hload Ht Hf) as [b Hb].
    rewrite Hdef in Hb.
    destruct (rows df) as [all_rows|e] eqn:Hall; [|done].
    exists t, df, all_rows. split; [done|]. split; [done|]. split; [done|].
    destruct (Hrows df all_rows Hall) as (i' & ti' & js & Hi' & _ & ->).
    rewrite Hi in Hi'. injection Hi' as <- <-.
    rewrite <- list_fmap_compose. apply list_elem_of_fmap.
    exists r. done.
Qed.

(** X16. The index of a combined file is the union of the labels of the
    logs it is made of: a label is in the combined timing log exactly when
    some row of the timing log of some selected mode has it in the column
    [model_name], and in the combined memory log exactly when some row of
    the memory log of some selected mode has it in the column [event]. *)
Theorem combined_index_is_the_union (context : gmap string value)
    (files : gmap string (outcome DataFrame)) sharrow legacy tag archive_dir
    evs r :
  context !! "sharrow" = Some sharrow -> sharrow <> VNone ->
  context !! "legacy" = Some legacy -> legacy <> VNone ->
  context !! "tag" = Some tag -> tag <> VNone ->
  context !! "archive_dir" = Some archive_dir -> archive_dir <> VNone ->
  run_step context files = (evs, r) ->
  let compares := selected_compares sharrow legacy in
  let dir := str archive_dir in
  forall p c, ToCsv p c ∈ evs ->
    (p = combined_timing_log dir (str tag)
     /\ forall k, k ∈ comp_index c
                  <-> is_label_of files compares (timing_log dir)
                        "model_name" k)
    \/ (p = combined_mem_log dir (str tag)
        /\ forall k, k ∈ comp_index c
                     <-> is_label_of files compares (mem_log dir) "event" k).
Proof.
  intros Hs Hs' Hl Hl' Ht Ht' Ha Ha' Hrun compares dir p c Hin.
  destruct (run_step_written context files sharrow legacy tag archive_dir
              evs r Hs Hs' Hl Hl' Ht Ht' Ha Ha' Hrun p c Hin)
    as [(timings & tw & Hst & Hw)|(mems & mw & Hsm & Hw)].
  - left.
    exact (stage_labels files _ _ timing_block _ timing_rows None
             "model_name" ["seconds"] timings tw
             (selected_compares_NoDup sharrow legacy)
             (fun df => eq_refl) timing_rows_log_rows Hst p c Hw).
  - right.
    exact (stage_labels files _ _ mem_block _ mem_rows
             (Some ["rss"; "full_rss"; "uss"])
             "event" ["rss"; "full_rss"; "uss"] mems mw
             (selected_compares_NoDup sharrow legacy)
             (fun df => eq_refl) mem_rows_log_rows Hsm p c Hw).
Qed.

Lemma combined_index_is_the_union_witness :
  VStr "work" ∈ comp_index sample_combined
  <-> is_label_of sample_files ["compile"; "sharrow"; "legacy"]
        (timing_log "arc") "model_name" (VStr "work").
Proof.
  destruct (combined_index_is_the_union sample_context sample_files
              (VBool true) (VBool true) (VStr "v1") (VStr "arc")
              (run_step sample_context sample_files).1
              (run_step sample_context sample_files).2
              eq_refl ltac:(discriminate) eq_refl ltac:(discriminate)
              eq_refl ltac:(discriminate) eq_refl ltac:(discriminate)
              eq_refl _ _ sample_combined_written)
    as [[_ H]|[Hp _]]; [exact (H (VStr "work")) | discriminate Hp].
Defined.

(** *** Logs that cannot be read *)

(** X17. The combined timing log is written before any memory log is
    read. When the timing log of a selected mode is the first that cannot
    be read, the step raises its error and writes nothing. When all timing
    logs can be read and the memory log of a selected mode is the first
    that cannot, the step raises its error after the combined timing log
    has been written (if any timing log exists), and no combined memory log
    is written. *)
Theorem unreadable_log_stops_the_step (context : gmap string value)
    (files : gmap string (outcome DataFrame)) sharrow legacy tag archive_dir
    (pre post : list string) (t : string) (e : exn) :
  context !! "sharrow" = Some sharrow -> sharrow <> VNone ->
  context !! "legacy" = Some legacy -> legacy <> VNone ->
  context !! "tag" = Some tag -> tag <> VNone ->
  context !! "archive_dir" = Some archive_dir -> archive_dir <> VNone ->
  let compares := selected_compares sharrow legacy in
  let dir := str archive_dir in
  compares = pre ++ t :: post ->
  ((forall t', t' ∈ pre -> readable files (timing_log dir) timing_block t') ->
   unreadable files (timing_log dir) timing_block t e ->
   run_step context files = ([reset], Raised e))
  /\ ((forall t', t' ∈ compares ->
         readable files (timing_log dir) timing_block t') ->
      (forall t', t' ∈ pre -> readable files (mem_log dir) mem_block t') ->
      unreadable files (mem_log dir) mem_block t e ->
      exists tw,
        run_step context files = (reset :: tw, Raised e)
        /\ ((forall t', t' ∈ compares -> files !! timing_log dir t' = None) ->
            tw = [])
        /\ ((exists t', t' ∈ compares
                        /\ log_exists files (timing_log dir) t') ->
            exists c, tw = [ToCsv (combined_timing_log dir (str tag)) c])).
Proof.
  intros Hs Hs' Hl Hl' Ht Ht' Ha Ha' compares dir Hsplit.
  pose proof (run_step_cases context files sharrow legacy tag archive_dir
                Hs Hs' Hl Hl' Ht Ht' Ha Ha') as Hcases.
  cbv zeta in Hcases. fold compares dir in Hcases. split.
  - intros Hpre Hbad.
    pose proof (load_unreadable files (timing_log dir) timing_block
                  pre t post e [] Hpre Hbad) as Hload.
    rewrite <- Hsplit in Hload.
    destruct Hcases as [(e' & He' & Hr)|(timings & tw & [Hlt _] & _)];
      congruence.
  - intros Hgood Hpre Hbad.
    pose proof (load_unreadable files (mem_log dir) mem_block
                  pre t post e [] Hpre Hbad) as Hload.
    rewrite <- Hsplit in Hload.
    destruct (load_readable files (timing_log dir) timing_block compares []
                Hgood) as [res Hres].
    destruct Hcases
      as [(e' & He' & _)
         |(timings & tw & [Hlt Hw] & [(e' & He' & Hr)|(mems & mw & [Hlm _] & _)])];
      [congruence | | congruence].
    exists tw. split; [congruence|]. split.
    + intros Hnone.
      rewrite (load_absent files _ _ compares [] Hnone) in Hlt.
      injection Hlt as <-.
      by destruct Hw as [[_ ->]|[? _]].
    + intros (t' & Hin & Hex).
      destruct Hw as [[-> _]|(_ & c & _ & ->)]; [|eauto].
      apply load_nil in Hlt as [_ Hnone].
      unfold log_exists in Hex. rewrite (Hnone t' Hin) in Hex.
      by destruct Hex.
Qed.

Definition broken_files : gmap string (outcome DataFrame) :=
  <["arc/output-sharrow/log/mem.csv" :=
      Raised (Raise (OtherException "ParserError") "Error tokenizing data")]>
    sample_files.

Lemma unreadable_log_stops_the_step_witness :
  exists tw,
    run_step sample_context broken_files
    = (reset :: tw,
       Raised (Raise (OtherException "ParserError") "Error tokenizing data"))
    /\ exists c, tw = [ToCsv "arc/combined_timing_log-v1.csv" c].
Proof.
  destruct (unreadable_log_stops_the_step sample_context broken_files
              (VBool true) (VBool true) (VStr "v1") (VStr "arc")
              ["compile"] ["legacy"] "sharrow"
              (Raise (OtherException "ParserError") "Error tokenizing data"))
    as [_ H];
    [reflexivity | discriminate | reflexivity | discriminate
    | reflexivity | discriminate | reflexivity | discriminate
    | reflexivity |].
  destruct H as (tw & Hrun & _ & Hsome).
  - intros t' Hin. cbn in Hin.
    repeat (apply elem_of_cons in Hin as [->|Hin]);
      [left; reflexivity
      | right; eexists _, _; split; reflexivity
      | right; eexists _, _; split; reflexivity
      | inversion Hin].
  - intros t' Hin. apply list_elem_of_singleton in Hin as ->.
    left. reflexivity.
  - left. reflexivity.
  - exists tw. split; [exact Hrun|]. apply Hsome.
    exists "sharrow". split; [right; left | eexists; reflexivity].
Defined.

(** *** What the step does not read *)

(** X18. The step looks at the logs of the selected modes only: two disks
    that agree on the timing and memory logs of the selected modes give the
    same result and the same files written. With both switches off no mode
    is selected, and the step writes nothing whatever the disk holds. *)
Theorem only_selected_logs_are_read (context : gmap string value)
    (files files' : gmap string (outcome DataFrame))
    sharrow legacy tag archive_dir :
  context !! "sharrow" = Some sharrow -> sharrow <> VNone ->
  context !! "legacy" = Some legacy -> legacy <> VNone ->
  context !! "tag" = Some tag -> tag <> VNone ->
  context !! "archive_dir" = Some archive_dir -> archive_dir <> VNone ->
  let compares := selected_compares sharrow legacy in
  let dir := str archive_dir in
  ((forall t, t ∈ compares ->
      files !! timing_log dir t = files' !! timing_log dir t
      /\ files !! mem_log dir t = files' !! mem_log dir t) ->
   run_step context files = run_step context files')
  /\ (truthy sharrow = false -> truthy legacy = false ->
      run_step context files = ([reset], Ok tt)).
Proof.
  intros Hs Hs' Hl Hl' Ht Ht' Ha Ha' compares dir.
  assert (forall f f' : gmap string (outcome DataFrame),
            (forall t, t ∈ compares ->
               f !! timing_log dir t = f' !! timing_log dir t
               /\ f !! mem_log dir t = f' !! mem_log dir t) ->
            run_step context f = run_step context f') as Hsame.
  { intros f f' Hagree.
    rewrite !(run_step_shape context _ sharrow legacy tag archive_dir)
      by done.
    fold compares dir.
    rewrite (load_ext f (timing_log dir) timing_block f' compares [])
      by (intros t Hin; by apply Hagree).
    rewrite (load_ext f (mem_log dir) mem_block f' compares [])
      by (intros t Hin; by apply Hagree).
    done. }
  split; [apply Hsame|].
  intros Hst Hlt. rewrite (Hsame files ∅).
  - rewrite (run_step_shape context _ sharrow legacy tag archive_dir) by done.
    unfold selected_compares. by rewrite Hst, Hlt.
  - intros t Hin. unfold compares, selected_compares in Hin.
    rewrite Hst, Hlt in Hin. inversion Hin.
Qed.

Definition quiet_context : gmap string value :=
  <["sharrow" := VBool false]> (<["legacy" := VInt 0]>
    (<["tag" := VStr "v1"]> (<["archive_dir" := VStr "arc"]> ∅))).

Definition legacy_context : gmap string value :=
  <["sharrow" := VBool false]> (<["legacy" := VBool true]>
    (<["tag" := VStr "v1"]> (<["archive_dir" := VStr "arc"]> ∅))).

Lemma only_selected_logs_are_read_witness :
  run_step legacy_context sample_files = run_step legacy_context broken_files
  /\ run_step quiet_context sample_files = ([reset], Ok tt).
Proof.
  split.
  - destruct (only_selected_logs_are_read legacy_context sample_files
                broken_files (VBool false) (VBool true) (VStr "v1")
                (VStr "arc"))
      as [Hsame _];
      [reflexivity | discriminate | reflexivity | discriminate
      | reflexivity | discriminate | reflexivity | discriminate |].
    apply Hsame. intros t Hin. apply list_elem_of_singleton in Hin as ->.
    split; reflexivity.
  - destruct (only_selected_logs_are_read quiet_context sample_files
                broken_files (VBool false) (VInt 0) (VStr "v1") (VStr "arc"))
      as [_ Hnone];
      [reflexivity | discriminate | reflexivity | discriminate
      | reflexivity | discriminate | reflexivity | discriminate |].
    apply Hnone; reflexivity.
Defined.

End CompositeLogDetails.
